(** * The Overpass task queue of osm-wikidata (task_queue.py)

    A shallow embedding of the scheduling and relay service: the global
    priority queue [task_queue], the worker ([wait_for_slot],
    [process_queue], [process_queue_loop]) and the per-connection handler
    ([Request.send_msg], [reply_and_close], [new_place_request], [handle]).

    Python values that cross the wire are JSON values; Python exceptions are
    an explicit error type; the mutable global state (queue, cache files,
    message objects, sockets) is threaded through a state and error monad.
    The collaborators that are not part of the module (the Overpass client,
    the string parser behind [float], the greenlet scheduler, the file
    system when a response is written) are section variables.

    The file also embeds the methods of [Place] (matcher/place.py) that
    compute on the attributes of a place: its names and its conversion from
    a Nominatim hit. *)

From Stdlib Require Import ZArith Lia.
From Stdlib Require Import Floats.SpecFloat.
From Stdlib Require DecimalString DecimalZ DecimalPos.
From stdpp Require Import base option list sorting gmap strings.

Local Open Scope string_scope.
Local Open Scope list_scope.

(** ** Python values *)

(** What [json.loads] returns.  Objects keep their keys in insertion order,
    as Python dicts do; a decoded object has no repeated key.  A [str] is
    held as its UTF-8 encoding: one to four bytes for each character. *)
#[warning="-register-all"]
Inductive json : Type :=
  | JNull
  | JBool (b : bool)
  | JInt (z : Z)
  | JFloat (f : spec_float)
  | JStr (s : string)
  | JArr (l : list json)
  | JObj (d : list (string * json)).

Abbreviation dict := (list (string * json)).

Fixpoint dict_get (d : dict) (k : string) : option json :=
  match d with
  | [] => None
  | (k', v) :: d' => if String.eqb k' k then Some v else dict_get d' k
  end.

(** [d[k] = v]: an existing key keeps its position, a new key goes last. *)
Fixpoint dict_set (d : dict) (k : string) (v : json) : dict :=
  match d with
  | [] => [(k, v)]
  | (k', v') :: d' =>
      if String.eqb k' k then (k', v) :: d' else (k', v') :: dict_set d' k v
  end.

Inductive exn : Type :=
  | KeyError (k : string)
  | TypeError
  | ValueError
  | AttributeError
  | OverflowError
  | AssertionError
  | BrokenPipeError
  | IndexError
  | OverpassError (url text : string)
  | Timeout
  | JSONDecodeError
  | OtherError (name : string).

(** [v[k]] with a string key. *)
Definition py_getitem (v : json) (k : string) : exn + json :=
  match v with
  | JObj d => match dict_get d k with
              | Some x => inr x
              | None => inl (KeyError k)
              end
  | _ => inl TypeError
  end.

(** [v.get(k)]: only dicts have the method. *)
Definition py_get (v : json) (k : string) : exn + json :=
  match v with
  | JObj d => inr (default JNull (dict_get d k))
  | _ => inl AttributeError
  end.

Definition is_zero (f : spec_float) : bool :=
  match f with S754_zero _ => true | _ => false end.

Definition string_is_empty (s : string) : bool :=
  match s with EmptyString => true | _ => false end.

Definition list_is_empty {A} (l : list A) : bool :=
  match l with [] => true | _ => false end.

(** Truth value of a Python object, as tested by [if not oql] and
    [while to_send]. *)
Definition py_truthy (v : json) : bool :=
  match v with
  | JNull => false
  | JBool b => b
  | JInt z => negb (Z.eqb z 0)
  | JFloat f => negb (is_zero f)
  | JStr s => negb (string_is_empty s)
  | JArr l => negb (list_is_empty l)
  | JObj d => negb (list_is_empty d)
  end.

(** The bytes [10xxxxxx], which continue a character in UTF-8. *)
Definition is_continuation (c : Ascii.ascii) : bool :=
  match c with
  | Ascii.Ascii _ _ _ _ _ _ b6 b7 => b7 && negb b6
  end.

(** The characters of a [str]: each byte that starts a character, with the
    continuation bytes that follow it. *)
Fixpoint code_points (s : string) : list string :=
  match s with
  | EmptyString => []
  | String c s' =>
      let rest := code_points s' in
      match s', rest with
      | String c' _, g :: gs =>
          if is_continuation c' then String c g :: gs
          else String c EmptyString :: rest
      | _, _ => String c EmptyString :: rest
      end
  end.

(** The elements a [for] loop visits: the items of a list, the keys of a
    dict, the characters of a [str]. *)
Definition py_iter (v : json) : exn + list json :=
  match v with
  | JArr l => inr l
  | JObj d => inr (map (fun kv => JStr (fst kv)) d)
  | JStr s => inr (map JStr (code_points s))
  | _ => inl TypeError
  end.

(** ['overpass/' + x] *)
Definition py_str_concat (prefix : string) (v : json) : exn + string :=
  match v with
  | JStr s => inr (String.append prefix s)
  | _ => inl TypeError
  end.

(** Python floats are IEEE binary64. *)
Definition prec : Z := 53.
Definition emax : Z := 1024.

Definition float_zero : spec_float := S754_zero false.
Definition float_one : spec_float := binary_normalize prec emax 1 0 false.

(** [float(n)] for an int: nearest double, [OverflowError] beyond the range. *)
Definition float_of_int (z : Z) : option spec_float :=
  match binary_normalize prec emax z 0 false with
  | S754_infinity _ => None
  | f => Some f
  end.

(** ** State and error monad *)

Inductive outcome (S A : Type) : Type :=
  | Done (a : A) (s : S)
  | Raised (e : exn) (s : S)
  | Blocked (s : S).
Arguments Done {S A} a s.
Arguments Raised {S A} e s.
Arguments Blocked {S A} s.

Definition M (S A : Type) : Type := S -> outcome S A.

Global Instance M_ret {S} : MRet (M S) := fun A a s => Done a s.

Global Instance M_bind {S} : MBind (M S) := fun A B k m s =>
  match m s with
  | Done a s' => k a s'
  | Raised e s' => Raised e s'
  | Blocked s' => Blocked s'
  end.

Definition raise {S A} (e : exn) : M S A := fun s => Raised e s.

Definition lift {S A} (r : exn + A) : M S A :=
  match r with
  | inl e => raise e
  | inr a => mret a
  end.

Definition gets {S A} (f : S -> A) : M S A := fun s => Done (f s) s.
Definition modify {S} (f : S -> S) : M S unit := fun s => Done tt (f s).

Definition final_state {S A} (o : outcome S A) : S :=
  match o with
  | Done _ s => s
  | Raised _ s => s
  | Blocked s => s
  end.

(** Errors without state, for the pure helpers. *)
Definition ebind {A B} (r : exn + A) (k : A -> exn + B) : exn + B :=
  match r with
  | inl e => inl e
  | inr a => k a
  end.

(** ** heapq

    [gevent.queue.PriorityQueue] keeps its entries in a list that
    [heapq.heappush] and [heapq.heappop] reorder in place (the [_heapq]
    implementation that CPython loads, which exchanges entries).  Comparing
    two entries can raise, and the list then stays as it was at that
    moment: the functions are computations on the list. *)
Module heapq.
Section Heap.
Context {E : Type}.
Variable lt : E -> E -> exn + bool.

(** [siftdown]: the entry at [pos] moves towards the root while it is
    smaller than its parent.  [parentpos < pos], so [pos] iterations are
    enough. *)
Fixpoint siftdown_loop (fuel : nat) (startpos pos : nat)
    : M (list E) unit :=
  match fuel with
  | O => mret tt
  | S fuel' =>
      if decide (startpos < pos) then
        let parentpos := (pos - 1) / 2 in
        fun heap =>
          match heap !! pos, heap !! parentpos with
          | Some newitem, Some parent =>
              match lt newitem parent with
              | inl e => Raised e heap
              | inr false => Done tt heap
              | inr true =>
                  siftdown_loop fuel' startpos parentpos
                    (<[pos := parent]> (<[parentpos := newitem]> heap))
              end
          | _, _ => Raised IndexError heap
          end
      else mret tt
  end.

Definition siftdown (startpos pos : nat) : M (list E) unit :=
  siftdown_loop pos startpos pos.

(** The loop of [siftup]: the smaller child moves up until the entry that
    started at the root reaches a leaf; returns the position of that leaf.
    [pos] grows at every iteration and stays below the length. *)
Fixpoint siftup_loop (fuel : nat) (pos : nat) : M (list E) nat :=
  match fuel with
  | O => mret pos
  | S fuel' =>
      fun heap =>
        let endpos := length heap in
        let limit := endpos / 2 in
        if decide (pos < limit) then
          let childpos := 2 * pos + 1 in
          let chosen : exn + nat :=
            if decide (childpos + 1 < endpos) then
              match heap !! childpos, heap !! (childpos + 1) with
              | Some a, Some b =>
                  ebind (lt a b) (fun cmp =>
                    inr (if cmp then childpos else childpos + 1))
              | _, _ => inl IndexError
              end
            else inr childpos in
          match chosen with
          | inl e => Raised e heap
          | inr c =>
              match heap !! c, heap !! pos with
              | Some tmp1, Some tmp2 =>
                  siftup_loop fuel' c
                    (<[pos := tmp1]> (<[c := tmp2]> heap))
              | _, _ => Raised IndexError heap
              end
          end
        else Done pos heap
  end.

Definition siftup (pos : nat) : M (list E) unit :=
  n ← gets length ;
  leaf ← siftup_loop n pos ;
  siftdown pos leaf.

(** [heappush(heap, item)] *)
Definition heappush (item : E) : M (list E) unit :=
  n ← gets length ;
  modify (fun heap => heap ++ [item]) ;;
  siftdown 0 n.

(** [heappop(heap)] *)
Definition heappop : M (list E) E :=
  heap ← gets (fun h : list E => h) ;
  match last heap with
  | None => raise IndexError
  | Some lastelt =>
      modify (fun h : list E => removelast h) ;;
      match heap with
      | [] | [_] => mret lastelt
      | returnitem :: _ =>
          modify (fun h => <[0 := lastelt]> h) ;;
          siftup 0 ;;
          mret returnitem
      end
  end.
End Heap.
End heapq.

(** The heap invariant of [heapq], for an order [R] on the entries. *)
Section HeapOrder.
Context {E : Type}.
Variable lt : E -> E -> exn + bool.
Variable R : E -> E -> Prop.

Definition parent (i : nat) : nat := (i - 1) / 2.

(** The entry at [i] is above its parent. *)
Definition edge_ok (heap : list E) (i : nat) : Prop :=
  forall x p, heap !! i = Some x -> heap !! parent i = Some p -> R p x.

Definition heap_ok (heap : list E) : Prop :=
  forall i, 0 < i -> edge_ok heap i.

(** The entries are distinct, and [lt] compares any two of them without
    raising, as [R] orders them. *)
Definition decided (heap : list E) : Prop :=
  NoDup heap /\
  forall x y, x ∈ heap -> y ∈ heap -> x <> y ->
    (lt x y = inr true /\ R x y) \/ (lt x y = inr false /\ R y x).

(** The children of [pos] are above the parent of [pos]. *)
Definition skips_ok (heap : list E) (pos : nat) : Prop :=
  0 < pos ->
  forall c x g, 0 < c -> parent c = pos ->
    heap !! c = Some x -> heap !! parent pos = Some g -> R g x.

(** What [siftdown] starts from: a heap but for the entry at [pos], which
    may be below its parent. *)
Definition sifting_down (heap : list E) (pos : nat) : Prop :=
  (forall i, 0 < i -> i <> pos -> edge_ok heap i) /\
  skips_ok heap pos.

(** What the loop of [siftup] keeps: a heap but for the entry at [pos],
    which may be below its parent and above its children. *)
Definition sifting_up (heap : list E) (pos : nat) : Prop :=
  (forall i, 0 < i -> i <> pos -> parent i <> pos -> edge_ok heap i) /\
  skips_ok heap pos.
End HeapOrder.

(** ** Jobs and the priority of a queue entry *)

(** The dict [new_place_request] puts on the queue.  The [Queue] object
    under ['queue'] is shared with the request that created it, so the job
    holds the identity of that request. *)
Record item : Type := Item {
  item_place : json;
  item_address : string * nat;
  item_chunks : json;
  item_queue : nat
}.

Abbreviation entry := (spec_float * item)%type.

Definition is_nan (f : spec_float) : bool :=
  match f with S754_nan => true | _ => false end.

(** Python takes two objects as equal when they are one object, before it
    compares their values; for floats this matters for NaN only.  [area] is
    [float(place['area'])], and [float] returns its argument when that is a
    float: the priority of an entry is the NaN constant that [json.loads]
    returns for the literal [NaN] when the area of its place is that
    literal.  Every other NaN is an object of its own. *)
Definition nan_constant (x : entry) : bool :=
  is_nan (fst x) &&
  match py_getitem (item_place (snd x)) "area" with
  | inr (JFloat f) => is_nan f
  | _ => false
  end.

(** [(area1, item1) < (area2, item2)] on tuples: the first components
    decide when they differ; when they are equal Python compares the two
    dicts, which raises [TypeError].  The fallback [area = 0] is the int 0,
    which compares with floats by value and is embedded as [0.0]. *)
Definition entry_lt (x y : entry) : exn + bool :=
  if SFeqb (fst x) (fst y) || (nan_constant x && nan_constant y)
  then inl TypeError
  else inr (SFltb (fst x) (fst y)).

(** Priorities as [heapq] orders them. *)
Definition before (x y : entry) : Prop := SFltb (fst x) (fst y) = true.

(** A queue in which any two entries have different priorities, none of
    them NaN, and which is a heap. *)
Definition queue_ok (q : list entry) : Prop :=
  heap_ok before q /\
  NoDup q /\
  (forall x, x ∈ q -> is_nan (fst x) = false) /\
  (forall x y, x ∈ q -> y ∈ q -> x <> y -> SFeqb (fst x) (fst y) = false).

(** Entries that can share a queue: their priorities are numbers (none is
    NaN) that differ from each other. *)
Definition comparable (xs : list entry) : Prop :=
  NoDup xs /\
  (forall x, x ∈ xs -> is_nan (fst x) = false) /\
  (forall x y, x ∈ xs -> y ∈ xs -> x <> y -> SFeqb (fst x) (fst y) = false).

(** ** Requests, sockets and the global state *)

(** A message dict built by the worker lives in the object store and is
    referred to by its location: [to_client] mutates the dict it is given
    and puts that same object on the queue, so two queue entries can refer
    to one dict. *)
Abbreviation loc := nat (only parsing).

(** The client's side of a connection.  [sock_request] is what [json.loads]
    makes of the first frame: [None] when it raises, and
    [sock_request_error] is then the exception ([JSONDecodeError] for a text
    that is not JSON; another one, say, for a text that is nested too
    deep).  [sock_reply k] is the [k]-th later frame of the client ([None]
    when it never comes); [sock_wr_budget] is the number of writes that
    succeed before the peer is gone ([None] when it stays). *)
Record socket : Type := Socket {
  sock_request : option json;
  sock_request_error : exn;
  sock_reply : nat -> option string;
  sock_reads : nat;
  sock_out : list json;
  sock_wr_budget : option nat;
  sock_closed : bool
}.

(** Where the greenlet running [Request.handle] stands. *)
Inductive phase : Type :=
  | HNew
  | HRelay (error : bool)
  | HReturned
  | HRaised (e : exn)
  | HBlocked.

Record Request : Type := MkRequest {
  address : string * nat;
  sock : socket;
  send_queue : list (option loc);
  handler : phase
}.

Definition set_sock (f : socket -> socket) (r : Request) : Request :=
  MkRequest (address r) (f (sock r)) (send_queue r) (handler r).
Definition set_send_queue (f : list (option loc) -> list (option loc))
    (r : Request) : Request :=
  MkRequest (address r) (sock r) (f (send_queue r)) (handler r).
Definition set_handler (p : phase) (r : Request) : Request :=
  MkRequest (address r) (sock r) (send_queue r) p.

(** The global state.  [files] is the file system as [os.path.exists]
    sees it from the working directory: the paths that exist, each with
    its bytes (a directory has none).  Besides the queue, the requests, the
    message objects and the files, the state records what the worker did:
    every
    [send_queue.put] ([puts]: the request whose queue it was and the value),
    the mails sent, the calls of the upstream, the sleeps, the checks of the
    free space and the number of times the worker was suspended. *)
Record world : Type := World {
  task_queue : list entry;
  requests : gmap nat Request;
  objs : list dict;
  files : gmap string (list Byte.byte);
  puts : list (nat * option loc);
  mails : list (string * string);
  status_calls : nat;
  queries : list json;
  sleeps : list Z;
  space_checks : nat;
  yields : nat
}.

Definition set_task_queue (q : list entry) (w : world) : world :=
  World q (requests w) (objs w) (files w) (puts w) (mails w)
    (status_calls w) (queries w) (sleeps w) (space_checks w) (yields w).
Definition set_requests (f : gmap nat Request -> gmap nat Request)
    (w : world) : world :=
  World (task_queue w) (f (requests w)) (objs w) (files w) (puts w)
    (mails w) (status_calls w) (queries w) (sleeps w) (space_checks w)
    (yields w).
Definition set_objs (f : list dict -> list dict) (w : world) : world :=
  World (task_queue w) (requests w) (f (objs w)) (files w) (puts w)
    (mails w) (status_calls w) (queries w) (sleeps w) (space_checks w)
    (yields w).
Definition set_files
    (f : gmap string (list Byte.byte) -> gmap string (list Byte.byte))
    (w : world) : world :=
  World (task_queue w) (requests w) (objs w) (f (files w)) (puts w)
    (mails w) (status_calls w) (queries w) (sleeps w) (space_checks w)
    (yields w).
Definition add_put (c : nat) (x : option loc) (w : world) : world :=
  World (task_queue w) (requests w) (objs w) (files w) (puts w ++ [(c, x)])
    (mails w) (status_calls w) (queries w) (sleeps w) (space_checks w)
    (yields w).
Definition add_mail (subject body : string) (w : world) : world :=
  World (task_queue w) (requests w) (objs w) (files w) (puts w)
    (mails w ++ [(subject, body)]) (status_calls w) (queries w) (sleeps w)
    (space_checks w) (yields w).
Definition count_status (w : world) : world :=
  World (task_queue w) (requests w) (objs w) (files w) (puts w) (mails w)
    (S (status_calls w)) (queries w) (sleeps w) (space_checks w) (yields w).
Definition add_query (oql : json) (w : world) : world :=
  World (task_queue w) (requests w) (objs w) (files w) (puts w) (mails w)
    (status_calls w) (queries w ++ [oql]) (sleeps w) (space_checks w)
    (yields w).
Definition add_sleep (secs : Z) (w : world) : world :=
  World (task_queue w) (requests w) (objs w) (files w) (puts w) (mails w)
    (status_calls w) (queries w) (sleeps w ++ [secs]) (space_checks w)
    (yields w).
Definition count_space_check (w : world) : world :=
  World (task_queue w) (requests w) (objs w) (files w) (puts w) (mails w)
    (status_calls w) (queries w) (sleeps w) (S (space_checks w)) (yields w).
Definition count_yield (w : world) : world :=
  World (task_queue w) (requests w) (objs w) (files w) (puts w) (mails w)
    (status_calls w) (queries w) (sleeps w) (space_checks w) (S (yields w)).

Definition is_str (v : json) (s : string) : bool :=
  match v with
  | JStr s' => String.eqb s' s
  | _ => false
  end.

(** ** The socket, as [netstring] uses it *)

Definition netstring_write (frame : json) : M Request unit := fun r =>
  match sock_wr_budget (sock r) with
  | Some O => Raised BrokenPipeError r
  | b =>
      Done tt (set_sock (fun s =>
        Socket (sock_request s) (sock_request_error s) (sock_reply s)
          (sock_reads s) (sock_out s ++ [frame]) (pred <$> b)
          (sock_closed s)) r)
  end.

Definition netstring_read : M Request string := fun r =>
  match sock_reply (sock r) (sock_reads (sock r)) with
  | None => Blocked r
  | Some s =>
      Done s (set_sock (fun s =>
        Socket (sock_request s) (sock_request_error s) (sock_reply s)
          (S (sock_reads s)) (sock_out s) (sock_wr_budget s)
          (sock_closed s)) r)
  end.

Definition sock_close : M Request unit :=
  modify (set_sock (fun s =>
    Socket (sock_request s) (sock_request_error s) (sock_reply s)
      (sock_reads s) (sock_out s) (sock_wr_budget s) true)).

(** ** Request: the per-connection handler *)

(** [Request.send_msg(msg, check_ack=True)] *)
Definition send_msg (msg : json) (check_ack : bool) : M Request unit :=
  netstring_write msg ;;
  if check_ack then
    reply ← netstring_read ;
    if String.eqb reply "ack" then mret tt else raise AssertionError
  else mret tt.

(** [Request.reply_and_close(msg)] *)
Definition reply_and_close (msg : json) : M Request unit :=
  send_msg msg false ;; sock_close.

(** Body of [while to_send:] for the dict [to_send]. *)
Definition relay_body (to_send : dict) (error : bool) : M Request bool :=
  send_msg (JObj to_send) true ;;
  ty ← lift (py_getitem (JObj to_send) "type") ;
  mret (if is_str ty "error" then true else error).

(** What follows the loop: the [else] clause of the [try], then
    [self.sock.close()]. *)
Definition relay_finish (error : bool) : M Request unit :=
  (if error then mret tt else send_msg (JObj [("type", JStr "done")]) true) ;;
  sock_close.

(** One value taken off [send_queue]: the sentinel [None] (or an empty dict)
    ends the loop, anything else is relayed.  [BrokenPipeError] raised inside
    the loop is caught, and the socket closed. *)
Definition relay_step (store : list dict) (to_send : option loc)
    (error : bool) (r : Request) : Request :=
  let d : dict := from_option (fun l => default [] (store !! l)) [] to_send in
  if py_truthy (JObj d) then
    match relay_body d error r with
    | Done error' r' => set_handler (HRelay error') r'
    | Raised BrokenPipeError r' =>
        set_handler HReturned (final_state (sock_close r'))
    | Raised e r' => set_handler (HRaised e) r'
    | Blocked r' => set_handler HBlocked r'
    end
  else
    match relay_finish error r with
    | Done _ r' => set_handler HReturned r'
    | Raised e r' => set_handler (HRaised e) r'
    | Blocked r' => set_handler HBlocked r'
    end.

(** The handler takes at most [k] values off its queue; it waits in
    [send_queue.get()] when the queue is empty. *)
Fixpoint relay (k : nat) (store : list dict) (r : Request) : Request :=
  match k, handler r, send_queue r with
  | S k', HRelay error, to_send :: rest =>
      relay k' store
        (relay_step store to_send error (set_send_queue (fun _ => rest) r))
  | _, _, _ => r
  end.

(** The handler relays everything that is on its queue. *)
Definition drain (store : list dict) (r : Request) : Request :=
  relay (length (send_queue r)) store r.

(** ** Vocabulary of the statements *)

(** The frame the handler writes for the message object at [l]. *)
Definition frame_of (store : list dict) (l : loc) : json :=
  JObj (default [] (store !! l)).

Definition frame_type (f : json) : option json :=
  match f with
  | JObj d => dict_get d "type"
  | _ => None
  end.

Definition has_type (t : string) (f : json) : bool :=
  match frame_type f with
  | Some v => is_str v t
  | None => false
  end.

(** A request whose handler waits in the relay loop with no error seen, and
    whose client stays connected and answers every frame with [ack]. *)
Definition relaying (r : Request) : Prop :=
  handler r = HRelay false /\
  sock_wr_budget (sock r) = None /\
  sock_closed (sock r) = false /\
  forall k, sock_reply (sock r) k = Some "ack".

(** The same with the flag [error] of the loop at any value. *)
Definition relaying_with (error : bool) (r : Request) : Prop :=
  handler r = HRelay error /\
  sock_wr_budget (sock r) = None /\
  sock_closed (sock r) = false /\
  forall k, sock_reply (sock r) k = Some "ack".

(** A message object the relay loop forwards without setting its error
    flag. *)
Definition plain_message (d : dict) : Prop :=
  exists t, dict_get d "type" = Some (JStr t) /\ t <> "error".

(** The progress message of chunk [num], once [to_client] has given it the
    type [t]. *)
Definition chunk_msg (place : json) (num : nat) (name : json) (t : string)
    : dict :=
  [("num", JInt (Z.of_nat num)); ("filename", name); ("place", place);
   ("type", JStr t)].

(** A chunk the worker can process: a dict, with a ['filename'] string when
    its ['oql'] is true. *)
Definition chunk_ok (chunk : json) : Prop :=
  exists d, chunk = JObj d /\
    (py_truthy (default JNull (dict_get d "oql")) = true ->
     exists name, dict_get d "filename" = Some (JStr name)).

(** A chunk with nothing left to fetch: well formed, and when its ['oql']
    is true the cache file of its ['filename'] exists. *)
Definition cached (fs : gmap string (list Byte.byte)) (chunk : json) : Prop :=
  exists d, chunk = JObj d /\
    (py_truthy (default JNull (dict_get d "oql")) = true ->
     exists name, dict_get d "filename" = Some (JStr name) /\
       is_Some (fs !! String.append "overpass/" name)).

Definition has_oql (chunk : json) : bool :=
  match py_get chunk "oql" with
  | inr oql => py_truthy oql
  | inl _ => false
  end.

Definition chunk_filename (chunk : json) : json :=
  match py_getitem chunk "filename" with
  | inr name => name
  | inl _ => JNull
  end.

(** The [chunk] frames of a job: one for each chunk whose ['oql'] is true,
    numbered by the position of the chunk in the list. *)
Fixpoint chunk_frames (place : json) (num : nat) (chunks : list json)
    : list json :=
  match chunks with
  | [] => []
  | chunk :: rest =>
      (if has_oql chunk
       then [JObj (chunk_msg place num (chunk_filename chunk) "chunk")]
       else [])
      ++ chunk_frames place (S num) rest
  end.

(** The ['num'] of a progress frame. *)
Definition frame_num (f : json) : option Z :=
  match f with
  | JObj d => match dict_get d "num" with
              | Some (JInt z) => Some z
              | _ => None
              end
  | _ => None
  end.

Definition done_frame : json := JObj [("type", JStr "done")].

(** The handler of request [c] is relaying in [w]: it has written the
    frames [out], and the messages at [pend] wait on its queue. *)
Definition client_view (w : world) (c : nat) (out : list json)
    (pend : list loc) : Prop :=
  exists r,
    requests w !! c = Some r /\
    relaying r /\
    sock_out (sock r) = out /\
    send_queue r = map Some pend /\
    Forall (fun l => exists d, objs w !! l = Some d /\ plain_message d) pend.

(** What the worker records besides messages: the cache, the upstream
    calls, the sleeps, the mails and the suspensions. *)
Definition same_effects (w w' : world) : Prop :=
  files w' = files w /\ queries w' = queries w /\
  status_calls w' = status_calls w /\ sleeps w' = sleeps w /\
  mails w' = mails w /\ yields w' = yields w.

(** What the handler of a request can do once it is in its relay loop:
    between two of its turns the worker may have changed its queue, and at
    each turn it relays some of the messages it finds, as they are in the
    object store at that moment. *)
Inductive relays : Request -> Request -> Prop :=
  | relays_refl (r : Request) : relays r r
  | relays_step (r r' : Request) (q : list (option loc)) (k : nat)
      (store : list dict) :
      relays r r' ->
      relays r (relay k store (set_send_queue (fun _ => q) r')).

(** The client answered each of the first [n] acknowledged frames with the
    literal [ack]. *)
Definition acked_upto (reply : nat -> option string) (n : nat) : Prop :=
  forall i, i < n -> reply i = Some "ack".

(** The acknowledgment discipline on a connection that made a place
    request: while the handler relays, every frame written so far has been
    acknowledged; in any other state every frame but the last has been, and
    the socket is closed only when the last one has been too. *)
Definition ack_discipline (reply : nat -> option string) (r : Request)
    : Prop :=
  sock_reply (sock r) = reply /\
  match handler r with
  | HRelay _ =>
      sock_reads (sock r) = length (sock_out (sock r)) /\
      sock_closed (sock r) = false /\
      acked_upto reply (length (sock_out (sock r)))
  | _ =>
      acked_upto reply (pred (length (sock_out (sock r)))) /\
      (sock_closed (sock r) = true ->
       acked_upto reply (length (sock_out (sock r))))
  end.

(** Everything the client of request [c] receives once its handler has
    relayed what is on its queue. *)
Definition client_frames (w : world) (c : nat) : list json :=
  match requests w !! c with
  | Some r => sock_out (sock (drain (objs w) r))
  | None => []
  end.

Definition connected_frame : json := JObj [("type", JStr "connected")].

(** The result of [overpass.get_status()]: the ['slots'] list of the status,
    or the exception it raised.  The result of [overpass.run_query(oql)]:
    [r.content], or the exception. *)
Abbreviation status_result := (exn + list Z)%type.
Abbreviation query_result := (exn + list Byte.byte)%type.

(** What [with open(filename, 'wb') as out: out.write(content)] comes to.
    [open] can raise (no such directory, the path is a directory, no
    permission) and nothing is changed then; [write] can raise (no space
    left) and the file, which [open] has created or emptied, is left with
    what was written of it. *)
Inductive write_outcome : Type :=
  | Written
  | OpenRaises (e : exn)
  | WriteRaises (e : exn) (partial : list Byte.byte).

(** * matcher/place.py

    The methods of [Place] that compute on the attributes of the instance:
    the names shown for a place and the conversion of a Nominatim hit.  An
    instance is the dict of its attributes (they are read and set by name,
    with [setattr]); a column that was never set reads as [None].  The
    values are what Python holds before any flush: JSON values as Nominatim
    sent them.  The methods compare, search, slice and join strings; on
    the UTF-8 encoding these operations give the encoding of what they
    give on the characters, because the strings they search for and the
    prefixes they cut off are the same in both. *)

(** ** Operations of [str] *)

(** [s.startswith(p)] *)
Fixpoint str_startswith (p s : string) : bool :=
  match p, s with
  | EmptyString, _ => true
  | String _ _, EmptyString => false
  | String a p', String b s' => Ascii.eqb a b && str_startswith p' s'
  end.

(** [s[n:]] and [s[:n]] for [0 <= n]. *)
Fixpoint str_drop (n : nat) (s : string) : string :=
  match n, s with
  | O, _ => s
  | S _, EmptyString => EmptyString
  | S n', String _ s' => str_drop n' s'
  end.

Fixpoint str_take (n : nat) (s : string) : string :=
  match n, s with
  | O, _ => EmptyString
  | S _, EmptyString => EmptyString
  | S n', String a s' => String a (str_take n' s')
  end.

(** The lowest index at which [sub] occurs in [s]. *)
Fixpoint str_index (sub s : string) : option nat :=
  if str_startswith sub s then Some 0
  else match s with
       | EmptyString => None
       | String _ s' => S <$> str_index sub s'
       end.

(** [sub in s] *)
Definition str_contains (sub s : string) : bool :=
  match str_index sub s with Some _ => true | None => false end.

(** [s.find(sub, start)] for [0 <= start]: the lowest index from [start]
    on at which [sub] occurs, or -1. *)
Definition str_find (s sub : string) (start : nat) : Z :=
  if Nat.ltb (String.length s) start then (-1)%Z
  else match str_index sub (str_drop start s) with
       | Some i => Z.of_nat (start + i)
       | None => (-1)%Z
       end.

(** [s[:k]] for any int [k]: a negative [k] counts from the end. *)
Definition str_upto (s : string) (k : Z) : string :=
  if (0 <=? k)%Z then str_take (Z.to_nat k) s
  else str_take (String.length s - Z.to_nat (- k)) s.

(** [s.replace(old, new)] for a non-empty [old]: the occurrences of [old]
    are replaced from left to right, without overlap; [skip] characters of
    an occurrence are still to be passed over. *)
Fixpoint str_replace_from (old new : string) (skip : nat) (s : string)
    : string :=
  match s with
  | EmptyString => EmptyString
  | String a s' =>
      match skip with
      | S k => str_replace_from old new k s'
      | O =>
          if str_startswith old s
          then String.append new
                 (str_replace_from old new (String.length old - 1) s')
          else String a (str_replace_from old new 0 s')
      end
  end.

Definition str_replace (old new s : string) : string :=
  str_replace_from old new 0 s.

(** ** Operators on Python values *)

Global Instance exn_ret : MRet (sum exn) := fun A a => inr a.

Global Instance exn_bind : MBind (sum exn) := fun A B k r => ebind r k.

(** [k in v] for a string [k]: a substring of a string, an element of a
    list, a key of a dict; other values are not containers. *)
Definition py_in (k : string) (v : json) : exn + bool :=
  match v with
  | JStr s => inr (str_contains k s)
  | JArr l => inr (existsb (fun x => is_str x k) l)
  | JObj d => inr (match dict_get d k with Some _ => true | None => false end)
  | _ => inl TypeError
  end.

(** [v + s] for a string [s]: only a string can be added to a string. *)
Definition py_add_str (v : json) (s : string) : exn + string :=
  match v with
  | JStr a => inr (String.append a s)
  | _ => inl TypeError
  end.

(** Numbers compare by value: a bool is the int 0 or 1, and an int equals
    a float when the float is exactly that integer. *)
Definition Z_eq_float (z : Z) (f : spec_float) : bool :=
  match f with
  | S754_zero _ => Z.eqb z 0
  | S754_finite s m e =>
      let v := if s then Z.neg m else Z.pos m in
      if (0 <=? e)%Z then Z.eqb z (v * 2 ^ e) else Z.eqb (z * 2 ^ (- e)) v
  | _ => false
  end.

Definition as_number (v : json) : option (Z + spec_float) :=
  match v with
  | JBool b => Some (inl (if b then 1 else 0)%Z)
  | JInt z => Some (inl z)
  | JFloat f => Some (inr f)
  | _ => None
  end.

Definition number_eq (x y : Z + spec_float) : bool :=
  match x, y with
  | inl a, inl b => Z.eqb a b
  | inl a, inr g => Z_eq_float a g
  | inr f, inl b => Z_eq_float b f
  | inr f, inr g => SFeqb f g
  end.

(** [a == b] on values of two JSON documents.  Lists are equal
    elementwise; dicts when they have the same keys with equal values, in
    any order. *)
Fixpoint py_eq (a b : json) : bool :=
  match a, b with
  | JNull, JNull => true
  | JStr s, JStr t => String.eqb s t
  | JArr l, JArr l' =>
      (fix all2 (l l' : list json) : bool :=
         match l, l' with
         | [], [] => true
         | x :: l1, y :: l1' => py_eq x y && all2 l1 l1'
         | _, _ => false
         end) l l'
  | JObj d, JObj d' =>
      Nat.eqb (length d) (length d') &&
      (fix all (d : list (string * json)) : bool :=
         match d with
         | [] => true
         | (k, v) :: d1 =>
             match dict_get d' k with
             | Some v' => py_eq v v'
             | None => false
             end && all d1
         end) d
  | _, _ =>
      match as_number a, as_number b with
      | Some x, Some y => number_eq x y
      | _, _ => false
      end
  end.

(** [str(z)] for an int. *)
Definition str_of_int (z : Z) : string :=
  DecimalString.NilZero.string_of_int (Z.to_int z).

(** [Place] *)
Module Place.
Section Methods.
(** [str(v)] for a float, a list or a dict. *)
Variable py_repr : json -> string.

(** What ['{}'.format(v)] puts for [v]: [str(v)]. *)
Definition py_str (v : json) : string :=
  match v with
  | JNull => "None"
  | JBool b => if b then "True" else "False"
  | JInt z => str_of_int z
  | JStr s => s
  | _ => py_repr v
  end.

(** [self.k] and [setattr(self, k, v)] *)
Definition attr (self : dict) (k : string) : json :=
  default JNull (dict_get self k).

Definition setattr (self : dict) (k : string) (v : json) : dict :=
  dict_set self k v.

(** [update_from_nominatim(self, hit)]: the instance after the call. *)
Fixpoint update_loop (keys : list string) (self : dict) (hit : json)
    : exn + dict :=
  match keys with
  | [] => inr self
  | n :: keys' =>
      v ← py_get hit n ;
      update_loop keys' (setattr self n v) hit
  end.

Definition update_from_nominatim (self : dict) (hit : json) : exn + dict :=
  update_loop ["display_name"; "category"; "type"; "place_rank"; "icon";
               "extratags"; "address"; "namedetails"] self hit.

(** The loop of [name]: [break] leaves it with the new [name]. *)
Fixpoint name_loop (shorts : list string) (name display : json)
    : exn + json :=
  match shorts with
  | [] => inr name
  | short :: shorts' =>
      let start := String.length short + 2 in
      if is_str name short then
        match display with
        | JStr d =>
            if str_startswith (String.append short ", ") d
               && str_contains ", " (str_drop start d)
            then inr (JStr (str_upto d (str_find d ", " start)))
            else name_loop shorts' name display
        | _ => inl AttributeError
        end
      else name_loop shorts' name display
  end.

(** [name] *)
Definition name (self : dict) : exn + json :=
  if py_truthy (attr self "override_name") then inr (attr self "override_name")
  else
    en ← py_get (attr self "namedetails") "name:en" ;
    name ← (if py_truthy en then inr en
            else py_get (attr self "namedetails") "name") ;
    let display := attr self "display_name" in
    if negb (py_truthy name) then inr display
    else name_loop ["City"; "1st district"] name display.

(** The part that [name_for_changeset] and [name_for_change_comment]
    share: [Some] is the value returned inside the first [if]. *)
Definition us_state_name (address n : json) : exn + option json :=
  if py_truthy address then
    cc ← py_get address "country_code" ;
    if is_str cc "us" then
      state ← py_get address "state" ;
      if py_truthy state && negb (py_eq n state) then
        s ← py_add_str n ", " ;
        r ← py_str_concat s state ;
        inr (Some (JStr r))
      else inr None
    else inr None
  else inr None.

(** [name_for_changeset] *)
Definition name_for_changeset (self : dict) : exn + json :=
  let address := attr self "address" in
  n ← name self ;
  us ← us_state_name address n ;
  match us with
  | Some r => inr r
  | None =>
      country ← py_get address "country" ;
      if py_truthy country && negb (py_eq n country) then
        inr (JStr (String.append (py_str n)
                     (String.append " ("
                        (String.append (py_str country) ")"))))
      else inr n
  end.

(** [name_for_change_comment] *)
Definition name_for_change_comment (self : dict) : exn + json :=
  let address := attr self "address" in
  n ← name self ;
  us ← us_state_name address n ;
  match us with
  | Some r => inr r
  | None =>
      has_of ← py_in " of " n ;
      if (has_of : bool) then
        r ← py_str_concat "the " n ;
        inr (JStr r)
      else inr n
  end.

(** The dict comprehension of [from_nominatim]. *)
Fixpoint pick (keys : list string) (hit : json) (n : dict) : exn + dict :=
  match keys with
  | [] => inr n
  | k :: keys' =>
      present ← py_in k hit ;
      if (present : bool) then
        v ← py_getitem hit k ;
        pick keys' hit (dict_set n k v)
      else pick keys' hit n
  end.

Definition nominatim_keys : list string :=
  ["osm_id"; "osm_type"; "display_name"; "category"; "type"; "place_id";
   "place_rank"; "icon"; "extratags"; "address"; "namedetails"; "lat";
   "lon"].

(** [from_nominatim(cls, hit)]: the keyword arguments with which the
    instance is made are its attributes. *)
Definition from_nominatim (hit : json) : exn + dict :=
  n ← pick nominatim_keys hit [] ;
  osm_type ← py_getitem hit "osm_type" ;
  let n := if is_str osm_type "node" then dict_set n "radius" (JInt 1000)
           else n in
  bbox ← py_getitem hit "boundingbox" ;
  parts ← py_iter bbox ;
  match parts with
  | [south; north; west; east] =>
      let n := dict_set n "south" south in
      let n := dict_set n "north" north in
      let n := dict_set n "west" west in
      let n := dict_set n "east" east in
      geom ← py_getitem hit "geotext" ;
      inr (dict_set n "geom" geom)
  | _ => inl ValueError
  end.

(** [bbox] *)
Definition bbox (self : dict) : list json :=
  [attr self "south"; attr self "north"; attr self "west"; attr self "east"].

(** [prefix] *)
Definition prefix (self : dict) : string :=
  String.append "osm_" (py_str (attr self "place_id")).

(** The loop of [name_extra_detail]. *)
Fixpoint name_extra_detail_loop (ns : list string) (self : dict)
    : exn + json :=
  match ns with
  | [] => inr JNull
  | n :: ns' =>
      present ← py_in n (attr self "namedetails") ;
      if negb (present : bool) then name_extra_detail_loop ns' self
      else
        v ← py_getitem (attr self "namedetails") n ;
        start ← py_add_str v ", " ;
        match attr self "display_name" with
        | JStr display =>
            if str_startswith start display
            then inr (JStr (str_drop (String.length start) display))
            else name_extra_detail_loop ns' self
        | _ => inl AttributeError
        end
  end.

(** [name_extra_detail] *)
Definition name_extra_detail (self : dict) : exn + json :=
  name_extra_detail_loop ["name:en"; "name"] self.

(** [export_name] *)
Definition export_name (self : dict) : exn + string :=
  n ← name self ;
  match n with
  | JStr s => inr (str_replace " " "_" (str_replace ":" "" s))
  | _ => inl AttributeError
  end.
End Methods.
End Place.

(** ** Sample inputs *)

Definition always_ack : nat -> option string := fun _ => Some "ack".

(** A client that acknowledges the first [n] frames and then stays silent. *)
Definition ack_first (n : nat) : nat -> option string :=
  fun k => if Nat.ltb k n then Some "ack" else None.

Definition sample_request (msg : json) (reply : nat -> option string)
    : Request :=
  MkRequest ("127.0.0.1", 4242)
    (Socket (Some msg) JSONDecodeError reply 0 [] None false) [] HNew.

(** The doubles 2.0 and 10.0. *)
Definition float_2 : spec_float := S754_finite false 4503599627370496 (-51).
Definition float_10 : spec_float := S754_finite false 5629499534213120 (-49).

Definition sample_chunk (oql filename : string) : json :=
  JObj [("oql", JStr oql); ("filename", JStr filename)].

Definition sample_chunk_no_oql (filename : string) : json :=
  JObj [("oql", JNull); ("filename", JStr filename)].

Definition place_request (place : json) (chunks : list json) : json :=
  JObj [("place", place); ("chunks", JArr chunks)].

Definition place_of_area (area : json) : json :=
  JObj [("name", JStr "Zug"); ("area", area)].

Definition sample_world (reqs : gmap nat Request)
    (fs : gmap string (list Byte.byte)) : world :=
  World [] reqs [] fs [] [] 0 [] [] 0 0.

Definition three_chunks : list json :=
  [sample_chunk "q0" "f0"; sample_chunk_no_oql "f1"; sample_chunk "q2" "f2"].

(** One connection, number 0, whose client asks for a place of area 2.0. *)
Definition world_one_request (chunks : list json)
    (reply : nat -> option string) (fs : gmap string (list Byte.byte))
    : world :=
  sample_world
    {[ 0 := sample_request
              (place_request (place_of_area (JFloat float_2)) chunks) reply ]}
    fs.

(** Two connections: 0 asks for a place of area 2.0 with the chunk
    [q0]/[f0], 1 for a place of area 10.0 with the chunk [q1]/[f1]. *)
Definition world_two_requests (fs : gmap string (list Byte.byte)) : world :=
  sample_world
    {[ 0 := sample_request
              (place_request (place_of_area (JFloat float_2))
                 [sample_chunk "q0" "f0"]) always_ack;
       1 := sample_request
              (place_request (place_of_area (JFloat float_10))
                 [sample_chunk "q1" "f1"]) always_ack ]}
    fs.

(** Three connections: 0 asks for a place of area 1, 1 and 2 each for a
    place of area 2.0. *)
Definition world_three_requests : world :=
  sample_world
    {[ 0 := sample_request
              (place_request (place_of_area (JInt 1))
                 [sample_chunk "q0" "f0"]) always_ack;
       1 := sample_request
              (place_request (place_of_area (JFloat float_2))
                 [sample_chunk "q1" "f1"]) always_ack;
       2 := sample_request
              (place_request (place_of_area (JFloat float_2))
                 [sample_chunk "q2" "f2"]) always_ack ]}
    ∅.

(** No connection, no cache file. *)
Definition idle_world : world := sample_world ∅ ∅.

Definition no_float : string -> option spec_float := fun _ => None.
Definition status_free : nat -> status_result := fun _ => inr [].
Definition status_wait_5 : nat -> status_result := fun _ => inr [5%Z].
Definition status_down : nat -> status_result :=
  fun _ => inl (OverpassError "http://overpass/api/status" "502 Bad Gateway").
Definition query_ok : nat -> json -> query_result := fun _ _ => inr [].
Definition query_fails : nat -> json -> query_result :=
  fun _ _ => inl (OtherError "ConnectionError").
Definition prompt_sched : nat -> nat -> nat := fun _ _ => 8.
Definition lazy_sched : nat -> nat -> nat := fun _ _ => 0.
(** The handlers run while the worker sleeps, and at no other time. *)
Definition sleep_sched : nat -> nat -> nat :=
  fun i _ => if Nat.eqb i 1 then 8 else 0.
Definition disk_writes : nat -> string -> list Byte.byte -> write_outcome :=
  fun _ _ _ => Written.
(** A cache directory without the subdirectory [sub]. *)
Definition no_subdir : nat -> string -> list Byte.byte -> write_outcome :=
  fun _ filename _ =>
    if String.prefix "overpass/sub/" filename
    then OpenRaises (OtherError "FileNotFoundError")
    else Written.

Definition newline : string := String (Ascii.ascii_of_nat 10) EmptyString.

(** A connection whose handler is in its relay loop, [connected] written
    and acknowledged, with the values [q] on its queue. *)
Definition relaying_request (q : list (option loc))
    (reply : nat -> option string) (budget : option nat) : Request :=
  MkRequest ("127.0.0.1", 4242)
    (Socket (Some (place_request (place_of_area (JFloat float_2)) []))
       JSONDecodeError reply 1 [connected_frame] budget false)
    q (HRelay false).

Definition error_message : dict :=
  [("type", JStr "error"); ("error", JStr "Can't access overpass API")].

(** What Nominatim sends for a relation. *)
Definition sample_hit : json :=
  JObj [("place_id", JInt 4071); ("licence", JStr "ODbL");
        ("osm_type", JStr "relation"); ("osm_id", JInt 1682248);
        ("boundingbox",
         JArr [JStr "47.08"; JStr "47.19"; JStr "8.43"; JStr "8.55"]);
        ("display_name", JStr "City, Zug, Switzerland");
        ("category", JStr "boundary"); ("type", JStr "administrative");
        ("place_rank", JInt 16);
        ("address",
         JObj [("country", JStr "Switzerland"); ("country_code", JStr "ch")]);
        ("namedetails", JObj [("name", JStr "City")]);
        ("geotext", JStr "POLYGON((8.43 47.08,8.55 47.19,8.43 47.19))")].

(** Places as the instance holds them. *)
Definition sample_place (name display : string) (address : json) : dict :=
  [("place_id", JInt 4071); ("display_name", JStr display);
   ("namedetails", JObj [("name", JStr name)]); ("address", address)].

Definition us_address (state : string) : json :=
  JObj [("state", JStr state); ("country", JStr "United States of America");
        ("country_code", JStr "us")].

(** [str] of a float, a list or a dict is not used by the samples. *)
Definition no_repr : json -> string := fun _ => "?".

Section Service.
(** [float] on a string: the parsed number, [None] for [ValueError]. *)
Variable float_of_str : string -> option spec_float.
(** The upstream: outcome of the [n]-th call of [overpass.get_status] and
    of the [n]-th call of [overpass.run_query]. *)
Variable get_status : nat -> status_result.
Variable run_query : nat -> json -> query_result.
(** The greenlet scheduler: [sched i c] is the number of queued messages
    the handler of request [c] relays while the worker is suspended for
    the [i]-th time. *)
Variable sched : nat -> nat -> nat.
(** The file system: what becomes of writing the response of the [n]-th
    query to a file. *)
Variable open_write : nat -> string -> list Byte.byte -> write_outcome.

(** [float(v)] *)
Definition py_float (v : json) : exn + spec_float :=
  match v with
  | JFloat f => inr f
  | JInt z =>
      match float_of_int z with
      | Some f => inr f
      | None => inl OverflowError
      end
  | JBool b => inr (if b then float_one else float_zero)
  | JStr s =>
      match float_of_str s with
      | Some f => inr f
      | None => inl ValueError
      end
  | _ => inl TypeError
  end.

(** Runs a computation of the handler on the request [self]. *)
Definition store_request {A} (self : nat) (w : world)
    (o : outcome Request A) : outcome world A :=
  match o with
  | Done a r' => Done a (set_requests <[self := r']> w)
  | Raised e r' => Raised e (set_requests <[self := r']> w)
  | Blocked r' => Blocked (set_requests <[self := r']> w)
  end.

Definition on_request {A} (self : nat) (m : M Request A) : M world A :=
  fun w =>
    match requests w !! self with
    | None => Raised (OtherError "no such request") w
    | Some r => store_request self w (m r)
    end.

(** Runs a computation of [heapq] on the list of [task_queue]. *)
Definition on_task_queue {A} (m : M (list entry) A) : M world A :=
  fun w =>
    match m (task_queue w) with
    | Done a q => Done a (set_task_queue q w)
    | Raised e q => Raised e (set_task_queue q w)
    | Blocked q => Blocked (set_task_queue q w)
    end.

(** [task_queue.put(x)]: the queue is unbounded, so [put] never waits. *)
Definition task_queue_put (x : entry) : M world unit :=
  on_task_queue (heapq.heappush entry_lt x).

(** [task_queue.get()]: waits while the queue is empty. *)
Definition task_queue_get : M world entry := fun w =>
  match task_queue w with
  | [] => Blocked w
  | _ => on_task_queue (heapq.heappop entry_lt) w
  end.

(** [task_queue.put(x)] for each [x] of [xs], in that order. *)
Fixpoint put_all (xs : list entry) : M world unit :=
  match xs with
  | [] => mret tt
  | x :: xs' => task_queue_put x ;; put_all xs'
  end.

(** [task_queue.get()] called [n] times: the entries in the order in which
    they are returned. *)
Fixpoint get_n (n : nat) : M world (list entry) :=
  match n with
  | O => mret []
  | S n' => x ← task_queue_get ; xs ← get_n n' ; mret (x :: xs)
  end.

(** [Request.new_place_request(msg)] *)
Definition new_place_request (self : nat) (msg : json) : M world unit :=
  on_request self (modify (set_send_queue (fun _ => []))) ;;
  area ← (fun w =>
    match ebind (ebind (py_getitem msg "place")
                   (fun p => py_getitem p "area")) py_float with
    | inr a => Done a w
    | inl ValueError => Done float_zero w
    | inl e => Raised e w
    end) ;
  place ← lift (py_getitem msg "place") ;
  addr ← on_request self (gets address) ;
  chunks ← lift (py_getitem msg "chunks") ;
  task_queue_put (area, Item place addr chunks self) ;;
  on_request self (send_msg (JObj [("type", JStr "connected")]) true).

(** [Request.handle()] up to the first [self.send_queue.get()]. *)
Definition handle_entry (self : nat) : M world bool :=
  req ← on_request self (gets (fun r => sock_request (sock r))) ;
  match req with
  | None =>
      e ← on_request self (gets (fun r => sock_request_error (sock r))) ;
      match e with
      | JSONDecodeError =>
          on_request self (reply_and_close
            (JObj [("type", JStr "error"); ("error", JStr "invalid JSON")])) ;;
          mret false
      | _ => raise e
      end
  | Some msg =>
      ty ← lift (py_get msg "type") ;
      if is_str ty "ping" then
        on_request self (reply_and_close (JObj [("type", JStr "pong")])) ;;
        mret false
      else
        new_place_request self msg ;;
        mret true
  end.

(** A new connection: the handler runs until it returns, dies, or waits
    for its queue or for the client. *)
Definition handle (self : nat) (w : world) : world :=
  match handle_entry self w with
  | Done true w' => set_requests (alter (set_handler (HRelay false)) self) w'
  | Done false w' => set_requests (alter (set_handler HReturned) self) w'
  | Raised e w' => set_requests (alter (set_handler (HRaised e)) self) w'
  | Blocked w' => set_requests (alter (set_handler HBlocked) self) w'
  end.

(** ** The worker *)

(** The worker is suspended (network, sleep): the handlers run. *)
Definition suspend (w : world) : world :=
  count_yield (set_requests
    (map_imap (fun c r => Some (relay (sched (yields w) c) (objs w) r)))
    w).

Definition yield : M world unit := modify suspend.

(** [send_queue.put(x)] on the queue of request [c]. *)
Definition queue_put (c : nat) (x : option loc) : M world unit :=
  modify (fun w =>
    add_put c x
      (set_requests (alter (set_send_queue (fun q => q ++ [x])) c) w)).

(** A dict display: a new object. *)
Definition new_dict (d : dict) : M world loc := fun w =>
  Done (length (objs w)) (set_objs (fun o => o ++ [d]) w).

Definition overpass_get_status : M world status_result :=
  r ← gets (fun w => get_status (status_calls w)) ;
  modify count_status ;;
  yield ;;
  mret r.

Definition overpass_run_query (oql : json) : M world query_result :=
  r ← gets (fun w => run_query (length (queries w)) oql) ;
  modify (add_query oql) ;;
  yield ;;
  mret r.

Definition mail_send_mail (subject body : string) : M world unit :=
  modify (add_mail subject body) ;; yield.

Definition sleep (secs : Z) : M world unit :=
  modify (add_sleep secs) ;; yield.

Definition check_free_space : M world unit := modify count_space_check.

(** [os.path.exists(filename)] *)
Definition os_path_exists (filename : string) : M world bool :=
  gets (fun w => bool_decide (is_Some (files w !! filename))).

(** [with open(filename, 'wb') as out: out.write(content)], for the
    response of the query that has just been run. *)
Definition write_file (filename : string) (content : list Byte.byte)
    : M world unit := fun w =>
  match open_write (length (queries w)) filename content with
  | Written => Done tt (set_files <[filename := content]> w)
  | OpenRaises e => Raised e w
  | WriteRaises e partial => Raised e (set_files <[filename := partial]> w)
  end.

(** [to_client(send_queue, msg_type, msg)] *)
Definition to_client (send_queue : nat) (msg_type : string) (msg : loc)
    : M world unit :=
  modify (set_objs (alter (fun d => dict_set d "type" (JStr msg_type)) msg)) ;;
  queue_put send_queue (Some msg).

Definition cant_access : dict :=
  [("type", JStr "error"); ("error", JStr "Can't access overpass API")].

(** [wait_for_slot(send_queue)] *)
Definition wait_for_slot (send_queue : nat) : M world bool :=
  status ← overpass_get_status ;
  match status with
  | inl (OverpassError url text) =>
      mail_send_mail "Overpass API unavailable"
        (String.append "URL: " (String.append url
           (String.append newline (String.append newline
              (String.append "response:" (String.append newline text)))))) ;;
      m ← new_dict cant_access ;
      queue_put send_queue (Some m) ;;
      mret false
  | inl Timeout =>
      mail_send_mail "Overpass API timeout" "Timeout talking to overpass API" ;;
      m ← new_dict cant_access ;
      queue_put send_queue (Some m) ;;
      mret false
  | inl e => raise e
  | inr [] => mret true
  | inr (secs :: _) =>
      if (secs <=? 0)%Z then mret true
      else
        m ← new_dict [("type", JStr "status"); ("wait", JInt secs)] ;
        queue_put send_queue (Some m) ;;
        sleep secs ;;
        mret true
  end.

(** The body of the [for] loop of [process_queue]; [false] stands for the
    [return] that leaves [process_queue]. *)
Definition process_chunk (place : json) (send_queue : nat) (num : nat)
    (chunk : json) : M world bool :=
  oql ← lift (py_get chunk "oql") ;
  if negb (py_truthy oql) then mret true
  else
    name ← lift (py_getitem chunk "filename") ;
    filename ← lift (py_str_concat "overpass/" name) ;
    msg ← new_dict [("num", JInt (Z.of_nat num)); ("filename", name);
                    ("place", place)] ;
    cached ← os_path_exists filename ;
    go_on ← (if (cached : bool) then (mret true : M world bool)
             else
               check_free_space ;;
               slot ← wait_for_slot send_queue ;
               if negb slot then mret false
               else
                 to_client send_queue "run_query" msg ;;
                 r ← overpass_run_query oql ;
                 content ← lift r ;
                 write_file filename content ;;
                 check_free_space ;;
                 mret true) ;
    if (go_on : bool) then to_client send_queue "chunk" msg ;; mret true
    else (mret false : M world bool).

(** [for num, chunk in enumerate(chunks)] *)
Fixpoint process_chunks (place : json) (send_queue : nat) (num : nat)
    (chunks : list json) : M world bool :=
  match chunks with
  | [] => mret true
  | chunk :: rest =>
      go_on ← process_chunk place send_queue num chunk ;
      if (go_on : bool) then process_chunks place send_queue (S num) rest
      else mret false
  end.

(** [process_queue()] *)
Definition process_queue : M world unit :=
  job ← task_queue_get ;
  let item := snd job in
  chunks ← lift (py_iter (item_chunks item)) ;
  completed ← process_chunks (item_place item) (item_queue item) 0 chunks ;
  if (completed : bool) then queue_put (item_queue item) None else mret tt.

(** [process_queue_loop()]: [while True: process_queue()], unfolded
    [fuel] times.  [None] when the loop is still running after that. *)
Fixpoint process_queue_loop (fuel : nat) (w : world)
    : option (outcome world unit) :=
  match fuel with
  | O => None
  | S fuel' =>
      match process_queue w with
      | Done _ w' => process_queue_loop fuel' w'
      | stopped => Some stopped
      end
  end.

(** The upstream never fails. *)
Definition upstream_ok : Prop :=
  (forall n, exists slots, get_status n = inr slots) /\
  (forall n oql, exists content, run_query n oql = inr content).

(** The response of a query for the chunk is written to its file,
    whenever it comes and whatever it is. *)
Definition writable (chunk : json) : Prop :=
  forall n name content,
    py_getitem chunk "filename" = inr (JStr name) ->
    open_write n (String.append "overpass/" name) content = Written.

(** ** Properties of the worker *)

(** ** The relay loop *)

Lemma relaying_step (store : list dict) (r : Request) (l : loc)
    (d : dict) (rest : list (option loc)) :
  relaying r ->
  send_queue r = Some l :: rest ->
  store !! l = Some d ->
  plain_message d ->
  exists r',
    relay_step store (Some l) false (set_send_queue (fun _ => rest) r) = r' /\
    relaying r' /\
    send_queue r' = rest /\
    sock_out (sock r') = sock_out (sock r) ++ [JObj d] /\
    address r' = address r.
Proof.
  intros (Hh & Hb & Hc & Hack) Hq Hl (t & Ht & Hne).
  eexists; split; [reflexivity|].
  unfold relay_step. cbn.
  rewrite Hl. cbn.
  assert (Hd : list_is_empty d = false) by (destruct d; [discriminate|done]).
  rewrite Hd. cbn.
  unfold relay_body, send_msg, netstring_write, netstring_read,
    mbind, M_bind, mret, M_ret. cbn.
  rewrite Hb. cbn. rewrite Hack. cbn. rewrite Ht. cbn.
  assert (He : String.eqb t "error" = false)
    by (apply String.eqb_neq; exact Hne).
  rewrite He. unfold relaying. cbn.
  repeat split; done.
Qed.

Lemma relay_prefix (store : list dict) (pend : list loc) :
  forall (k : nat) (rest : list (option loc)) (r : Request),
    relaying r ->
    send_queue r = map Some pend ++ rest ->
    Forall (fun l => exists d, store !! l = Some d /\ plain_message d) pend ->
    exists r',
      relay (length pend + k) store r = relay k store r' /\
      relaying r' /\
      send_queue r' = rest /\
      sock_out (sock r') = sock_out (sock r) ++ map (frame_of store) pend /\
      address r' = address r.
Proof.
  induction pend as [|l pend IH]; intros k rest r Hr Hq Hall.
  - exists r. cbn. rewrite app_nil_r. done.
  - apply Forall_cons in Hall as [(d & Hl & Hd) Hall].
    destruct (relaying_step store r l d (map Some pend ++ rest) Hr Hq Hl Hd)
      as (r' & Hstep & Hr' & Hq' & Hout & Haddr).
    destruct (IH k rest r' Hr' Hq' Hall) as (r'' & H1 & H2 & H3 & H4 & H5).
    exists r''. cbn [length plus relay]. destruct Hr as (Hh & Hr).
    rewrite Hh, Hq. cbn [map app]. rewrite Hstep.
    split; [exact H1|]. split; [exact H2|]. split; [exact H3|].
    split; [|congruence].
    rewrite H4, Hout. cbn [map]. unfold frame_of at 2. rewrite Hl. cbn.
    by rewrite <- app_assoc.
Qed.

Lemma relay_empty (k : nat) (store : list dict) (r : Request) :
  send_queue r = [] -> relay k store r = r.
Proof. intros Hq. destruct k; cbn; [done|]. rewrite Hq. by destruct (handler r). Qed.

Lemma relay_all (store : list dict) (pend : list loc) :
  forall (k : nat) (r : Request),
    relaying r ->
    send_queue r = map Some pend ->
    Forall (fun l => exists d, store !! l = Some d /\ plain_message d) pend ->
    length pend <= k ->
    relaying (relay k store r) /\
    send_queue (relay k store r) = [] /\
    sock_out (sock (relay k store r)) =
      sock_out (sock r) ++ map (frame_of store) pend /\
    address (relay k store r) = address r.
Proof.
  intros k r Hr Hq Hall Hk.
  destruct (relay_prefix store pend (k - length pend) [] r Hr
              ltac:(by rewrite app_nil_r) Hall)
    as (r' & H1 & H2 & H3 & H4 & H5).
  replace (length pend + (k - length pend)) with k in H1 by lia.
  rewrite H1, (relay_empty _ _ _ H3). done.
Qed.

(** The handler that finds the sentinel behind the pending messages sends
    them, then [done], waits for its acknowledgment and closes. *)
Lemma drain_sentinel (store : list dict) (pend : list loc) (r : Request) :
  relaying r ->
  send_queue r = map Some pend ++ [None] ->
  Forall (fun l => exists d, store !! l = Some d /\ plain_message d) pend ->
  handler (drain store r) = HReturned /\
  sock_closed (sock (drain store r)) = true /\
  send_queue (drain store r) = [] /\
  sock_out (sock (drain store r)) =
    sock_out (sock r) ++ map (frame_of store) pend ++
    [JObj [("type", JStr "done")]].
Proof.
  intros Hr Hq Hall. unfold drain.
  rewrite Hq, length_app, length_map. cbn [length].
  destruct (relay_prefix store pend 1 [None] r Hr Hq Hall)
    as (r' & H1 & (Hh & Hb & Hc & Hack) & H3 & H4 & H5).
  rewrite H1. cbn [relay]. rewrite Hh, H3.
  unfold relay_step, relay_finish, send_msg, netstring_write,
    netstring_read, sock_close, mbind, M_bind, mret, M_ret, modify. cbn.
  rewrite Hb. cbn. rewrite Hack. cbn.
  rewrite H4, <- app_assoc. done.
Qed.

(** ** How the steps of the worker change the view of a client *)

Lemma client_view_ext (w w' : world) (c : nat) (out : list json)
    (pend : list loc) :
  requests w' = requests w ->
  objs w' = objs w ->
  client_view w c out pend ->
  client_view w' c out pend.
Proof. unfold client_view. intros -> ->. done. Qed.

Lemma client_view_new_dict (w : world) (c : nat) (out : list json)
    (pend : list loc) (d : dict) :
  client_view w c out pend ->
  client_view (set_objs (fun o => o ++ [d]) w) c out pend /\
  map (frame_of (objs w ++ [d])) pend = map (frame_of (objs w)) pend /\
  Forall (fun l => l < length (objs w)) pend.
Proof.
  intros (r & Hr & Hrel & Hout & Hq & Hall).
  assert (Hlt : Forall (fun l => l < length (objs w)) pend).
  { eapply Forall_impl; [exact Hall|]. cbn.
    intros l (d' & Hl & _). by eapply lookup_lt_Some. }
  split; [|split; [|exact Hlt]].
  - exists r. repeat split; try done; try apply Hrel.
    eapply Forall_impl; [exact Hall|]. cbn.
    intros l (d' & Hl & Hd). exists d'. split; [|done].
    by apply lookup_app_l_Some.
  - apply map_ext_Forall. eapply Forall_impl; [exact Hlt|]. cbn.
    intros l Hl. unfold frame_of. by rewrite lookup_app_l.
Qed.

Lemma client_view_alter (w : world) (c : nat) (out : list json)
    (pend : list loc) (f : dict -> dict) (l : loc) :
  client_view w c out pend ->
  l ∉ pend ->
  client_view (set_objs (alter f l) w) c out pend /\
  map (frame_of (alter f l (objs w))) pend = map (frame_of (objs w)) pend.
Proof.
  intros (r & Hr & Hrel & Hout & Hq & Hall) Hnotin.
  assert (Hne : Forall (fun l' => l <> l') pend).
  { apply Forall_forall. intros l' Hin ->. done. }
  split.
  - exists r. repeat split; try done; try apply Hrel.
    apply Forall_forall. intros l' Hin.
    rewrite Forall_forall in Hall, Hne.
    destruct (Hall l' Hin) as (d' & Hl & Hd). exists d'. split; [|done].
    cbn. rewrite list_lookup_alter_ne; [done|]. by apply Hne.
  - apply map_ext_Forall. eapply Forall_impl; [exact Hne|]. cbn.
    intros l' Hl. unfold frame_of. by rewrite list_lookup_alter_ne.
Qed.

Lemma client_view_put (w : world) (c : nat) (out : list json)
    (pend : list loc) (l : loc) (d : dict) :
  client_view w c out pend ->
  objs w !! l = Some d ->
  plain_message d ->
  client_view
    (add_put c (Some l)
       (set_requests (alter (set_send_queue (fun q => q ++ [Some l])) c) w))
    c out (pend ++ [l]).
Proof.
  intros (r & Hr & Hrel & Hout & Hq & Hall) Hl Hd.
  exists (set_send_queue (fun q => q ++ [Some l]) r). cbn.
  rewrite lookup_alter_eq, Hr. cbn. rewrite Hq, map_app. cbn.
  repeat split; try done; try apply Hrel.
  apply Forall_app. split; [done|]. apply Forall_singleton. eauto.
Qed.

Lemma client_view_suspend (w : world) (c : nat) (out : list json)
    (pend : list loc) :
  client_view w c out pend ->
  length pend <= sched (yields w) c ->
  client_view (suspend w) c (out ++ map (frame_of (objs w)) pend) [].
Proof.
  intros (r & Hr & Hrel & Hout & Hq & Hall) Hk.
  destruct (relay_all (objs w) pend (sched (yields w) c) r Hrel Hq Hall Hk)
    as (H1 & H2 & H3 & H4).
  exists (relay (sched (yields w) c) (objs w) r). cbn.
  rewrite map_lookup_imap, Hr. cbn.
  rewrite H3, Hout. repeat split; try done; apply H1.
Qed.

Arguments suspend : simpl never.

Lemma dict_get_set (d : dict) (k : string) (v : json) :
  dict_get (dict_set d k v) k = Some v.
Proof.
  induction d as [|[k' v'] d IH]; cbn.
  - by rewrite String.eqb_refl.
  - destruct (String.eqb k' k) eqn:E; cbn; rewrite E; done.
Qed.

Lemma client_view_to_client (w : world) (c : nat) (out : list json)
    (pend : list loc) (l : loc) (d : dict) (t : string) :
  client_view w c out pend ->
  objs w !! l = Some d ->
  l ∉ pend ->
  t <> "error" ->
  let w' :=
    add_put c (Some l)
      (set_requests (alter (set_send_queue (fun q => q ++ [Some l])) c)
         (set_objs (alter (fun d0 => dict_set d0 "type" (JStr t)) l) w)) in
  client_view w' c out (pend ++ [l]) /\
  map (frame_of (objs w')) (pend ++ [l]) =
    map (frame_of (objs w)) pend ++ [JObj (dict_set d "type" (JStr t))].
Proof.
  intros Hv Hl Hnotin Ht w'.
  destruct (client_view_alter w c out pend
              (fun d0 => dict_set d0 "type" (JStr t)) l Hv Hnotin)
    as (Hv1 & Hfr).
  assert (Hl' : alter (fun d0 => dict_set d0 "type" (JStr t)) l (objs w) !! l
                = Some (dict_set d "type" (JStr t))).
  { by rewrite list_lookup_alter_eq, Hl. }
  split.
  - apply (client_view_put _ c out pend l _ Hv1 Hl').
    exists t. split; [apply dict_get_set|done].
  - subst w'. cbn. rewrite map_app, Hfr. cbn. unfold frame_of at 2.
    by rewrite Hl'.
Qed.

Lemma wait_for_slot_view (c : nat) (w : world) (out : list json)
    (pend : list loc) (slots : list Z) :
  client_view w c out pend ->
  get_status (status_calls w) = inr slots ->
  (forall i, length pend <= sched i c) ->
  (forall i, 1 <= sched i c) ->
  exists w' G extra,
    wait_for_slot c w = Done true w' /\
    client_view w' c ((out ++ map (frame_of (objs w)) pend) ++ G) [] /\
    Forall (fun f => has_type "status" f = true) G /\
    objs w' = objs w ++ extra.
Proof.
  intros Hv Hst Hs1 Hs2.
  cbv [wait_for_slot overpass_get_status sleep yield mbind M_bind mret M_ret
       gets modify new_dict queue_put].
  rewrite Hst.
  pose proof (client_view_suspend (count_status w) c out pend
                (client_view_ext w _ c out pend eq_refl eq_refl Hv)
                (Hs1 _)) as Hv1.
  destruct slots as [|secs rest];
    [|destruct (Z.leb_spec secs 0) as [Hle|Hgt]].
  - exists (suspend (count_status w)), [], [].
    rewrite !app_nil_r. repeat split; try done.
  - exists (suspend (count_status w)), [], [].
    rewrite !app_nil_r. repeat split; try done.
  - set (w1 := suspend (count_status w)) in *.
    set (st := [("type", JStr "status"); ("wait", JInt secs)]).
    destruct (client_view_new_dict w1 c _ [] st Hv1) as (Hv2 & _ & _).
    assert (Hl : objs (set_objs (fun o => o ++ [st]) w1) !! length (objs w1)
                 = Some st).
    { cbn. by rewrite lookup_app_r, Nat.sub_diag by lia. }
    pose proof (client_view_put _ c _ [] _ st Hv2 Hl
                  ltac:(by exists "status")) as Hv3.
    eexists _, [JObj st], [st].
    split; [reflexivity|].
    split; [|split; [by repeat constructor|done]].
    match goal with |- client_view (suspend ?w3) _ _ _ =>
      pose proof (client_view_suspend w3 c _ _
        (client_view_ext _ w3 c _ _ eq_refl eq_refl Hv3) (Hs2 _)) as Hv4
    end.
    cbn [app map] in Hv4. unfold frame_of in Hv4 at 2.
    cbn [objs add_sleep add_put set_requests] in Hv4.
    rewrite Hl in Hv4. exact Hv4.
Qed.

Lemma process_chunk_view (place : json) (c num : nat) (chunk : json)
    (w : world) (out : list json) (pend : list loc) (B : nat) :
  client_view w c out pend ->
  chunk_ok chunk ->
  upstream_ok ->
  writable chunk ->
  (forall i, B <= sched i c) ->
  length pend <= B -> 1 <= B ->
  exists w' out' pend' G,
    process_chunk place c num chunk w = Done true w' /\
    client_view w' c out' pend' /\
    length pend' <= S (length pend) /\
    out' ++ map (frame_of (objs w')) pend' =
      (out ++ map (frame_of (objs w)) pend) ++ G ++
      (if has_oql chunk
       then [JObj (chunk_msg place num (chunk_filename chunk) "chunk")]
       else []) /\
    Forall (fun f => has_type "status" f = true \/
                     has_type "run_query" f = true) G.
Proof.
  intros Hv (d & -> & Hname) (Hst & Hrq) Hdisk Hsched Hpend HB.
  unfold has_oql, chunk_filename. cbn [py_get py_getitem].
  cbv [process_chunk py_get mbind M_bind mret M_ret lift gets modify raise
       new_dict os_path_exists check_free_space to_client queue_put
       write_file overpass_run_query yield py_getitem py_str_concat].
  destruct (py_truthy (default JNull (dict_get d "oql"))) eqn:Hoql; cbn [negb].
  2:{ exists w, out, pend, []. cbn. rewrite !app_nil_r.
      repeat split; try done. lia. }
  destruct (Hname eq_refl) as (name & Hn).
  rewrite Hn.
  set (msg := [("num", JInt (Z.of_nat num)); ("filename", JStr name);
               ("place", place)]).
  destruct (client_view_new_dict w c out pend msg Hv) as (Hv1 & Hfr1 & Hlt).
  assert (Hl : objs (set_objs (fun o => o ++ [msg]) w) !! length (objs w)
               = Some msg).
  { cbn. by rewrite lookup_app_r, Nat.sub_diag by lia. }
  cbn [files set_objs].
  destruct (files w !! String.append "overpass/" name) as [old|] eqn:Hfile.
  - rewrite bool_decide_eq_true_2 by eauto.
    assert (Hnotin : length (objs w) ∉ pend).
    { intros Hin. rewrite Forall_forall in Hlt. specialize (Hlt _ Hin). lia. }
    destruct (client_view_to_client _ c out pend _ msg "chunk" Hv1 Hl Hnotin
                ltac:(done)) as (Hv2 & Hfr2).
    eexists _, out, (pend ++ [length (objs w)]), [].
    split; [reflexivity|]. split; [exact Hv2|].
    split; [rewrite length_app; cbn; lia|]. split; [|constructor].
    rewrite Hfr2. cbn [objs set_objs]. rewrite Hfr1.
    rewrite app_assoc. reflexivity.
  - rewrite bool_decide_eq_false_2 by (intros [? ?]; done).
    destruct (Hst (status_calls w)) as (slots & Hslots).
    destruct (wait_for_slot_view c
                (count_space_check (set_objs (fun o => o ++ [msg]) w))
                out pend slots
                (client_view_ext _ _ c out pend eq_refl eq_refl Hv1)
                Hslots ltac:(intros; etrans; [exact Hpend|apply Hsched])
                ltac:(intros; etrans; [exact HB|apply Hsched]))
      as (w2 & G & extra & Hw & Hv2 & HG & Hobjs).
    rewrite Hw. cbn [negb].
    cbn [objs count_space_check set_objs] in Hv2, Hobjs.
    rewrite Hfr1 in Hv2.
    assert (Hl2 : objs w2 !! length (objs w) = Some msg).
    { rewrite Hobjs, <- app_assoc. by rewrite lookup_app_r, Nat.sub_diag by lia. }
    destruct (client_view_to_client _ c _ [] _ msg "run_query" Hv2 Hl2
                ltac:(apply not_elem_of_nil) ltac:(done)) as (Hv3 & Hfr3).
    match type of Hv3 with client_view ?w3 _ _ _ =>
      destruct (Hrq (length (queries w3)) (default JNull (dict_get d "oql")))
        as (content & Hq);
      pose proof (client_view_suspend
        (add_query (default JNull (dict_get d "oql")) w3) c _ _
        (client_view_ext w3 _ c _ _ eq_refl eq_refl Hv3)
        ltac:(cbn [length]; etrans; [exact HB|apply Hsched])) as Hv4
    end.
    cbn [queries add_put set_requests set_objs] in Hq.
    cbn [queries add_put set_requests set_objs]. rewrite Hq.
    cbv beta iota.
    rewrite (Hdisk _ name) by (cbn [py_getitem]; by rewrite Hn).
    cbn [objs add_query add_put set_requests set_objs app map] in Hv4, Hfr3.
    rewrite Hfr3 in Hv4.
    set (w4 := suspend _) in *.
    assert (Hl4 : objs w4 !! length (objs w)
                  = Some (dict_set msg "type" (JStr "run_query"))).
    { subst w4. unfold suspend. cbn. by rewrite list_lookup_alter_eq, Hl2. }
    set (w5 := count_space_check
                 (set_files (insert (String.append "overpass/" name) content)
                    w4)).
    destruct (client_view_to_client w5 c _ [] _ _ "chunk"
                (client_view_ext w4 w5 c _ _ eq_refl eq_refl Hv4) Hl4
                ltac:(apply not_elem_of_nil) ltac:(done)) as (Hv5 & Hfr5).
    eexists _, _, _, (G ++ [JObj (dict_set msg "type" (JStr "run_query"))]).
    split; [reflexivity|]. split; [exact Hv5|].
    split; [cbn; lia|]. split.
    + rewrite Hfr5. cbn. by rewrite <- !app_assoc.
    + apply Forall_app. split.
      * eapply Forall_impl; [exact HG|]. cbn. intros f Hf. by left.
      * apply Forall_singleton. right. reflexivity.
Qed.


Lemma has_type_other (t t' : string) (f : json) :
  has_type t f = true -> t <> t' -> has_type t' f = false.
Proof.
  unfold has_type. destruct (frame_type f) as [[| | | |s| |]|]; try done.
  cbn. intros ->%String.eqb_eq Hne. by apply String.eqb_neq.
Qed.

Lemma process_chunks_view (place : json) (c : nat) (chunks : list json) :
  forall (num : nat) (w : world) (out : list json) (pend : list loc) (B : nat),
    client_view w c out pend ->
    Forall chunk_ok chunks ->
    upstream_ok ->
    Forall writable chunks ->
    (forall i, B <= sched i c) ->
    length pend + length chunks <= B -> 1 <= B ->
    exists w' out' pend' F,
      process_chunks place c num chunks w = Done true w' /\
      client_view w' c out' pend' /\
      out' ++ map (frame_of (objs w')) pend' =
        (out ++ map (frame_of (objs w)) pend) ++ F /\
      List.filter (has_type "chunk") F = chunk_frames place num chunks /\
      Forall (fun f => has_type "done" f = false /\
                       has_type "error" f = false) F.
Proof.
  induction chunks as [|chunk chunks IH];
    intros num w out pend B Hv Hok Hup Hdisk Hsched Hlen HB.
  - exists w, out, pend, []. rewrite app_nil_r. repeat split; done.
  - apply Forall_cons in Hok as [Hc Hok]. cbn [length] in Hlen.
    apply Forall_cons in Hdisk as [Hd Hdisk].
    destruct (process_chunk_view place c num chunk w out pend B Hv Hc Hup
                Hd Hsched ltac:(lia) HB)
      as (w1 & out1 & pend1 & G & Hrun & Hv1 & Hlen1 & Hfr1 & HG).
    destruct (IH (S num) w1 out1 pend1 B Hv1 Hok Hup Hdisk Hsched
                ltac:(lia) HB)
      as (w2 & out2 & pend2 & F & Hrun2 & Hv2 & Hfr2 & Hfil & Hnd).
    set (own := if has_oql chunk
                then [JObj (chunk_msg place num (chunk_filename chunk) "chunk")]
                else []) in *.
    exists w2, out2, pend2, ((G ++ own) ++ F).
    split.
    { cbn [process_chunks]. unfold mbind, M_bind. rewrite Hrun. exact Hrun2. }
    split; [exact Hv2|]. split.
    { rewrite Hfr2, Hfr1. by rewrite <- !app_assoc. }
    split.
    { rewrite !List.filter_app, Hfil. cbn [chunk_frames]. fold own.
      f_equal.
      assert (HGf : List.filter (has_type "chunk") G = []).
      { clear -HG. induction G as [|g G IHG]; [done|].
        apply Forall_cons in HG as [Hg HG]. cbn.
        rewrite IHG by done.
        destruct Hg as [Hg|Hg];
          by rewrite (has_type_other _ "chunk" _ Hg). }
      rewrite HGf. cbn [app]. subst own. by destruct (has_oql chunk). }
    apply Forall_app. split; [apply Forall_app; split|exact Hnd].
    + eapply Forall_impl; [exact HG|]. cbn. intros f [Hf|Hf];
        split; by apply (has_type_other _ _ _ Hf).
    + subst own. destruct (has_oql chunk); by repeat constructor.
Qed.

Lemma chunk_frames_nums (place : json) (chunks : list json) :
  forall num,
    Forall (fun z => (Z.of_nat num <= z)%Z)
      (omap frame_num (chunk_frames place num chunks)) /\
    StronglySorted Z.lt (omap frame_num (chunk_frames place num chunks)).
Proof.
  induction chunks as [|chunk chunks IH]; intros num; cbn.
  - split; constructor.
  - destruct (IH (S num)) as (Hge & Hsorted).
    destruct (has_oql chunk); cbn.
    + split.
      * constructor; [lia|]. eapply Forall_impl; [exact Hge|]. cbn. lia.
      * constructor; [exact Hsorted|].
        eapply Forall_impl; [exact Hge|]. cbn. lia.
    + split; [|exact Hsorted].
      eapply Forall_impl; [exact Hge|]. cbn. lia.
Qed.

(** C2, as the code has it: for a job whose chunks are well formed, with
    an upstream that never fails, cache files that can be written, a
    client that acknowledges every frame and a handler that relays each
    message before the worker resumes, the client receives one [chunk]
    frame for every chunk whose ['oql'] is true (none for the others),
    with strictly ascending ['num'], then exactly one [done] frame, after
    which the connection is closed. *)
Theorem process_queue_chunk_frames (w : world) (c : nat) (out : list json)
    (prio : spec_float) (job : item) (q' : list entry)
    (chunks : list json) :
  heapq.heappop entry_lt (task_queue w) = Done (prio, job) q' ->
  item_queue job = c ->
  item_chunks job = JArr chunks ->
  Forall chunk_ok chunks ->
  client_view w c out [] ->
  upstream_ok ->
  Forall writable chunks ->
  (forall i, S (length chunks) <= sched i c) ->
  exists w' r F,
    process_queue w = Done tt w' /\
    requests w' !! c = Some r /\
    handler (drain (objs w') r) = HReturned /\
    sock_closed (sock (drain (objs w') r)) = true /\
    sock_out (sock (drain (objs w') r)) = out ++ F ++ [done_frame] /\
    List.filter (has_type "chunk") F = chunk_frames (item_place job) 0 chunks /\
    StronglySorted Z.lt (omap frame_num (List.filter (has_type "chunk") F)) /\
    Forall (fun f => has_type "done" f = false /\
                     has_type "error" f = false) F.
Proof.
  intros Hpop Hc Hchunks Hok Hv Hup Hdisk Hsched.
  assert (Hv0 : client_view (set_task_queue q' w) c out []).
  { by apply (client_view_ext w). }
  destruct (process_chunks_view (item_place job) c chunks 0
              (set_task_queue q' w) out [] (S (length chunks)) Hv0 Hok Hup
              Hdisk Hsched ltac:(cbn; lia) ltac:(lia))
    as (w2 & out2 & pend2 & F & Hrun & Hv2 & Hfr & Hfil & Hnd).
  destruct Hv2 as (r2 & Hr2 & Hrel2 & Hout2 & Hq2 & Hall2).
  set (r3 := set_send_queue (fun q => q ++ [None]) r2).
  exists (add_put c None
            (set_requests (alter (set_send_queue (fun q => q ++ [None])) c) w2)),
    r3, F.
  split.
  { unfold process_queue, task_queue_get, on_task_queue, mbind, M_bind.
    destruct (task_queue w) as [|e q] eqn:Hq; [discriminate|].
    rewrite Hpop. cbn [snd]. rewrite Hchunks. cbn [py_iter lift mret M_ret].
    rewrite Hc, Hrun. reflexivity. }
  split.
  { cbn. by rewrite lookup_alter_eq, Hr2. }
  assert (Hrel3 : relaying r3) by exact Hrel2.
  assert (Hq3 : send_queue r3 = map Some pend2 ++ [None]).
  { subst r3. cbn. by rewrite Hq2. }
  destruct (drain_sentinel (objs w2) pend2 r3 Hrel3 Hq3 Hall2)
    as (Hh & Hcl & _ & Hout).
  cbn [objs add_put set_requests].
  split; [exact Hh|]. split; [exact Hcl|].
  split.
  { rewrite Hout. subst r3. cbn [sock set_send_queue].
    rewrite Hout2, app_assoc, Hfr. cbn [map]. rewrite app_nil_r.
    by rewrite <- app_assoc. }
  split; [exact Hfil|]. split; [|exact Hnd].
  rewrite Hfil. apply chunk_frames_nums.
Qed.

Lemma alter_at_length {A} (f : A -> A) (l1 l2 : list A) (x : A) :
  alter f (length l1) (l1 ++ x :: l2) = l1 ++ f x :: l2.
Proof. induction l1 as [|y l1 IH]; cbn; [done|]. by rewrite IH. Qed.


Lemma process_chunk_cached (place : json) (c num : nat) (chunk : json)
    (w : world) (out : list json) (pend : list loc) :
  client_view w c out pend ->
  cached (files w) chunk ->
  exists w' pend',
    process_chunk place c num chunk w = Done true w' /\
    client_view w' c out pend' /\
    map (frame_of (objs w')) pend' =
      map (frame_of (objs w)) pend ++
      (if has_oql chunk
       then [JObj (chunk_msg place num (chunk_filename chunk) "chunk")]
       else []) /\
    same_effects w w'.
Proof.
  intros Hv (d & -> & Hname).
  unfold has_oql, chunk_filename. cbn [py_get py_getitem].
  cbv [process_chunk py_get mbind M_bind mret M_ret lift gets modify raise
       new_dict os_path_exists check_free_space to_client queue_put
       write_file overpass_run_query yield py_getitem py_str_concat].
  destruct (py_truthy (default JNull (dict_get d "oql"))) eqn:Hoql; cbn [negb].
  2:{ exists w, pend. rewrite app_nil_r. by repeat split. }
  destruct (Hname eq_refl) as (name & Hn & Hfile).
  rewrite Hn.
  set (msg := [("num", JInt (Z.of_nat num)); ("filename", JStr name);
               ("place", place)]).
  destruct (client_view_new_dict w c out pend msg Hv) as (Hv1 & Hfr1 & Hlt).
  assert (Hl : objs (set_objs (fun o => o ++ [msg]) w) !! length (objs w)
               = Some msg).
  { cbn. by rewrite lookup_app_r, Nat.sub_diag by lia. }
  cbn [files set_objs].
  rewrite bool_decide_eq_true_2 by exact Hfile.
  assert (Hnotin : length (objs w) ∉ pend).
  { intros Hin. rewrite Forall_forall in Hlt. specialize (Hlt _ Hin). lia. }
  destruct (client_view_to_client _ c out pend _ msg "chunk" Hv1 Hl Hnotin
              ltac:(done)) as (Hv2 & Hfr2).
  eexists _, (pend ++ [length (objs w)]).
  split; [reflexivity|]. split; [exact Hv2|]. split; [|by repeat split].
  rewrite Hfr2. cbn [objs set_objs]. rewrite Hfr1. reflexivity.
Qed.

Lemma process_chunks_cached (place : json) (c : nat) (chunks : list json) :
  forall (num : nat) (w : world) (out : list json) (pend : list loc),
    client_view w c out pend ->
    Forall (cached (files w)) chunks ->
    exists w' pend',
      process_chunks place c num chunks w = Done true w' /\
      client_view w' c out pend' /\
      map (frame_of (objs w')) pend' =
        map (frame_of (objs w)) pend ++ chunk_frames place num chunks /\
      same_effects w w'.
Proof.
  induction chunks as [|chunk chunks IH]; intros num w out pend Hv Hall.
  - exists w, pend. rewrite app_nil_r. by repeat split.
  - apply Forall_cons in Hall as [Hc Hall].
    destruct (process_chunk_cached place c num chunk w out pend Hv Hc)
      as (w1 & pend1 & Hrun & Hv1 & Hfr1 & Hsame1).
    assert (Hall1 : Forall (cached (files w1)) chunks).
    { destruct Hsame1 as (-> & _). exact Hall. }
    destruct (IH (S num) w1 out pend1 Hv1 Hall1)
      as (w2 & pend2 & Hrun2 & Hv2 & Hfr2 & Hsame2).
    exists w2, pend2. split.
    { cbn [process_chunks]. unfold mbind, M_bind. rewrite Hrun. exact Hrun2. }
    split; [exact Hv2|]. split.
    { rewrite Hfr2, Hfr1. cbn [chunk_frames]. by rewrite <- app_assoc. }
    unfold same_effects in *. intuition congruence.
Qed.

Lemma chunk_frames_type (place : json) (chunks : list json) :
  forall num,
    Forall (fun f => has_type "chunk" f = true /\
                     has_type "run_query" f = false)
      (chunk_frames place num chunks).
Proof.
  induction chunks as [|chunk chunks IH]; intros num; cbn; [constructor|].
  destruct (has_oql chunk); cbn; [constructor; [by split|]|]; apply IH.
Qed.

(** A chunk that is in the cache costs nothing but its [chunk] message. *)
Lemma process_chunk_skips_fetch (place : json) (c num : nat) (chunk : json)
    (w : world) :
  cached (files w) chunk ->
  exists w',
    process_chunk place c num chunk w = Done true w' /\
    same_effects w w' /\
    space_checks w' = space_checks w /\
    puts w' = puts w ++
      (if has_oql chunk then [(c, Some (length (objs w)))] else []) /\
    (has_oql chunk = true ->
     objs w' !! length (objs w) =
       Some (chunk_msg place num (chunk_filename chunk) "chunk")).
Proof.
  intros (d & -> & Hname).
  unfold has_oql, chunk_filename. cbn [py_get py_getitem].
  cbv [process_chunk py_get mbind M_bind mret M_ret lift gets modify raise
       new_dict os_path_exists check_free_space to_client queue_put
       write_file overpass_run_query yield py_getitem py_str_concat].
  destruct (py_truthy (default JNull (dict_get d "oql"))) eqn:Hoql; cbn [negb].
  2:{ exists w. rewrite app_nil_r. by repeat split. }
  destruct (Hname eq_refl) as (name & Hn & Hfile).
  rewrite Hn.
  cbn [files set_objs].
  rewrite bool_decide_eq_true_2 by exact Hfile.
  eexists. split; [reflexivity|]. cbn.
  split; [by repeat split|]. split; [reflexivity|]. split; [reflexivity|].
  intros _.
  rewrite <- (app_nil_r (objs w ++ _)), <- app_assoc. cbn [app].
  rewrite alter_at_length.
  by rewrite lookup_app_r, Nat.sub_diag by lia.
Qed.

(** C7.  A chunk whose cache file exists is never fetched again: the
    worker makes no call of the upstream for it, writes no file, does not
    check the disk, does not suspend, and puts its [chunk] message and
    nothing else.  A job all of whose chunks are in the cache is therefore
    processed without any call of the upstream, and the cache files are
    left as they were; the client receives the [chunk] frames and [done],
    and no [run_query] frame. *)
Theorem process_queue_all_cached :
  (forall (place : json) (c num : nat) (chunk : json) (w : world),
     cached (files w) chunk ->
     exists w',
       process_chunk place c num chunk w = Done true w' /\
       files w' = files w /\
       queries w' = queries w /\
       status_calls w' = status_calls w /\
       yields w' = yields w /\
       space_checks w' = space_checks w /\
       puts w' = puts w ++
         (if has_oql chunk then [(c, Some (length (objs w)))] else []) /\
       (has_oql chunk = true ->
        objs w' !! length (objs w) =
          Some (chunk_msg place num (chunk_filename chunk) "chunk"))) /\
  (forall (w : world) (c : nat) (out : list json) (prio : spec_float)
          (job : item) (q' : list entry) (chunks : list json),
     heapq.heappop entry_lt (task_queue w) = Done (prio, job) q' ->
     item_queue job = c ->
     item_chunks job = JArr chunks ->
     Forall (cached (files w)) chunks ->
     client_view w c out [] ->
     exists w' r,
       process_queue w = Done tt w' /\
       files w' = files w /\
       queries w' = queries w /\
       status_calls w' = status_calls w /\
       yields w' = yields w /\
       requests w' !! c = Some r /\
       sock_out (sock (drain (objs w') r)) =
         out ++ chunk_frames (item_place job) 0 chunks ++ [done_frame] /\
       Forall (fun f => has_type "chunk" f = true /\
                        has_type "run_query" f = false)
         (chunk_frames (item_place job) 0 chunks)).
Proof.
  split.
  { intros place c num chunk w Hc.
    destruct (process_chunk_skips_fetch place c num chunk w Hc)
      as (w' & Hrun & (Hf & Hq & Hs & _ & _ & Hy) & Hsp & Hp & Ho).
    exists w'. by repeat split. }
  intros w c out prio job q' chunks Hpop Hc Hchunks Hall Hv.
  assert (Hv0 : client_view (set_task_queue q' w) c out []).
  { by apply (client_view_ext w). }
  destruct (process_chunks_cached (item_place job) c chunks 0
              (set_task_queue q' w) out [] Hv0 Hall)
    as (w2 & pend2 & Hrun & Hv2 & Hfr & Hf & Hq & Hs & _ & _ & Hy).
  destruct Hv2 as (r2 & Hr2 & Hrel2 & Hout2 & Hq2 & Hall2).
  set (r3 := set_send_queue (fun q => q ++ [None]) r2).
  exists (add_put c None
            (set_requests (alter (set_send_queue (fun q => q ++ [None])) c) w2)),
    r3.
  split.
  { unfold process_queue, task_queue_get, on_task_queue, mbind, M_bind.
    destruct (task_queue w) as [|e q] eqn:Hq0; [discriminate|].
    rewrite Hpop. cbn [snd]. rewrite Hchunks. cbn [py_iter lift mret M_ret].
    rewrite Hc, Hrun. reflexivity. }
  split; [exact Hf|]. split; [exact Hq|]. split; [exact Hs|].
  split; [exact Hy|]. split.
  { cbn. by rewrite lookup_alter_eq, Hr2. }
  assert (Hq3 : send_queue r3 = map Some pend2 ++ [None]).
  { subst r3. cbn. by rewrite Hq2. }
  destruct (drain_sentinel (objs w2) pend2 r3 Hrel2 Hq3 Hall2)
    as (_ & _ & _ & Hout).
  cbn [objs add_put set_requests]. split; [|apply chunk_frames_type].
  rewrite Hout. subst r3. cbn [sock set_send_queue].
  rewrite Hout2, Hfr. reflexivity.
Qed.


Lemma process_chunks_app (place : json) (c : nat) (pre post : list json) :
  forall (num : nat) (w w1 : world),
    process_chunks place c num pre w = Done true w1 ->
    process_chunks place c num (pre ++ post) w =
    process_chunks place c (num + length pre) post w1.
Proof.
  induction pre as [|chunk pre IH]; intros num w w1 Hrun.
  - cbn in Hrun. injection Hrun as <-. cbn. by rewrite Nat.add_0_r.
  - cbn [process_chunks app length] in *. unfold mbind, M_bind in *.
    destruct (process_chunk place c num chunk w) as [[|] w0| |];
      try discriminate.
    rewrite (IH _ _ _ Hrun). f_equal. lia.
Qed.

(** C4, as the code has it: there is no isolation between jobs.  When
    [overpass.run_query] raises while a job is processed, the exception
    leaves [process_queue] and [process_queue_loop]: the worker stops.
    Nothing is put on the queue of the job after its [run_query] message
    (no error message, no sentinel), no cache file is written, and the
    jobs still queued are never dequeued. *)
Theorem process_queue_loop_fetch_failure (fuel : nat) (w w1 : world)
    (prio : spec_float) (job : item) (q' : list entry)
    (pre post : list json) (d : dict) (oql : json) (name : string)
    (slots : list Z) (e : exn) :
  heapq.heappop entry_lt (task_queue w) = Done (prio, job) q' ->
  item_chunks job = JArr (pre ++ JObj d :: post) ->
  process_chunks (item_place job) (item_queue job) 0 pre
    (set_task_queue q' w) = Done true w1 ->
  dict_get d "oql" = Some oql ->
  py_truthy oql = true ->
  dict_get d "filename" = Some (JStr name) ->
  files w1 !! String.append "overpass/" name = None ->
  get_status (status_calls w1) = inr slots ->
  run_query (length (queries w1)) oql = inl e ->
  exists w' P,
    process_queue_loop (S fuel) w = Some (Raised e w') /\
    task_queue w' = task_queue w1 /\
    files w' = files w1 /\
    puts w' = puts w1 ++ P /\
    Forall (fun x => exists l, x = (item_queue job, Some l) /\
              has_type "error" (frame_of (objs w') l) = false) P.
Proof.
  intros Hpop Hchunks Hpre Hoql Htrue Hname Hfile Hst Hrq.
  assert (Hstep : exists w' P,
    process_chunk (item_place job) (item_queue job) (length pre) (JObj d) w1
      = Raised e w' /\
    task_queue w' = task_queue w1 /\ files w' = files w1 /\
    puts w' = puts w1 ++ P /\
    Forall (fun x => exists l, x = (item_queue job, Some l) /\
              has_type "error" (frame_of (objs w') l) = false) P).
  { cbv [process_chunk py_get mbind M_bind mret M_ret lift gets modify raise
         new_dict os_path_exists check_free_space to_client queue_put
         write_file overpass_run_query yield py_getitem py_str_concat
         wait_for_slot overpass_get_status sleep].
    rewrite Hoql. cbn [default from_option id]. rewrite Htrue, Hname.
    cbn [negb files set_objs status_calls count_space_check].
    rewrite Hfile, bool_decide_eq_false_2 by (intros [? ?]; done).
    cbn [status_calls set_objs count_space_check].
    rewrite Hst.
    destruct slots as [|secs rest];
      [|destruct (Z.leb_spec secs 0) as [Hle|Hgt]];
      unfold suspend;
      cbn [negb queries add_put set_requests set_objs count_yield add_sleep
           count_status count_space_check];
      rewrite Hrq.
    - eexists _, [_]. split; [reflexivity|]. cbn.
      repeat split; try reflexivity.
      apply Forall_singleton. eexists. split; [reflexivity|].
      unfold frame_of.
      rewrite list_lookup_alter_eq, lookup_app_r, Nat.sub_diag by lia.
      reflexivity.
    - eexists _, [_]. split; [reflexivity|]. cbn.
      repeat split; try reflexivity.
      apply Forall_singleton. eexists. split; [reflexivity|].
      unfold frame_of.
      rewrite list_lookup_alter_eq, lookup_app_r, Nat.sub_diag by lia.
      reflexivity.
    - eexists _, [_; _]. split; [reflexivity|]. cbn.
      repeat split; try (rewrite <- ?app_assoc; reflexivity).
      constructor; [|constructor; [|constructor]];
        (eexists; split; [reflexivity|]); unfold frame_of.
      + rewrite list_lookup_alter_ne by (rewrite length_app; cbn; lia).
        rewrite lookup_app_r by done. rewrite Nat.sub_diag. reflexivity.
      + rewrite list_lookup_alter_eq, lookup_app_l
          by (rewrite length_app; cbn; lia).
        rewrite lookup_app_r, Nat.sub_diag by lia. reflexivity. }
  destruct Hstep as (w' & P & Hrun & Htq & Hf & Hp & HP).
  exists w', P. split; [|done].
  cbn [process_queue_loop].
  unfold process_queue, task_queue_get, on_task_queue, mbind, M_bind.
  destruct (task_queue w) as [|x q] eqn:Hq0; [discriminate|].
  rewrite Hpop. cbn [snd]. rewrite Hchunks. cbn [py_iter lift mret M_ret].
  rewrite (process_chunks_app _ _ pre (JObj d :: post) 0 _ w1 Hpre).
  cbn [process_chunks Nat.add]. unfold mbind, M_bind. rewrite Hrun.
  reflexivity.
Qed.

(** ** Properties of the handler *)

Ltac handler_died :=
  eexists _, _; cbn;
  rewrite lookup_alter_eq, ?lookup_insert_eq; cbn;
  repeat split; reflexivity.

(** C9: a decoded message that is not a ping and lacks ['place'], or whose
    ['place'] lacks ['area'], or that lacks ['chunks'], makes [handle] die
    of an exception before [task_queue.put]: the queue is as it was and
    no frame has been written to the client. *)
Theorem handle_missing_key (w : world) (self : nat) (r : Request)
    (msg : json) :
  requests w !! self = Some r ->
  sock_request (sock r) = Some msg ->
  (forall ty, py_get msg "type" = inr ty -> is_str ty "ping" = false) ->
  ((exists e, py_getitem msg "place" = inl e) \/
   (exists p e, py_getitem msg "place" = inr p /\
                py_getitem p "area" = inl e) \/
   (exists e, py_getitem msg "chunks" = inl e)) ->
  exists e r',
    requests (handle self w) !! self = Some r' /\
    handler r' = HRaised e /\
    task_queue (handle self w) = task_queue w /\
    sock r' = sock r.
Proof.
  intros Hr Hreq Hping Hlack.
  unfold handle, handle_entry, on_request, store_request, mbind, M_bind, gets. rewrite Hr.
  cbn [sock_request]. rewrite Hreq.
  destruct (py_get msg "type") as [e|ty] eqn:Hty; cbn [lift raise].
  { exists e, (set_handler (HRaised e) r). cbn.
    rewrite lookup_alter_eq, lookup_insert_eq. done. }
  cbn [mret M_ret]. rewrite (Hping ty eq_refl).
  unfold new_place_request, on_request, store_request, mbind, M_bind,
    modify, gets.
  cbn [requests set_requests]. rewrite lookup_insert_eq.
  destruct Hlack as [(e & Hp) | [(p & e & Hp & Ha) | (e & Hc)]].
  - rewrite Hp. cbn [ebind].
    assert (He : e <> ValueError)
      by (unfold py_getitem in Hp; destruct msg; try destruct (dict_get _ _);
          congruence).
    destruct e; try done; handler_died.
  - rewrite Hp. cbn [ebind]. rewrite Ha. cbn [ebind].
    assert (He : e <> ValueError)
      by (unfold py_getitem in Ha; destruct p; try destruct (dict_get _ _);
          congruence).
    destruct e; try done; handler_died.
  - destruct (ebind _ py_float) as [[]|a];
      try handler_died;
      (destruct (py_getitem msg "place") as [e1|pl]; cbn [lift raise];
       [handler_died|]);
      cbn [mret M_ret requests set_requests];
      rewrite lookup_insert_eq, Hc; handler_died.
Qed.


Ltac place_request_entry Hr Hreq Hty Hping Hp Ha :=
  unfold handle, handle_entry, on_request, store_request, mbind, M_bind,
    gets;
  rewrite Hr; cbn [sock_request]; rewrite Hreq, Hty; cbn [lift mret M_ret];
  rewrite Hping;
  unfold new_place_request, on_request, store_request, mbind, M_bind,
    modify, gets;
  cbn [requests set_requests]; rewrite lookup_insert_eq;
  rewrite Hp; cbn [ebind]; rewrite Ha; cbn [ebind].

(** C8, as the code has it: for a place request whose ['place'] has an
    ['area'], the priority is [float(area)], and 0 when [float] raises
    [ValueError] (a string that is not a number).  The job is then put on
    the queue; when the put does not raise and the client is there, the
    handler writes [connected], which the client has to acknowledge.  Any
    other exception of [float] ([TypeError] for [null], a list or a dict)
    is not caught: the handler dies before the put, having written
    nothing.  An exception of the put is not caught either: [connected]
    is not written, and the queue stays as [heapq] left it; the put does
    raise, [TypeError], when the one job that is queued has the same
    priority.  (A missing ['area'] is a [KeyError]: see
    [handle_missing_key].) *)
Theorem handle_place_request_priority (w : world) (self : nat)
    (r : Request) (msg place areav chunks : json) :
  requests w !! self = Some r ->
  sock_request (sock r) = Some msg ->
  (exists ty, py_get msg "type" = inr ty /\ is_str ty "ping" = false) ->
  py_getitem msg "place" = inr place ->
  py_getitem place "area" = inr areav ->
  py_getitem msg "chunks" = inr chunks ->
  let job (a : spec_float) : entry :=
    (a, Item place (address r) chunks self) in
  let priority (a : spec_float) : Prop :=
    py_float areav = inr a \/
    (py_float areav = inl ValueError /\ a = float_zero) in
  (forall a q',
     priority a ->
     heapq.heappush entry_lt (job a) (task_queue w) = Done tt q' ->
     sock_wr_budget (sock r) <> Some 0 ->
     exists r',
       requests (handle self w) !! self = Some r' /\
       task_queue (handle self w) = q' /\
       send_queue r' = [] /\
       sock_out (sock r') =
         sock_out (sock r) ++ [JObj [("type", JStr "connected")]] /\
       handler r' =
         match sock_reply (sock r) (sock_reads (sock r)) with
         | Some reply =>
             if String.eqb reply "ack" then HRelay false
             else HRaised AssertionError
         | None => HBlocked
         end) /\
  (forall e,
     py_float areav = inl e ->
     e <> ValueError ->
     task_queue (handle self w) = task_queue w /\
     requests (handle self w) !! self
       = Some (set_handler (HRaised e) (set_send_queue (fun _ => []) r))) /\
  (forall a e q',
     priority a ->
     heapq.heappush entry_lt (job a) (task_queue w) = Raised e q' ->
     task_queue (handle self w) = q' /\
     requests (handle self w) !! self
       = Some (set_handler (HRaised e) (set_send_queue (fun _ => []) r))) /\
  (forall a x,
     priority a ->
     task_queue w = [x] ->
     SFeqb a (fst x) = true ->
     task_queue (handle self w) = [x; job a] /\
     requests (handle self w) !! self
       = Some (set_handler (HRaised TypeError)
                 (set_send_queue (fun _ => []) r))).
Proof.
  intros Hr Hreq (ty & Hty & Hping) Hp Ha Hc job priority.
  assert (Harea : forall (a : spec_float) (w1 : world), priority a ->
    match py_float areav with
    | inl ValueError => Done float_zero w1
    | inl e => Raised e w1
    | inr a0 => Done a0 w1
    end = Done a w1).
  { intros a w1 [-> | [-> ->]]; reflexivity. }
  assert (Hput : forall a e q',
    priority a ->
    heapq.heappush entry_lt (job a) (task_queue w) = Raised e q' ->
    task_queue (handle self w) = q' /\
    requests (handle self w) !! self
      = Some (set_handler (HRaised e) (set_send_queue (fun _ => []) r))).
  { intros a e q' Hprio Hpush. place_request_entry Hr Hreq Hty Hping Hp Ha.
    rewrite (Harea a _ Hprio). cbn [lift mret M_ret requests set_requests].
    rewrite lookup_insert_eq, Hc.
    unfold task_queue_put, on_task_queue.
    cbn [lift mret M_ret task_queue set_requests address set_send_queue].
    fold (job a). rewrite Hpush. cbn.
    by rewrite lookup_alter_eq, !lookup_insert_eq. }
  split_and!.
  - intros a q' Hprio Hpush Hbudget.
    place_request_entry Hr Hreq Hty Hping Hp Ha.
    rewrite (Harea a _ Hprio). cbn [lift mret M_ret requests set_requests].
    rewrite lookup_insert_eq, Hc.
    unfold task_queue_put, on_task_queue.
    cbn [lift mret M_ret task_queue set_requests address set_send_queue].
    fold (job a). rewrite Hpush. cbn [requests set_requests set_task_queue].
    rewrite lookup_insert_eq.
    unfold send_msg, netstring_write, netstring_read, mbind, M_bind.
    cbn [sock set_send_queue].
    destruct (sock_wr_budget (sock r)) as [[|n]|] eqn:Hb; [done| |];
      cbn;
      (destruct (sock_reply (sock r) (sock_reads (sock r))) as [reply|];
       [destruct (String.eqb reply "ack")|]);
      eexists; cbn; rewrite lookup_alter_eq, ?lookup_insert_eq; cbn;
      repeat split; reflexivity.
  - intros e Hfl Hne. place_request_entry Hr Hreq Hty Hping Hp Ha.
    rewrite Hfl.
    destruct e; try done; cbn;
      by rewrite lookup_alter_eq, !lookup_insert_eq.
  - exact Hput.
  - intros a x Hprio Hq Heq.
    apply (Hput a TypeError [x; job a]); [done|]. rewrite Hq.
    unfold heapq.heappush, heapq.siftdown, mbind, M_bind, gets, modify. cbn.
    rewrite decide_True by lia. cbn. unfold entry_lt. cbn [fst job].
    by rewrite Heq.
Qed.

Lemma acked_upto_S (reply : nat -> option string) (n : nat) :
  acked_upto reply n -> reply n = Some "ack" -> acked_upto reply (S n).
Proof.
  intros Hn Hlast i Hi. destruct (decide (i = n)) as [->|]; [done|].
  apply Hn. lia.
Qed.

(** [send_msg] with [check_ack]: the frame is written unless the pipe is
    broken, and then the next frame of the client decides. *)
Lemma send_msg_cases (msg : json) (r : Request) :
  send_msg msg true r = Raised BrokenPipeError r \/
  exists r',
    sock_out (sock r') = sock_out (sock r) ++ [msg] /\
    sock_reply (sock r') = sock_reply (sock r) /\
    sock_closed (sock r') = sock_closed (sock r) /\
    ((send_msg msg true r = Blocked r' /\
      sock_reply (sock r) (sock_reads (sock r)) = None) \/
     (send_msg msg true r = Raised AssertionError r' /\
      sock_reply (sock r) (sock_reads (sock r)) <> Some "ack") \/
     (send_msg msg true r = Done tt r' /\
      sock_reply (sock r) (sock_reads (sock r)) = Some "ack" /\
      sock_reads (sock r') = S (sock_reads (sock r)))).
Proof.
  unfold send_msg, netstring_write, netstring_read, mbind, M_bind,
    mret, M_ret, raise.
  destruct (sock_wr_budget (sock r)) as [[|n]|]; [by left| |]; right; cbn;
    (destruct (sock_reply (sock r) (sock_reads (sock r))) as [s|] eqn:Hs;
     [destruct (String.eqb s "ack") eqn:Hack|]);
    match goal with
    | |- exists r', _ /\ _ /\ _ /\ ((?o = _ /\ _) \/ _) =>
        match o with
        | Done _ ?x => exists x
        | Raised _ ?x => exists x
        | Blocked ?x => exists x
        end
    end;
    (split; [|split; [|split]]); try reflexivity; cbn.
  - right; right. apply String.eqb_eq in Hack as ->. done.
  - right; left. split; [done|]. apply String.eqb_neq in Hack. congruence.
  - left. done.
  - right; right. apply String.eqb_eq in Hack as ->. done.
  - right; left. split; [done|]. apply String.eqb_neq in Hack. congruence.
  - left. done.
Qed.

(** One value taken off the queue keeps the discipline. *)
Lemma relay_step_discipline (reply : nat -> option string)
    (store : list dict) (to_send : option loc) (error : bool)
    (r : Request) :
  handler r = HRelay error ->
  ack_discipline reply r ->
  ack_discipline reply (relay_step store to_send error r).
Proof.
  intros Hh (Hreply & HJ). rewrite Hh in HJ.
  destruct HJ as (Hreads & Hclosed & Hacked).
  assert (Hpred : acked_upto reply (pred (length (sock_out (sock r))))).
  { intros i Hi. apply Hacked. lia. }
  unfold relay_step.
  destruct (py_truthy _).
  - unfold relay_body, mbind, M_bind.
    destruct (send_msg_cases (JObj (from_option
                (fun l => default [] (store !! l)) [] to_send)) r)
      as [-> | (r' & Hout & Hrep & Hcl & [(-> & Hn) | [(-> & Hn) | (-> & Hn & Hrd)]])].
    + split; [done|]. cbn. done.
    + split; [cbn; congruence|]. cbn.
      rewrite Hout, length_app, Nat.add_1_r, Hcl, Hclosed. done.
    + split; [cbn; congruence|]. cbn.
      rewrite Hout, length_app, Nat.add_1_r, Hcl, Hclosed. done.
    + rewrite Hreads, Hreply in Hn.
      destruct (py_getitem _ "type") as [e|ty]; cbn.
      * destruct e; (split; [cbn; congruence|]); cbn;
          rewrite Hout, length_app, Nat.add_1_r, ?Hcl, ?Hclosed; cbn;
          try done.
        split; [done|]. intros _. by apply acked_upto_S.
      * split; [cbn; congruence|]. cbn.
        rewrite Hout, length_app, Nat.add_1_r, Hcl, Hclosed.
        split; [lia|]. split; [done|]. by apply acked_upto_S.
  - unfold relay_finish, sock_close, mbind, M_bind, modify.
    destruct error.
    { split; [done|]. cbn. done. }
    destruct (send_msg_cases (JObj [("type", JStr "done")]) r)
      as [-> | (r' & Hout & Hrep & Hcl & [(-> & Hn) | [(-> & Hn) | (-> & Hn & Hrd)]])].
    + split; [done|]. cbn. rewrite Hclosed. done.
    + split; [cbn; congruence|]. cbn.
      rewrite Hout, length_app, Nat.add_1_r, Hcl, Hclosed. done.
    + split; [cbn; congruence|]. cbn.
      rewrite Hout, length_app, Nat.add_1_r, Hcl, Hclosed. done.
    + rewrite Hreads, Hreply in Hn.
      split; [cbn; congruence|]. cbn.
      rewrite Hout, length_app, Nat.add_1_r. cbn.
      split; [done|]. intros _. by apply acked_upto_S.
Qed.

Lemma relay_discipline (reply : nat -> option string) (store : list dict)
    (k : nat) :
  forall r, ack_discipline reply r -> ack_discipline reply (relay k store r).
Proof.
  induction k as [|k IH]; intros r HJ; [done|].
  cbn [relay].
  destruct (handler r) as [|error| | |] eqn:Hh; try done.
  destruct (send_queue r) as [|to_send rest] eqn:Hq; [done|].
  apply IH. apply relay_step_discipline; [done|].
  destruct HJ as (Hreply & HJ). split; [done|]. cbn. by rewrite Hh in *.
Qed.

(** [new_place_request] either stops before it writes anything, or goes
    on to write [connected] on a socket that is as it was. *)
Lemma new_place_request_cases (w : world) (self : nat) (r : Request)
    (msg : json) :
  requests w !! self = Some r ->
  exists w1 r0,
    requests w1 !! self = Some r0 /\
    sock r0 = sock r /\
    ((exists e, new_place_request self msg w = Raised e w1) \/
     new_place_request self msg w = Blocked w1 \/
     new_place_request self msg w =
       store_request self w1
         (send_msg (JObj [("type", JStr "connected")]) true r0)).
Proof.
  intros Hr.
  unfold new_place_request, on_request, mbind, M_bind, modify, gets.
  rewrite Hr. cbn [store_request].
  assert (Hstop : forall (o : outcome world unit) w1 (r0 : Request),
    (exists e, o = Raised e w1) \/ o = Blocked w1 \/
      o = store_request self w1
            (send_msg (JObj [("type", JStr "connected")]) true r0) ->
    requests w1 !! self = Some r0 -> sock r0 = sock r ->
    exists w1 r0,
      requests w1 !! self = Some r0 /\ sock r0 = sock r /\
      ((exists e, o = Raised e w1) \/ o = Blocked w1 \/
       o = store_request self w1
             (send_msg (JObj [("type", JStr "connected")]) true r0))).
  { intros o w1 r0 H1 H2 H3. by exists w1, r0. }
  set (r0 := set_send_queue (fun _ => []) r).
  assert (Hs0 : sock r0 = sock r) by reflexivity.
  destruct (ebind _ py_float) as [[]|a];
    try (eapply (Hstop _ _ r0);
         [left; eexists; reflexivity | apply lookup_insert_eq | exact Hs0]);
    (destruct (py_getitem msg "place") as [e1|pl]; cbn [lift raise];
     [eapply (Hstop _ _ r0);
      [left; eexists; reflexivity | apply lookup_insert_eq | exact Hs0]|]);
    cbn [mret M_ret requests set_requests];
    rewrite lookup_insert_eq; cbn [store_request];
    (destruct (py_getitem msg "chunks") as [e2|ch]; cbn [lift raise];
     [eapply (Hstop _ _ r0);
      [left; eexists; reflexivity | apply lookup_insert_eq | exact Hs0]|]);
    cbn [mret M_ret]; unfold task_queue_put, on_task_queue;
    match goal with |- context [heapq.heappush ?lt ?x ?q] =>
      destruct (heapq.heappush lt x q) as [[] q1|e3 q1|q1] end;
    cbn [requests set_requests set_task_queue];
    rewrite ?lookup_insert_eq;
    (eapply (Hstop _ _ r0);
     [first [right; right; reflexivity | left; eexists; reflexivity
            | right; left; reflexivity]
     | cbn; apply lookup_insert_eq | exact Hs0]).
Qed.

Ltac by_no_frame :=
  cbn; repeat split; try done;
  try (intros; intros i Hi; cbn in Hi; lia).

Lemma handle_discipline (w : world) (self : nat) (r r1 : Request)
    (msg : json) :
  requests w !! self = Some r ->
  sock_request (sock r) = Some msg ->
  (forall ty, py_get msg "type" = inr ty -> is_str ty "ping" = false) ->
  sock_out (sock r) = [] ->
  sock_reads (sock r) = 0 ->
  sock_closed (sock r) = false ->
  requests (handle self w) !! self = Some r1 ->
  ack_discipline (sock_reply (sock r)) r1.
Proof.
  intros Hr Hreq Hping Hout Hreads Hclosed.
  unfold handle, handle_entry, mbind, M_bind.
  unfold on_request at 1, gets. rewrite Hr. cbn [store_request sock_request].
  rewrite Hreq.
  destruct (py_get msg "type") as [e|ty] eqn:Hty; cbn [lift raise].
  { cbn. rewrite lookup_alter_eq, lookup_insert_eq. cbn.
    intros [= <-]. unfold ack_discipline. cbn. rewrite Hout. by_no_frame. }
  cbn [mret M_ret]. rewrite (Hping ty eq_refl).
  destruct (new_place_request_cases (set_requests <[self:=r]> w) self r msg
              ltac:(cbn; apply lookup_insert_eq))
    as (w1 & r0 & Hr0 & Hs0 & [(e & ->) | [-> | ->]]).
  - cbn. rewrite lookup_alter_eq, Hr0. cbn.
    intros [= <-]. unfold ack_discipline. cbn. rewrite Hs0, Hout. by_no_frame.
  - cbn. rewrite lookup_alter_eq, Hr0. cbn.
    intros [= <-]. unfold ack_discipline. cbn. rewrite Hs0, Hout. by_no_frame.
  - destruct (send_msg_cases (JObj [("type", JStr "connected")]) r0)
      as [-> | (r' & Ho & Hrep & Hcl &
                [(-> & Hn) | [(-> & Hn) | (-> & Hn & Hrd)]])];
      cbn; rewrite lookup_alter_eq, lookup_insert_eq; cbn;
      intros [= <-]; unfold ack_discipline; cbn.
    + rewrite Hs0, Hout. by_no_frame.
    + rewrite ?Ho, ?Hrep, ?Hcl, ?Hrd, ?Hs0, ?Hout, ?Hclosed. by_no_frame.
    + rewrite ?Ho, ?Hrep, ?Hcl, ?Hrd, ?Hs0, ?Hout, ?Hclosed. by_no_frame.
    + rewrite ?Ho, ?Hrep, ?Hcl, ?Hrd, ?Hs0, ?Hout, ?Hclosed, ?Hreads. cbn.
      repeat split; try done.
      intros i Hi. assert (i = 0) as -> by lia.
      rewrite Hs0, Hreads in Hn. done.
Qed.

(** C5, as the code has it: on a connection that made a place request,
    every frame the handler writes, [connected], the relayed messages and
    also [done], has to be answered with the literal [ack] before the
    handler writes another frame; and the handler closes the socket only
    when the last frame it wrote, [done] included, has been answered
    with [ack]. *)
Theorem ack_before_next_frame (w : world) (self : nat) (r r1 r' : Request)
    (msg : json) :
  requests w !! self = Some r ->
  sock_request (sock r) = Some msg ->
  (forall ty, py_get msg "type" = inr ty -> is_str ty "ping" = false) ->
  sock_out (sock r) = [] ->
  sock_reads (sock r) = 0 ->
  sock_closed (sock r) = false ->
  requests (handle self w) !! self = Some r1 ->
  relays r1 r' ->
  (forall i, S i < length (sock_out (sock r')) ->
     sock_reply (sock r) i = Some "ack") /\
  (sock_closed (sock r') = true ->
   forall i, i < length (sock_out (sock r')) ->
     sock_reply (sock r) i = Some "ack").
Proof.
  intros Hr Hreq Hping Hout Hreads Hclosed Hr1 Hrun.
  assert (HJ : ack_discipline (sock_reply (sock r)) r').
  { induction Hrun as [r1|r1 r2 q k store Hrun IH].
    - by eapply handle_discipline.
    - apply relay_discipline. specialize (IH Hr1).
      destruct IH as (Hrep & HJ). split; [done|]. exact HJ. }
  destruct HJ as (_ & HJ).
  destruct (handler r'); destruct HJ as (H1 & H2);
    try (split; [intros i Hi; apply H1; lia | exact H2]).
  destruct H2 as (Hcl & Hall).
  split; [intros i Hi; apply Hall; lia | by rewrite Hcl].
Qed.

(** C10: when [overpass.get_status()] succeeds, [wait_for_slot] returns
    [True] after that one call.  With an empty ['slots'] list, or a first
    entry that is zero or negative, it puts nothing on the queue, creates
    no message and does not sleep.  With a first entry [secs > 0] it puts
    exactly one status message carrying [secs] and sleeps exactly once,
    for [secs]. *)
Theorem wait_for_slot_status_ok (send_queue : nat) (w : world)
    (slots : list Z) :
  get_status (status_calls w) = inr slots ->
  exists w',
    wait_for_slot send_queue w = Done true w' /\
    status_calls w' = S (status_calls w) /\
    mails w' = mails w /\
    (slots = [] \/ (exists secs rest, slots = secs :: rest /\ (secs <= 0)%Z) ->
       puts w' = puts w /\ objs w' = objs w /\ sleeps w' = sleeps w) /\
    (forall secs rest, slots = secs :: rest -> (0 < secs)%Z ->
       objs w' = objs w ++ [[("type", JStr "status"); ("wait", JInt secs)]] /\
       puts w' = puts w ++ [(send_queue, Some (length (objs w)))] /\
       sleeps w' = sleeps w ++ [secs]).
Proof.
  intros Hst.
  unfold wait_for_slot, overpass_get_status, mbind, M_bind, gets, modify.
  cbn. rewrite Hst.
  destruct slots as [|secs rest];
    [|destruct (Z.leb_spec secs 0) as [Hle|Hgt]];
    (eexists; split; [reflexivity|]); cbn;
    repeat split; try reflexivity; intros;
    repeat match goal with
           | H : _ \/ _ |- _ => destruct H
           | H : exists _, _ |- _ => destruct H
           | H : _ /\ _ |- _ => destruct H
           end;
    simplify_eq; try lia; reflexivity.
Qed.
(** ** The other ways of [handle] *)

(** [reply_and_close]: one frame, no acknowledgment read; a broken pipe is
    not caught and the socket then stays as it was. *)
Lemma reply_and_close_cases (msg : json) (r : Request) :
  match sock_wr_budget (sock r) with
  | Some 0 => reply_and_close msg r = Raised BrokenPipeError r
  | _ =>
      exists r',
        reply_and_close msg r = Done tt r' /\
        sock_out (sock r') = sock_out (sock r) ++ [msg] /\
        sock_reads (sock r') = sock_reads (sock r) /\
        sock_closed (sock r') = true /\
        send_queue r' = send_queue r /\
        address r' = address r
  end.
Proof.
  unfold reply_and_close, send_msg, netstring_write, sock_close, mbind,
    M_bind, mret, M_ret, modify.
  destruct (sock_wr_budget (sock r)) as [[|n]|]; [reflexivity| |];
    (eexists; split; [reflexivity|]); cbn; done.
Qed.

(** X1: a first frame that decodes to a dict whose ['type'] is ['ping'] is
    answered with the one frame [pong], for which no acknowledgment is
    read; the socket is closed, the handler returns, and nothing is put on
    the task queue, whatever else the dict holds.  When the pipe is broken
    the exception is not caught: the handler dies and does not close the
    socket. *)
Theorem handle_ping (w : world) (self : nat) (r : Request) (msg ty : json) :
  requests w !! self = Some r ->
  sock_request (sock r) = Some msg ->
  py_get msg "type" = inr ty ->
  is_str ty "ping" = true ->
  task_queue (handle self w) = task_queue w /\
  exists r',
    requests (handle self w) !! self = Some r' /\
    send_queue r' = send_queue r /\
    match sock_wr_budget (sock r) with
    | Some 0 => handler r' = HRaised BrokenPipeError /\ sock r' = sock r
    | _ =>
        handler r' = HReturned /\
        sock_out (sock r') = sock_out (sock r) ++ [JObj [("type", JStr "pong")]] /\
        sock_reads (sock r') = sock_reads (sock r) /\
        sock_closed (sock r') = true
    end.
Proof.
  intros Hr Hreq Hty Hping.
  unfold handle, handle_entry, on_request, store_request, mbind, M_bind, gets.
  rewrite Hr. cbn [sock_request]. rewrite Hreq, Hty. cbn [lift mret M_ret].
  rewrite Hping. cbn [requests set_requests]. rewrite lookup_insert_eq.
  pose proof (reply_and_close_cases (JObj [("type", JStr "pong")]) r) as Hcase.
  destruct (sock_wr_budget (sock r)) as [[|n]|] eqn:Hb.
  - rewrite Hcase. cbn. split; [done|].
    eexists. rewrite lookup_alter_eq, lookup_insert_eq. cbn.
    split; [reflexivity|]. done.
  - destruct Hcase as (r' & -> & Hout & Hrd & Hcl & Hq & _). cbn.
    split; [done|].
    eexists. rewrite lookup_alter_eq, lookup_insert_eq. cbn.
    split; [reflexivity|]. done.
  - destruct Hcase as (r' & -> & Hout & Hrd & Hcl & Hq & _). cbn.
    split; [done|].
    eexists. rewrite lookup_alter_eq, lookup_insert_eq. cbn.
    split; [reflexivity|]. done.
Qed.

(** X2: a first frame on which [json.loads] raises [JSONDecodeError] is
    answered with the one frame
    [{'type': 'error', 'error': 'invalid JSON'}], for which no
    acknowledgment is read; the socket is closed and the handler returns.
    When the pipe is broken the exception is not caught: the handler dies
    and does not close the socket.  No other exception of the first read
    is caught either: the handler dies of it, writes nothing and does not
    close the socket.  The task queue is as it was in each case. *)
Theorem handle_invalid_json (w : world) (self : nat) (r : Request) :
  requests w !! self = Some r ->
  sock_request (sock r) = None ->
  task_queue (handle self w) = task_queue w /\
  exists r',
    requests (handle self w) !! self = Some r' /\
    send_queue r' = send_queue r /\
    match sock_request_error (sock r), sock_wr_budget (sock r) with
    | JSONDecodeError, Some 0 =>
        handler r' = HRaised BrokenPipeError /\ sock r' = sock r
    | JSONDecodeError, _ =>
        handler r' = HReturned /\
        sock_out (sock r') =
          sock_out (sock r) ++
          [JObj [("type", JStr "error"); ("error", JStr "invalid JSON")]] /\
        sock_reads (sock r') = sock_reads (sock r) /\
        sock_closed (sock r') = true
    | e, _ => handler r' = HRaised e /\ sock r' = sock r
    end.
Proof.
  intros Hr Hreq.
  unfold handle, handle_entry, on_request, store_request, mbind, M_bind, gets.
  rewrite Hr. cbn [sock_request]. rewrite Hreq.
  cbn [requests set_requests]. rewrite lookup_insert_eq.
  pose proof (reply_and_close_cases
    (JObj [("type", JStr "error"); ("error", JStr "invalid JSON")]) r) as Hcase.
  destruct (sock_request_error (sock r)) eqn:He;
    try (cbn; split; [done|];
         eexists; rewrite lookup_alter_eq, !lookup_insert_eq; cbn;
         (split; [reflexivity|]); done).
  cbn [requests set_requests]. rewrite lookup_insert_eq.
  destruct (sock_wr_budget (sock r)) as [[|n]|].
  - rewrite Hcase. cbn. split; [done|].
    eexists. rewrite lookup_alter_eq, !lookup_insert_eq. cbn.
    split; [reflexivity|]. done.
  - destruct Hcase as (r' & -> & Hout & Hrd & Hcl & Hq & _). cbn.
    split; [done|].
    eexists. rewrite lookup_alter_eq, !lookup_insert_eq. cbn.
    split; [reflexivity|]. done.
  - destruct Hcase as (r' & -> & Hout & Hrd & Hcl & Hq & _). cbn.
    split; [done|].
    eexists. rewrite lookup_alter_eq, !lookup_insert_eq. cbn.
    split; [reflexivity|]. done.
Qed.

(** X3: a first frame that decodes to something that is not a dict (a
    list, a number, a string, [null]) has no [get]: the handler dies of
    [AttributeError] before it writes anything, the socket is not closed
    and nothing is put on the task queue. *)
Theorem handle_not_a_dict (w : world) (self : nat) (r : Request)
    (msg : json) :
  requests w !! self = Some r ->
  sock_request (sock r) = Some msg ->
  (forall d, msg <> JObj d) ->
  task_queue (handle self w) = task_queue w /\
  requests (handle self w) !! self
    = Some (set_handler (HRaised AttributeError) r).
Proof.
  intros Hr Hreq Hnd.
  unfold handle, handle_entry, on_request, store_request, mbind, M_bind, gets.
  rewrite Hr. cbn [sock_request]. rewrite Hreq.
  destruct msg as [| | | | | |d]; try (by destruct (Hnd d));
    cbn; rewrite lookup_alter_eq, lookup_insert_eq; done.
Qed.

(** X4: the job is put on the task queue before [connected] is written.
    When the client has already gone, [send_msg] raises [BrokenPipeError]
    outside the [try] of [handle]: the handler dies without closing the
    socket, and the job stays on the task queue. *)
Theorem handle_connected_broken_pipe (w : world) (self : nat)
    (r : Request) (msg place areav chunks : json) (a : spec_float)
    (q' : list entry) :
  requests w !! self = Some r ->
  sock_request (sock r) = Some msg ->
  (exists ty, py_get msg "type" = inr ty /\ is_str ty "ping" = false) ->
  py_getitem msg "place" = inr place ->
  py_getitem place "area" = inr areav ->
  py_getitem msg "chunks" = inr chunks ->
  (py_float areav = inr a \/
   (py_float areav = inl ValueError /\ a = float_zero)) ->
  heapq.heappush entry_lt (a, Item place (address r) chunks self)
    (task_queue w) = Done tt q' ->
  sock_wr_budget (sock r) = Some 0 ->
  task_queue (handle self w) = q' /\
  requests (handle self w) !! self
    = Some (set_handler (HRaised BrokenPipeError)
              (set_send_queue (fun _ => []) r)).
Proof.
  intros Hr Hreq (ty & Hty & Hping) Hp Ha Hc Hprio Hpush Hbudget.
  unfold handle, handle_entry, on_request, store_request, mbind, M_bind, gets.
  rewrite Hr. cbn [sock_request]. rewrite Hreq, Hty. cbn [lift mret M_ret].
  rewrite Hping.
  unfold new_place_request, on_request, store_request, mbind, M_bind,
    modify, gets.
  cbn [requests set_requests]. rewrite lookup_insert_eq.
  rewrite Hp. cbn [ebind]. rewrite Ha. cbn [ebind].
  assert (Harea :
    match py_float areav with
    | inl ValueError => Done float_zero
        (set_requests <[self:=set_send_queue (fun _ => []) r]>
           (set_requests <[self:=r]> w))
    | inl e => Raised e
        (set_requests <[self:=set_send_queue (fun _ => []) r]>
           (set_requests <[self:=r]> w))
    | inr a0 => Done a0
        (set_requests <[self:=set_send_queue (fun _ => []) r]>
           (set_requests <[self:=r]> w))
    end = Done a
        (set_requests <[self:=set_send_queue (fun _ => []) r]>
           (set_requests <[self:=r]> w))).
  { destruct Hprio as [-> | [-> ->]]; reflexivity. }
  rewrite Harea. cbn [lift mret M_ret requests set_requests].
  rewrite lookup_insert_eq, Hc.
  unfold task_queue_put, on_task_queue.
  cbn [lift mret M_ret task_queue set_requests address set_send_queue].
  rewrite Hpush. cbn [requests set_requests set_task_queue].
  rewrite lookup_insert_eq.
  unfold send_msg, netstring_write, netstring_read, mbind, M_bind.
  cbn [sock set_send_queue]. rewrite Hbudget.
  cbn. rewrite lookup_alter_eq, !lookup_insert_eq. done.
Qed.

(** X5: in the relay loop a broken pipe ends the handler quietly: the
    message is not written, no [done] follows, the socket is closed and
    the handler returns, leaving the rest of its queue where it is.  The
    [done] frame is written outside the [try]: a broken pipe there is not
    caught, and the handler dies without closing the socket. *)
Theorem relay_broken_pipe (store : list dict) (r : Request) (error : bool)
    (rest : list (option loc)) (k : nat) :
  handler r = HRelay error ->
  sock_wr_budget (sock r) = Some 0 ->
  (forall (l : loc) (d : dict),
     send_queue r = Some l :: rest -> store !! l = Some d -> d <> [] ->
     relay (S k) store r =
       set_handler HReturned
         (set_send_queue (fun _ => rest) (final_state (sock_close r)))) /\
  (send_queue r = None :: rest -> error = false ->
   relay (S k) store r =
     set_handler (HRaised BrokenPipeError) (set_send_queue (fun _ => rest) r)).
Proof.
  intros Hh Hb. split.
  - intros l d Hq Hl Hd. cbn [relay]. rewrite Hh, Hq.
    unfold relay_step. cbn [from_option]. rewrite Hl. cbn [default from_option id].
    assert (Ht : py_truthy (JObj d) = true) by (by destruct d).
    rewrite Ht.
    unfold relay_body, send_msg, netstring_write, mbind, M_bind.
    cbn [sock set_send_queue]. rewrite Hb.
    destruct k; cbn; done.
  - intros Hq ->. cbn [relay]. rewrite Hh, Hq.
    unfold relay_step. cbn [from_option py_truthy list_is_empty negb].
    unfold relay_finish, send_msg, netstring_write, mbind, M_bind.
    cbn [sock set_send_queue]. rewrite Hb.
    destruct k; cbn; done.
Qed.

(** X6: a client that answers a relayed message with anything but [ack]
    fails the [assert] of [send_msg]: the frame has been written, the
    handler dies of [AssertionError], the socket is left open and the
    messages still queued are never sent. *)
Theorem relay_refused_ack (store : list dict) (r : Request) (error : bool)
    (l : loc) (d : dict) (rest : list (option loc)) (reply : string)
    (k : nat) :
  handler r = HRelay error ->
  send_queue r = Some l :: rest ->
  store !! l = Some d ->
  d <> [] ->
  sock_wr_budget (sock r) <> Some 0 ->
  sock_reply (sock r) (sock_reads (sock r)) = Some reply ->
  reply <> "ack" ->
  let r' := relay (S k) store r in
  handler r' = HRaised AssertionError /\
  sock_out (sock r') = sock_out (sock r) ++ [JObj d] /\
  sock_closed (sock r') = sock_closed (sock r) /\
  send_queue r' = rest.
Proof.
  intros Hh Hq Hl Hd Hb Hrep Hne r'. subst r'.
  cbn [relay]. rewrite Hh, Hq.
  unfold relay_step. cbn [from_option]. rewrite Hl. cbn [default from_option id].
  assert (Ht : py_truthy (JObj d) = true) by (by destruct d).
  rewrite Ht.
  unfold relay_body, send_msg, netstring_write, netstring_read, mbind, M_bind.
  cbn [sock set_send_queue].
  assert (He : String.eqb reply "ack" = false) by (by apply String.eqb_neq).
  destruct (sock_wr_budget (sock r)) as [[|n]|]; [done| |];
    cbn; rewrite Hrep; cbn; rewrite He; destruct k; cbn; done.
Qed.


(** ** Failures of the upstream status *)

(** X7: [wait_for_slot] handles exactly two failures of
    [overpass.get_status]: for [OverpassError] and for [Timeout] it sends
    one mail, puts the one message [Can't access overpass API] on the queue
    of the job and returns [False], without sleeping.  Any other exception
    leaves [wait_for_slot] as it is: no mail, no message. *)
Theorem wait_for_slot_upstream_failure (c : nat) (w : world) (e : exn) :
  get_status (status_calls w) = inl e ->
  exists w',
    match e with
    | OverpassError url text =>
        wait_for_slot c w = Done false w' /\
        mails w' = mails w ++
          [("Overpass API unavailable",
            String.append "URL: " (String.append url
              (String.append newline (String.append newline
                 (String.append "response:" (String.append newline text))))))] /\
        objs w' = objs w ++ [cant_access] /\
        puts w' = puts w ++ [(c, Some (length (objs w)))]
    | Timeout =>
        wait_for_slot c w = Done false w' /\
        mails w' = mails w ++
          [("Overpass API timeout", "Timeout talking to overpass API")] /\
        objs w' = objs w ++ [cant_access] /\
        puts w' = puts w ++ [(c, Some (length (objs w)))]
    | _ =>
        wait_for_slot c w = Raised e w' /\
        mails w' = mails w /\ objs w' = objs w /\ puts w' = puts w
    end /\
    status_calls w' = S (status_calls w) /\
    sleeps w' = sleeps w /\ queries w' = queries w /\ files w' = files w.
Proof.
  intros Hst.
  unfold wait_for_slot, overpass_get_status, mail_send_mail, new_dict,
    queue_put, yield, mbind, M_bind, mret, M_ret, gets, modify, raise.
  rewrite Hst.
  destruct e; eexists; unfold suspend; cbn; repeat split; reflexivity.
Qed.


(** ** Messages of any type in the relay loop *)

Lemma relaying_with_step (store : list dict) (r : Request) (error : bool)
    (l : loc) (d : dict) (t : json) (rest : list (option loc)) :
  relaying_with error r ->
  store !! l = Some d ->
  dict_get d "type" = Some t ->
  exists r',
    relay_step store (Some l) error (set_send_queue (fun _ => rest) r) = r' /\
    relaying_with (error || has_type "error" (frame_of store l)) r' /\
    send_queue r' = rest /\
    sock_out (sock r') = sock_out (sock r) ++ [JObj d].
Proof.
  intros (Hh & Hb & Hc & Hack) Hl Ht.
  eexists; split; [reflexivity|].
  unfold relay_step, frame_of, has_type, frame_type. cbn [from_option].
  rewrite Hl. cbn [default from_option id]. rewrite Ht.
  assert (Hd : py_truthy (JObj d) = true) by (by destruct d).
  rewrite Hd.
  unfold relay_body, send_msg, netstring_write, netstring_read,
    mbind, M_bind, mret, M_ret. cbn.
  rewrite Hb. cbn. rewrite Hack. cbn. rewrite Ht. cbn.
  unfold relaying_with. cbn.
  destruct (is_str t "error"), error; cbn; repeat split; done.
Qed.

Lemma relaying_with_prefix (store : list dict) (pend : list loc) :
  forall (k : nat) (rest : list (option loc)) (r : Request) (error : bool),
    relaying_with error r ->
    send_queue r = map Some pend ++ rest ->
    Forall (fun l => exists d t,
              store !! l = Some d /\ dict_get d "type" = Some t) pend ->
    exists r',
      relay (length pend + k) store r = relay k store r' /\
      relaying_with
        (error || existsb (has_type "error") (map (frame_of store) pend)) r' /\
      send_queue r' = rest /\
      sock_out (sock r') = sock_out (sock r) ++ map (frame_of store) pend.
Proof.
  induction pend as [|l pend IH]; intros k rest r error Hr Hq Hall.
  - exists r. cbn. rewrite app_nil_r, orb_false_r. done.
  - apply Forall_cons in Hall as [(d & t & Hl & Ht) Hall].
    destruct (relaying_with_step store r error l d t (map Some pend ++ rest)
                Hr Hl Ht) as (r' & Hstep & Hr' & Hq' & Hout).
    destruct (IH k rest r' _ Hr' Hq' Hall) as (r'' & H1 & H2 & H3 & H4).
    exists r''. cbn [length plus relay]. destruct Hr as (Hh & Hr).
    rewrite Hh, Hq. cbn [map app]. rewrite Hstep.
    split; [exact H1|]. split.
    { cbn [existsb]. by rewrite orb_assoc. }
    split; [exact H3|].
    rewrite H4, Hout. cbn [map].
    replace (frame_of store l) with (JObj d)
      by (unfold frame_of; by rewrite Hl).
    by rewrite <- app_assoc.
Qed.

(** X8: the handler relays every message that is on its queue before the
    sentinel, each acknowledged by the client, and closes the socket; it
    writes [done] after them exactly when none of them had the type
    [error].  Messages that follow an error message are still relayed. *)
Theorem relay_error_suppresses_done (store : list dict) (pend : list loc)
    (r : Request) :
  relaying r ->
  send_queue r = map Some pend ++ [None] ->
  Forall (fun l => exists d t,
            store !! l = Some d /\ dict_get d "type" = Some t) pend ->
  handler (drain store r) = HReturned /\
  sock_closed (sock (drain store r)) = true /\
  send_queue (drain store r) = [] /\
  sock_out (sock (drain store r)) =
    sock_out (sock r) ++ map (frame_of store) pend ++
    (if existsb (has_type "error") (map (frame_of store) pend)
     then [] else [done_frame]).
Proof.
  intros Hr Hq Hall. unfold drain.
  rewrite Hq, length_app, length_map. cbn [length].
  destruct (relaying_with_prefix store pend 1 [None] r false Hr Hq Hall)
    as (r' & H1 & (Hh & Hb & Hc & Hack) & H3 & H4).
  rewrite H1. cbn [relay]. rewrite Hh, H3. cbn [orb].
  unfold relay_step, relay_finish, send_msg, netstring_write,
    netstring_read, sock_close, mbind, M_bind, mret, M_ret, modify. cbn.
  destruct (existsb _ _); cbn.
  - rewrite H4, app_nil_r. done.
  - rewrite Hb. cbn. rewrite Hack. cbn.
    rewrite H4, <- app_assoc. done.
Qed.

(** ** One dict for two messages *)

(** The handler takes its turn: it relays as many of the pending messages
    as the scheduler lets it. *)
Lemma client_view_suspend_part (w : world) (c : nat) (out : list json)
    (pend : list loc) :
  client_view w c out pend ->
  client_view (suspend w) c
    (out ++ map (frame_of (objs w)) (take (sched (yields w) c) pend))
    (drop (sched (yields w) c) pend).
Proof.
  intros (r & Hr & Hrel & Hout & Hq & Hall).
  set (k := sched (yields w) c).
  destruct (relay_prefix (objs w) (take k pend) (k - length (take k pend))
              (map Some (drop k pend)) r Hrel)
    as (r' & H1 & H2 & H3 & H4 & H5).
  { by rewrite Hq, <- map_app, take_drop. }
  { by apply Forall_take. }
  replace (length (take k pend) + (k - length (take k pend))) with k in H1
    by (rewrite length_take; lia).
  assert (Hrest : relay (k - length (take k pend)) (objs w) r' = r').
  { destruct (decide (k <= length pend)) as [Hk|Hk].
    - by rewrite length_take, Nat.min_l, Nat.sub_diag by lia.
    - apply relay_empty. rewrite H3, drop_ge by lia. done. }
  exists r'. unfold suspend. cbn. rewrite map_lookup_imap, Hr. cbn.
  fold k. rewrite H1, Hrest, H4, Hout.
  repeat split; try done; try apply H2. by apply Forall_drop.
Qed.

(** [to_client] on a dict that may be on the queue already. *)
Lemma client_view_to_client_again (w : world) (c : nat) (out : list json)
    (pend : list loc) (l : loc) (d : dict) (t : string) :
  client_view w c out pend ->
  objs w !! l = Some d ->
  t <> "error" ->
  client_view
    (add_put c (Some l)
       (set_requests (alter (set_send_queue (fun q => q ++ [Some l])) c)
          (set_objs (alter (fun d0 => dict_set d0 "type" (JStr t)) l) w)))
    c out (pend ++ [l]).
Proof.
  intros (r & Hr & Hrel & Hout & Hq & Hall) Hl Ht.
  assert (Hl' : alter (fun d0 => dict_set d0 "type" (JStr t)) l (objs w) !! l
                = Some (dict_set d "type" (JStr t))).
  { by rewrite list_lookup_alter_eq, Hl. }
  assert (Hplain : plain_message (dict_set d "type" (JStr t))).
  { exists t. split; [apply dict_get_set|done]. }
  exists (set_send_queue (fun q => q ++ [Some l]) r). cbn.
  rewrite lookup_alter_eq, Hr. cbn. rewrite Hq, map_app. cbn.
  repeat split; try done; try apply Hrel.
  apply Forall_app. split; [|apply Forall_singleton; eauto].
  eapply Forall_impl; [exact Hall|]. cbn. intros l' (d' & Hl1 & Hd').
  destruct (decide (l' = l)) as [->|Hne]; [eauto|].
  exists d'. by rewrite list_lookup_alter_ne.
Qed.

(** What the client has received once the handler has relayed what it
    finds on its queue. *)
Lemma client_view_frames (w : world) (c : nat) (out : list json)
    (pend : list loc) :
  client_view w c out pend ->
  client_frames w c = out ++ map (frame_of (objs w)) pend.
Proof.
  intros (r & Hr & Hrel & Hout & Hq & Hall).
  unfold client_frames, drain. rewrite Hr.
  destruct (relay_all (objs w) pend (length (send_queue r)) r Hrel Hq Hall)
    as (_ & _ & H3 & _); [by rewrite Hq, length_map|].
  by rewrite H3, Hout.
Qed.

(** X9: [to_client] sets ['type'] in the dict it is given and puts that
    same dict on the queue, and [process_queue] passes one dict first as
    [run_query], then as [chunk].  When the handler, at its turn while the
    query runs, does not get as far as the [run_query] entry (it relays
    nothing, or only the status message still on its queue), that entry
    is relayed after the dict has become the [chunk] message: the client
    receives the [chunk] frame twice and no [run_query] frame. *)
Theorem process_chunk_lagging_handler (place : json) (c num : nat)
    (w : world) (out : list json) (d : dict) (oql : json) (name : string)
    (slots : list Z) (content : list Byte.byte) :
  client_view w c out [] ->
  dict_get d "oql" = Some oql ->
  py_truthy oql = true ->
  dict_get d "filename" = Some (JStr name) ->
  files w !! String.append "overpass/" name = None ->
  get_status (status_calls w) = inr slots ->
  run_query (length (queries w)) oql = inr content ->
  open_write (S (length (queries w))) (String.append "overpass/" name)
    content = Written ->
  match slots with
  | secs :: _ =>
      if (secs <=? 0)%Z then sched (S (yields w)) c = 0
      else sched (S (S (yields w))) c = 0 \/
           (sched (S (yields w)) c = 0 /\ sched (S (S (yields w))) c = 1)
  | [] => sched (S (yields w)) c = 0
  end ->
  exists w',
    process_chunk place c num (JObj d) w = Done true w' /\
    client_frames w' c =
      out ++
      match slots with
      | secs :: _ =>
          if (secs <=? 0)%Z then []
          else [JObj [("type", JStr "status"); ("wait", JInt secs)]]
      | [] => []
      end ++
      [JObj (chunk_msg place num (JStr name) "chunk");
       JObj (chunk_msg place num (JStr name) "chunk")].
Proof.
  intros Hv Hoql Htrue Hname Hfile Hst Hrq Hwr Hlag.
  cbv [process_chunk py_get mbind M_bind mret M_ret lift gets modify raise
       new_dict os_path_exists check_free_space to_client queue_put
       write_file overpass_run_query yield py_getitem py_str_concat
       wait_for_slot overpass_get_status sleep].
  rewrite Hoql. cbn [default from_option id]. rewrite Htrue, Hname.
  cbn [negb files set_objs status_calls count_space_check].
  rewrite Hfile, bool_decide_eq_false_2 by (intros [? ?]; done).
  cbn [status_calls set_objs count_space_check].
  rewrite Hst.
  set (msg := [("num", JInt (Z.of_nat num)); ("filename", JStr name);
               ("place", place)]).
  set (l := length (objs w)).
  set (path := String.append "overpass/" name).
  (* From the [run_query] message on: the handler does not get to it. *)
  assert (Hfin : forall (s : world) (out3 : list json) (pend3 : list loc),
    client_view s c out3 pend3 ->
    objs s !! l = Some msg ->
    l ∉ pend3 ->
    sched (yields s) c <= length pend3 ->
    client_frames
      (add_put c (Some l)
         (set_requests (alter (set_send_queue (fun q => q ++ [Some l])) c)
            (set_objs (alter (fun d0 => dict_set d0 "type" (JStr "chunk")) l)
               (count_space_check
                  (set_files <[path := content]>
                     (suspend
                        (add_query oql
                           (add_put c (Some l)
                              (set_requests
                                 (alter (set_send_queue
                                           (fun q => q ++ [Some l])) c)
                                 (set_objs
                                    (alter (fun d0 =>
                                              dict_set d0 "type"
                                                (JStr "run_query")) l)
                                    s))))))))))
      c
    = out3 ++ map (frame_of (objs s)) pend3 ++
      [JObj (chunk_msg place num (JStr name) "chunk");
       JObj (chunk_msg place num (JStr name) "chunk")]).
  { intros s out3 pend3 Hvs Hl Hnotin Hk.
    assert (Hfr : forall (f : dict -> dict) (store : list dict)
              (pend : list loc),
      l ∉ pend ->
      map (frame_of (alter f l store)) pend = map (frame_of store) pend).
    { intros f store pend Hni. apply map_ext_Forall, Forall_forall.
      intros l' Hin. unfold frame_of.
      rewrite list_lookup_alter_ne; [done|]. by intros ->. }
    pose proof (client_view_to_client_again s c out3 pend3 l msg "run_query"
                  Hvs Hl ltac:(done)) as HA.
    match type of HA with client_view ?A _ _ _ =>
      pose proof (client_view_suspend_part (add_query oql A) c _ _
                    (client_view_ext A _ c _ _ eq_refl eq_refl HA)) as HB
    end.
    cbn [yields objs add_query add_put set_requests set_objs] in HB.
    rewrite take_app_le, drop_app_le in HB by lia.
    set (wB := suspend _) in *.
    assert (HlB : objs wB !! l
                  = Some (dict_set msg "type" (JStr "run_query"))).
    { unfold wB, suspend. cbn. by rewrite list_lookup_alter_eq, Hl. }
    set (wC := count_space_check (set_files (insert path content) wB)).
    pose proof (client_view_to_client_again wC c _ _ l _ "chunk"
                  (client_view_ext wB wC c _ _ eq_refl eq_refl HB) HlB
                  ltac:(done)) as HC.
    rewrite (client_view_frames _ c _ _ HC).
    cbn [objs add_put set_requests set_objs count_space_check set_files].
    assert (HoC : objs wC
                  = alter (fun d0 => dict_set d0 "type" (JStr "run_query")) l
                      (objs s)) by reflexivity.
    rewrite HoC, !map_app.
    assert (Hni : (l ∉ take (sched (yields s) c) pend3) /\
                  (l ∉ drop (sched (yields s) c) pend3)).
    { rewrite <- (take_drop (sched (yields s) c) pend3) in Hnotin.
      split; intros Hin; apply Hnotin, elem_of_app; auto. }
    destruct Hni as (Hni1 & Hni2).
    rewrite !Hfr by done.
    rewrite <- !app_assoc, (app_assoc (map _ (take _ _))), <- map_app,
      take_drop.
    do 2 f_equal. cbn [map]. unfold frame_of.
    rewrite !list_lookup_alter_eq, Hl. reflexivity. }
  destruct (client_view_new_dict w c out [] msg Hv) as (Hv1 & _ & _).
  pose proof (client_view_suspend_part
                (count_status (count_space_check
                   (set_objs (fun o => o ++ [msg]) w))) c out []
                (client_view_ext _ _ c out [] eq_refl eq_refl Hv1)) as Hv2.
  rewrite take_nil, drop_nil, app_nil_r in Hv2.
  assert (Hl : (objs w ++ [msg]) !! l = Some msg).
  { by rewrite lookup_app_r, Nat.sub_diag by (unfold l; lia). }
  assert (Hlen : length (queries w ++ [oql]) = S (length (queries w))).
  { rewrite length_app. cbn [length]. lia. }
  destruct slots as [|secs rest];
    [|destruct (Z.leb_spec secs 0) as [Hle|Hgt]];
    cbv beta iota delta [negb];
    match goal with |- context [run_query (length ?q) oql] =>
      change (run_query (length q) oql)
        with (run_query (length (queries w)) oql)
    end;
    rewrite Hrq; cbv beta iota;
    match goal with |- context [open_write (length ?q) ?p content] =>
      change (open_write (length q) p content)
        with (open_write (length (queries w ++ [oql])) path content)
    end;
    rewrite Hlen; unfold path; rewrite Hwr; cbv beta iota;
    (eexists; split; [reflexivity|]).
  - etrans; [apply (Hfin _ out [] Hv2 Hl)|reflexivity].
    + apply not_elem_of_nil.
    + change (sched (S (yields w)) c <= 0). lia.
  - etrans; [apply (Hfin _ out [] Hv2 Hl)|reflexivity].
    + apply not_elem_of_nil.
    + change (sched (S (yields w)) c <= 0). lia.
  - set (st := [("type", JStr "status"); ("wait", JInt secs)]).
    set (w2 := suspend (count_status (count_space_check
                 (set_objs (fun o => o ++ [msg]) w)))) in *.
    destruct (client_view_new_dict w2 c out [] st Hv2) as (Hv3 & _ & _).
    assert (Hls : objs (set_objs (fun o => o ++ [st]) w2) !! length (objs w2)
                  = Some st).
    { cbn. by rewrite lookup_app_r, Nat.sub_diag by lia. }
    pose proof (client_view_put _ c out [] _ st Hv3 Hls
                  ltac:(by exists "status")) as Hv4.
    match type of Hv4 with client_view ?A _ _ _ =>
      pose proof (client_view_suspend_part (add_sleep secs A) c _ _
                    (client_view_ext A (add_sleep secs A) c _ _
                       eq_refl eq_refl Hv4)) as Hv5;
      assert (Hk1 : sched (yields (add_sleep secs A)) c
                    = sched (S (yields w)) c) by reflexivity;
      assert (Ho : objs (add_sleep secs A) = (objs w ++ [msg]) ++ [st])
        by reflexivity
    end.
    rewrite Hk1, Ho in Hv5. cbn [app] in Hv5.
    assert (Hlw2 : length (objs w2) = S l).
    { change (length (objs w ++ [msg]) = S l). rewrite length_app. cbn.
      unfold l. lia. }
    assert (Hfst : frame_of ((objs w ++ [msg]) ++ [st]) (length (objs w2))
                   = JObj st).
    { unfold frame_of. rewrite Hlw2.
      rewrite lookup_app_r by (rewrite length_app; cbn; unfold l; lia).
      rewrite length_app. cbn [length].
      by replace (S l - (length (objs w) + 1)) with 0 by (unfold l; lia). }
    etrans; [apply (Hfin _ _ _ Hv5)|].
    + change (((objs w ++ [msg]) ++ [st]) !! l = Some msg).
      rewrite lookup_app_l by (rewrite length_app; cbn; unfold l; lia).
      exact Hl.
    + intros Hin. destruct (sched (S (yields w)) c) as [|k1]; cbn in Hin.
      * apply list_elem_of_singleton in Hin. lia.
      * rewrite drop_nil in Hin. by apply not_elem_of_nil in Hin.
    + change (sched (S (S (yields w))) c
              <= length (drop (sched (S (yields w)) c) [length (objs w2)])).
      destruct Hlag as [->|[-> ->]]; cbn; lia.
    + change (objs (suspend ?x)) with (objs x). rewrite Ho.
      rewrite <- app_assoc, (app_assoc (map _ (take _ _))), <- map_app,
        take_drop.
      cbn [map]. by rewrite Hfst.
Qed.


(** ** Fetching a chunk *)

(** A chunk that is not in the cache, with an upstream that answers: the
    state [w0] in which the response is written, and what the write makes
    of it. *)
Lemma process_chunk_fetch (place : json) (c num : nat) (w : world)
    (d : dict) (oql : json) (name : string) (slots : list Z)
    (content : list Byte.byte) :
  dict_get d "oql" = Some oql ->
  py_truthy oql = true ->
  dict_get d "filename" = Some (JStr name) ->
  files w !! String.append "overpass/" name = None ->
  get_status (status_calls w) = inr slots ->
  run_query (length (queries w)) oql = inr content ->
  exists w0,
    files w0 = files w /\
    queries w0 = queries w ++ [oql] /\
    status_calls w0 = S (status_calls w) /\
    space_checks w0 = S (space_checks w) /\
    mails w0 = mails w /\
    task_queue w0 = task_queue w /\
    match open_write (S (length (queries w)))
            (String.append "overpass/" name) content with
    | Written =>
        exists w',
          process_chunk place c num (JObj d) w = Done true w' /\
          files w' = <[String.append "overpass/" name := content]> (files w) /\
          queries w' = queries w0 /\
          status_calls w' = status_calls w0 /\
          space_checks w' = S (space_checks w0) /\
          mails w' = mails w /\
          task_queue w' = task_queue w
    | OpenRaises e => process_chunk place c num (JObj d) w = Raised e w0
    | WriteRaises e partial =>
        process_chunk place c num (JObj d) w =
          Raised e
            (set_files <[String.append "overpass/" name := partial]> w0)
    end.
Proof.
  intros Hoql Htrue Hname Hfile Hst Hrq.
  cbv [process_chunk py_get mbind M_bind mret M_ret lift gets modify raise
       new_dict os_path_exists check_free_space to_client queue_put
       write_file overpass_run_query yield py_getitem py_str_concat
       wait_for_slot overpass_get_status sleep].
  rewrite Hoql. cbn [default from_option id]. rewrite Htrue, Hname.
  cbn [negb files set_objs status_calls count_space_check].
  rewrite Hfile, bool_decide_eq_false_2 by (intros [? ?]; done).
  cbn [status_calls set_objs count_space_check].
  rewrite Hst.
  assert (Hlen : length (queries w ++ [oql]) = S (length (queries w))).
  { rewrite length_app. cbn [length]. lia. }
  destruct slots as [|secs rest];
    [|destruct (Z.leb_spec secs 0) as [Hle|Hgt]];
    unfold suspend;
    cbn [negb queries add_put set_requests set_objs count_yield add_sleep
         count_status count_space_check];
    rewrite Hrq; cbv beta iota;
    cbn [queries add_query add_put set_requests set_objs count_yield
         add_sleep count_status count_space_check];
    rewrite Hlen;
    (eexists; split_and!;
     [..|destruct (open_write (S (length (queries w)))
                     (String.append "overpass/" name) content);
         [eexists; split; [reflexivity|]|reflexivity..]]);
    cbn; done.
Qed.

(** X10: a chunk is fetched once.  The first time, the worker checks the
    free space, asks the upstream for its status once and runs the query
    once.  When the answer is written to the cache file of the chunk, the
    other files are left alone and the space is checked again; processed
    again, for any job, the same chunk causes no call of the upstream and
    no write.  When [open] raises, the exception leaves the worker with
    the query made and nothing in the cache. *)
Theorem process_chunk_fetch_once (place place' : json) (c c' num num' : nat)
    (w : world) (d : dict) (oql : json) (name : string) (slots : list Z)
    (content : list Byte.byte) :
  dict_get d "oql" = Some oql ->
  py_truthy oql = true ->
  dict_get d "filename" = Some (JStr name) ->
  files w !! String.append "overpass/" name = None ->
  get_status (status_calls w) = inr slots ->
  run_query (length (queries w)) oql = inr content ->
  match open_write (S (length (queries w)))
          (String.append "overpass/" name) content with
  | Written =>
      exists w1 w2,
        process_chunk place c num (JObj d) w = Done true w1 /\
        files w1 !! String.append "overpass/" name = Some content /\
        (forall f, f <> String.append "overpass/" name ->
           files w1 !! f = files w !! f) /\
        queries w1 = queries w ++ [oql] /\
        status_calls w1 = S (status_calls w) /\
        space_checks w1 = S (S (space_checks w)) /\
        process_chunk place' c' num' (JObj d) w1 = Done true w2 /\
        files w2 = files w1 /\
        queries w2 = queries w1 /\
        status_calls w2 = status_calls w1 /\
        space_checks w2 = space_checks w1
  | OpenRaises e =>
      exists w1,
        process_chunk place c num (JObj d) w = Raised e w1 /\
        files w1 = files w /\
        queries w1 = queries w ++ [oql] /\
        status_calls w1 = S (status_calls w) /\
        space_checks w1 = S (space_checks w)
  | WriteRaises e partial =>
      exists w1,
        process_chunk place c num (JObj d) w = Raised e w1 /\
        files w1 = <[String.append "overpass/" name := partial]> (files w) /\
        queries w1 = queries w ++ [oql] /\
        status_calls w1 = S (status_calls w) /\
        space_checks w1 = S (space_checks w)
  end.
Proof.
  intros Hoql Htrue Hname Hfile Hst Hrq.
  destruct (process_chunk_fetch place c num w d oql name slots content
              Hoql Htrue Hname Hfile Hst Hrq)
    as (w0 & Hf0 & Hq0 & Hs0 & Hsp0 & _ & _ & Hrun).
  destruct (open_write (S (length (queries w)))
              (String.append "overpass/" name) content) as [|e|e partial].
  - destruct Hrun as (w1 & Hrun & Hf & Hqs & Hsc & Hsp & _ & _).
    assert (Hcached : cached (files w1) (JObj d)).
    { exists d. split; [done|]. intros _. exists name. split; [done|].
      rewrite Hf, lookup_insert_eq. by eexists. }
    destruct (process_chunk_skips_fetch place' c' num' (JObj d) w1 Hcached)
      as (w2 & Hrun2 & (Hf2 & Hq2 & Hs2 & _) & Hsp2 & _).
    exists w1, w2. rewrite Hf.
    split_and!; try done; try congruence;
      try apply lookup_insert_eq;
      try (intros f Hne; by rewrite lookup_insert_ne);
      try (by rewrite Hf2, Hf).
  - exists w0. done.
  - exists (set_files <[String.append "overpass/" name := partial]> w0).
    split_and!; try done. cbn. by rewrite Hf0.
Qed.

(** ** Jobs that are not what the worker expects *)

(** X11: the worker checks nothing about a job.  When ['chunks'] is not
    iterable, or when a chunk is not a dict, or has a query but no
    ['filename'], or a ['filename'] that is not a string, the exception
    leaves [process_queue] and the worker loop: the job has been taken off
    the queue, nothing is put on the queue of the job for that chunk, no
    error message and no sentinel, and the upstream is not called. *)
Theorem process_queue_malformed_job (fuel : nat) (w : world)
    (prio : spec_float) (job : item) (q' : list entry) :
  heapq.heappop entry_lt (task_queue w) = Done (prio, job) q' ->
  (forall e, py_iter (item_chunks job) = inl e ->
     process_queue_loop (S fuel) w = Some (Raised e (set_task_queue q' w))) /\
  (forall (pre post : list json) (bad : json) (w1 : world) (e : exn),
     item_chunks job = JArr (pre ++ bad :: post) ->
     process_chunks (item_place job) (item_queue job) 0 pre
       (set_task_queue q' w) = Done true w1 ->
     ((forall d, bad <> JObj d) /\ e = AttributeError) \/
     (exists d oql,
        bad = JObj d /\ dict_get d "oql" = Some oql /\ py_truthy oql = true /\
        ((dict_get d "filename" = None /\ e = KeyError "filename") \/
         (exists v, dict_get d "filename" = Some v /\
                    (forall s, v <> JStr s) /\ e = TypeError))) ->
     process_queue_loop (S fuel) w = Some (Raised e w1)).
Proof.
  intros Hpop. split.
  - intros e Hit. cbn [process_queue_loop].
    unfold process_queue, task_queue_get, on_task_queue, mbind, M_bind.
    destruct (task_queue w) as [|x q] eqn:Hq0; [discriminate|].
    rewrite Hpop. cbn [snd]. rewrite Hit. reflexivity.
  - intros pre post bad w1 e Hchunks Hpre Hbad.
    assert (Hstep : process_chunk (item_place job) (item_queue job)
                      (length pre) bad w1 = Raised e w1).
    { cbv [process_chunk py_get mbind M_bind mret M_ret lift gets modify raise
           new_dict os_path_exists py_getitem py_str_concat].
      destruct Hbad as [(Hnd & ->) | (d & oql & -> & Hoql & Htrue & Hfn)].
      - destruct bad as [| | | | | |d]; try done. by destruct (Hnd d).
      - rewrite Hoql. cbn [default from_option id]. rewrite Htrue. cbn [negb].
        destruct Hfn as [(-> & ->) | (v & -> & Hv & ->)]; [done|].
        destruct v as [| | | |s| |]; try done. by destruct (Hv s). }
    cbn [process_queue_loop].
    unfold process_queue, task_queue_get, on_task_queue, mbind, M_bind.
    destruct (task_queue w) as [|x q] eqn:Hq0; [discriminate|].
    rewrite Hpop. cbn [snd]. rewrite Hchunks. cbn [py_iter lift mret M_ret].
    rewrite (process_chunks_app _ _ pre (bad :: post) 0 _ w1 Hpre).
    cbn [process_chunks Nat.add]. unfold mbind, M_bind. rewrite Hstep.
    reflexivity.
Qed.

End Service.

(** ** The order of the priorities *)

Lemma SFcompare_swap (a b : spec_float) :
  SFcompare b a = CompOpp <$> SFcompare a b.
Proof.
  destruct a as [sa|sa| |sa ma ea], b as [sb|sb| |sb mb eb];
    try destruct sa; try destruct sb; try reflexivity; cbn;
    rewrite (Z.compare_antisym ea eb);
    destruct (ea ?= eb)%Z; cbn; try reflexivity;
    change (Pos.compare_cont Eq mb ma) with (Pos.compare mb ma);
    change (Pos.compare_cont Eq ma mb) with (Pos.compare ma mb);
    rewrite (Pos.compare_antisym ma mb);
    destruct (ma ?= mb)%positive; reflexivity.
Qed.

Lemma SFltb_total (a b : spec_float) :
  SFcompare a b <> None -> SFeqb a b = false -> SFltb a b = false -> SFltb b a = true.
Proof.
  unfold SFeqb, SFltb. rewrite (SFcompare_swap a b).
  destruct (SFcompare a b) as [[]|]; cbn; done.
Qed.

Lemma SFeqb_sym (a b : spec_float) : SFeqb b a = SFeqb a b.
Proof.
  unfold SFeqb. rewrite (SFcompare_swap a b).
  destruct (SFcompare a b) as [[]|]; reflexivity.
Qed.

Lemma SFltb_trans (a b c : spec_float) :
  SFltb a b = true -> SFltb b c = true -> SFltb a c = true.
Proof.
  unfold SFltb.
  destruct a as [sa|sa| |sa ma ea], b as [sb|sb| |sb mb eb],
    c as [sc|sc| |sc mc ec];
    try destruct sa; try destruct sb; try destruct sc; cbn;
    try discriminate; try reflexivity;
    change (Pos.compare_cont Eq ?x ?y) with (Pos.compare x y);
    destruct (Z.compare_spec ea eb), (Z.compare_spec eb ec),
      (Z.compare_spec ea ec); try lia; cbn; try discriminate;
      try reflexivity;
    destruct (Pos.compare_spec ma mb), (Pos.compare_spec mb mc),
      (Pos.compare_spec ma mc); try lia; cbn; try discriminate;
      try reflexivity.
Qed.

Lemma SFcompare_not_nan (a b : spec_float) :
  is_nan a = false -> is_nan b = false -> SFcompare a b <> None.
Proof. destruct a, b; cbn; done. Qed.

Lemma SFeqb_refl (a : spec_float) : is_nan a = false -> SFeqb a a = true.
Proof.
  unfold SFeqb. destruct a as [s|s| |s m e]; try destruct s; cbn; try done;
    intros _; rewrite Z.compare_refl;
    change (Pos.compare_cont Eq m m) with (Pos.compare m m);
    by rewrite Pos.compare_refl.
Qed.

(** ** The heap of [heapq] *)

Lemma parent_lt (i : nat) : 0 < i -> parent i < i.
Proof.
  unfold parent. intros Hi.
  pose proof (Nat.div_mod_eq (i - 1) 2) as Hd.
  pose proof (Nat.mod_upper_bound (i - 1) 2 ltac:(lia)). lia.
Qed.

Lemma parent_children (c pos : nat) :
  0 < c -> parent c = pos <-> c = 2 * pos + 1 \/ c = 2 * pos + 2.
Proof.
  unfold parent. intros Hc.
  pose proof (Nat.div_mod_eq (c - 1) 2) as Hd.
  pose proof (Nat.mod_upper_bound (c - 1) 2 ltac:(lia)).
  split.
  - intros <-. lia.
  - intros [-> | ->].
    + replace (2 * pos + 1 - 1) with (pos * 2) by lia. apply Nat.div_mul. lia.
    + replace (2 * pos + 2 - 1) with (1 + pos * 2) by lia.
      rewrite Nat.div_add by lia. reflexivity.
Qed.

Lemma half_bound (pos len : nat) : pos < len / 2 <-> 2 * pos + 2 <= len.
Proof.
  pose proof (Nat.div_mod_eq len 2) as Hd.
  pose proof (Nat.mod_upper_bound len 2 ltac:(lia)). lia.
Qed.

Section HeapCorrect.
Context {E : Type}.
Variable lt : E -> E -> exn + bool.
Variable R : E -> E -> Prop.
Hypothesis R_trans : forall x y z, R x y -> R y z -> R x z.

(** The list after two entries have changed places. *)
Lemma lookup_swap (heap : list E) (i j k : nat) (x y : E) :
  heap !! i = Some x -> heap !! j = Some y -> i <> j ->
  <[i := y]> (<[j := x]> heap) !! k =
    if decide (k = i) then Some y
    else if decide (k = j) then Some x else heap !! k.
Proof.
  intros Hi Hj Hne.
  assert (i < length heap) by (by eapply lookup_lt_Some).
  assert (j < length heap) by (by eapply lookup_lt_Some).
  destruct (decide (k = i)) as [->|Hki].
  - rewrite list_lookup_insert_eq; [done|]. by rewrite length_insert.
  - rewrite list_lookup_insert_ne by done.
    destruct (decide (k = j)) as [->|Hkj].
    + by rewrite list_lookup_insert_eq.
    + by rewrite list_lookup_insert_ne.
Qed.

Lemma decided_perm (h h' : list E) :
  h' ≡ₚ h -> decided lt R h -> decided lt R h'.
Proof.
  intros Hp (Hnd & Hdec). split.
  - by rewrite Hp.
  - intros x y Hx Hy. rewrite Hp in Hx, Hy. by apply Hdec.
Qed.

Lemma decided_lookup (h : list E) (i j : nat) (x y : E) :
  decided lt R h -> h !! i = Some x -> h !! j = Some y -> i <> j ->
  (lt x y = inr true /\ R x y) \/ (lt x y = inr false /\ R y x).
Proof.
  intros (Hnd & Hdec) Hi Hj Hne. apply Hdec.
  - by eapply list_elem_of_lookup_2.
  - by eapply list_elem_of_lookup_2.
  - intros ->. apply Hne. by eapply NoDup_lookup.
Qed.

Lemma sifting_down_root (h : list E) :
  sifting_down R h 0 -> heap_ok R h.
Proof. intros (Hedges & _) i Hi. apply Hedges; lia. Qed.

Lemma siftdown_loop_ok (fuel : nat) :
  forall (pos : nat) (h : list E),
    pos <= fuel -> pos < length h ->
    decided lt R h -> sifting_down R h pos ->
    exists h',
      heapq.siftdown_loop lt fuel 0 pos h = Done tt h' /\
      heap_ok R h' /\ h' ≡ₚ h.
Proof.
  induction fuel as [|fuel IH]; intros pos h Hfuel Hlen Hdec Hsift.
  { exists h. assert (pos = 0) as -> by lia.
    split; [done|]. split; [by apply sifting_down_root|done]. }
  cbn [heapq.siftdown_loop].
  destruct (decide (0 < pos)) as [Hpos|Hpos].
  2:{ exists h. assert (pos = 0) as -> by lia.
      split; [done|]. split; [by apply sifting_down_root|done]. }
  destruct Hsift as (Hedges & Hskip).
  pose proof (parent_lt pos Hpos) as Hpar. fold (parent pos).
  destruct (lookup_lt_is_Some_2 h pos Hlen) as [newitem Hn].
  destruct (lookup_lt_is_Some_2 h (parent pos) ltac:(lia)) as [p Hp].
  rewrite Hn, Hp.
  destruct (decided_lookup h pos (parent pos) newitem p Hdec Hn Hp
              ltac:(lia)) as [(-> & HR) | (-> & HR)].
  - set (h2 := <[pos := p]> (<[parent pos := newitem]> h)).
    assert (Hperm : h2 ≡ₚ h) by (by apply Permutation_insert_swap).
    assert (Hlk : forall k, h2 !! k =
              if decide (k = pos) then Some p
              else if decide (k = parent pos) then Some newitem
              else h !! k)
      by (intros; apply lookup_swap; [done|done|lia]).
    destruct (IH (parent pos) h2) as (h' & Hrun & Hok & Hp').
    + lia.
    + subst h2. rewrite !length_insert. lia.
    + by apply (decided_perm h).
    + split.
      * intros i Hi Hne x g Hx Hg. rewrite Hlk in Hx, Hg.
        repeat case_decide; simplify_eq; try lia; try done.
        -- eapply Hskip; try done.
        -- eapply R_trans; [exact HR|]. eapply Hedges; try done.
           by replace (parent i) with (parent pos).
        -- eapply Hedges; done.
      * intros Hpp c x g Hc Hpc Hx Hg. rewrite Hlk in Hg.
        pose proof (parent_lt (parent pos) Hpp).
        assert (Hgp : R g p).
        { repeat case_decide; simplify_eq; try lia.
          eapply (Hedges (parent pos)); try done. lia. }
        rewrite Hlk in Hx.
        repeat case_decide; simplify_eq; try lia; try done.
        eapply R_trans; [exact Hgp|]. eapply (Hedges c); try done.
        by rewrite Hpc.
    + exists h'. split; [exact Hrun|]. split; [done|]. by rewrite Hp'.
  - exists h. split; [done|]. split; [|done].
    intros i Hi. destruct (decide (i = pos)) as [->|]; [|by apply Hedges].
    intros x g Hx Hg. by simplify_eq.
Qed.

Lemma sifting_up_leaf (h : list E) (pos : nat) :
  ~ pos < length h / 2 -> sifting_up R h pos -> sifting_down R h pos.
Proof.
  intros Hleaf (Hedges & Hskip). split; [|exact Hskip].
  intros i Hi Hne.
  destruct (decide (parent i = pos)) as [Hp|Hp]; [|by apply Hedges].
  intros x g Hx Hg. apply lookup_lt_Some in Hx.
  apply parent_children in Hp; [|done]. rewrite half_bound in Hleaf. lia.
Qed.

Lemma siftup_loop_ok (fuel : nat) :
  forall (pos : nat) (h : list E),
    length h <= fuel + pos -> pos < length h ->
    decided lt R h -> sifting_up R h pos ->
    exists leaf h',
      heapq.siftup_loop lt fuel pos h = Done leaf h' /\
      sifting_down R h' leaf /\ leaf < length h' /\ h' ≡ₚ h.
Proof.
  induction fuel as [|fuel IH]; intros pos h Hfuel Hlen Hdec Hsift; [lia|].
  cbn [heapq.siftup_loop].
  destruct (decide (pos < length h / 2)) as [Hin|Hleaf].
  2:{ exists pos, h. split; [done|]. split; [by apply sifting_up_leaf|done]. }
  pose proof (proj1 (half_bound _ _) Hin) as Hchild.
  destruct Hsift as (Hedges & Hskip).
  match goal with |- context [match ?ch with inl _ => _ | inr _ => _ end] =>
    assert (Hchosen : exists c, ch = inr c /\ 0 < c /\ parent c = pos /\
              c < length h /\
              forall s x y, 0 < s -> parent s = pos -> s <> c ->
                h !! s = Some x -> h !! c = Some y -> R y x)
  end.
  { destruct (decide (2 * pos + 1 + 1 < length h)) as [Hright|Hright].
    - destruct (lookup_lt_is_Some_2 h (2 * pos + 1) ltac:(lia)) as [a Ha].
      destruct (lookup_lt_is_Some_2 h (2 * pos + 1 + 1) Hright) as [b Hb].
      rewrite Ha, Hb.
      destruct (decided_lookup h _ _ a b Hdec Ha Hb ltac:(lia))
        as [(-> & HR) | (-> & HR)]; cbn [ebind].
      + exists (2 * pos + 1). split; [done|]. split; [lia|].
        split; [apply parent_children; lia|]. split; [lia|].
        intros s x y Hs Hps Hne Hx Hy.
        apply parent_children in Hps; [|done].
        assert (s = 2 * pos + 1 + 1) as -> by lia. by simplify_eq.
      + exists (2 * pos + 1 + 1). split; [done|]. split; [lia|].
        split; [apply parent_children; lia|]. split; [lia|].
        intros s x y Hs Hps Hne Hx Hy.
        apply parent_children in Hps; [|done].
        assert (s = 2 * pos + 1) as -> by lia. by simplify_eq.
    - exists (2 * pos + 1). split; [done|]. split; [lia|].
      split; [apply parent_children; lia|]. split; [lia|].
      intros s x y Hs Hps Hne Hx Hy. apply lookup_lt_Some in Hx.
      apply parent_children in Hps; [|done]. lia. }
  destruct Hchosen as (c & -> & Hc & Hpc & Hclen & Hsmall).
  pose proof (parent_lt c Hc) as Hlt. rewrite Hpc in Hlt.
  destruct (lookup_lt_is_Some_2 h c Hclen) as [tmp1 H1].
  destruct (lookup_lt_is_Some_2 h pos Hlen) as [tmp2 H2].
  rewrite H1, H2.
  set (h2 := <[pos := tmp1]> (<[c := tmp2]> h)).
  assert (Hperm : h2 ≡ₚ h) by (by apply Permutation_insert_swap).
  assert (Hlk : forall k, h2 !! k =
            if decide (k = pos) then Some tmp1
            else if decide (k = c) then Some tmp2
            else h !! k)
    by (intros; apply lookup_swap; [done|done|lia]).
  destruct (IH c h2) as (leaf & h' & Hrun & Hdown & Hleaf & Hp').
  - subst h2. rewrite !length_insert. lia.
  - subst h2. rewrite !length_insert. lia.
  - by apply (decided_perm h).
  - split.
    + intros i Hi Hne Hnp x g Hx Hg. rewrite Hlk in Hx, Hg.
      pose proof (parent_lt i Hi).
      destruct (decide (i = pos)) as [->|Hip].
      * rewrite decide_False in Hg by lia.
        rewrite decide_False in Hg by done.
        injection Hx as <-. by eapply (Hskip Hi c).
      * rewrite decide_False in Hx by done.
        destruct (decide (parent i = pos)) as [Hpi|Hpi].
        -- injection Hg as <-. by eapply (Hsmall i).
        -- rewrite decide_False in Hg by done. by eapply (Hedges i).
    + intros _ d x g Hd Hpd Hx Hg. rewrite Hlk in Hx, Hg.
      pose proof (parent_lt d Hd).
      rewrite decide_False in Hx by lia.
      rewrite decide_False in Hx by lia.
      rewrite Hpc, decide_True in Hg by done. injection Hg as <-.
      eapply (Hedges d); try done; try lia. by rewrite Hpd.
  - exists leaf, h'. split; [exact Hrun|]. split; [done|].
    split; [done|]. by rewrite Hp'.
Qed.

(** The root of a heap is below every other entry. *)
Lemma heap_root_min (h : list E) (x0 : E) :
  heap_ok R h -> h !! 0 = Some x0 ->
  forall i y, 0 < i -> h !! i = Some y -> R x0 y.
Proof.
  intros Hok H0 i. induction (lt_wf i) as [i _ IH]. intros y Hi Hy.
  pose proof (parent_lt i Hi) as Hlt.
  destruct (lookup_lt_is_Some_2 h (parent i)) as [p Hp].
  { apply lookup_lt_Some in Hy. lia. }
  pose proof (Hok i Hi y p Hy Hp) as Hedge.
  destruct (decide (parent i = 0)) as [Hz|Hz].
  - rewrite Hz in Hp. by simplify_eq.
  - eapply R_trans; [|exact Hedge]. apply (IH (parent i)); [done|lia|done].
Qed.

Lemma heappush_ok (h : list E) (x : E) :
  decided lt R (h ++ [x]) -> heap_ok R h ->
  exists h',
    heapq.heappush lt x h = Done tt h' /\
    heap_ok R h' /\ h' ≡ₚ x :: h.
Proof.
  intros Hdec Hok.
  unfold heapq.heappush, heapq.siftdown, mbind, M_bind, gets, modify.
  destruct (siftdown_loop_ok (length h) (length h) (h ++ [x]))
    as (h' & Hrun & Hok' & Hperm).
  - done.
  - rewrite length_app. cbn. lia.
  - done.
  - split.
    + intros i Hi Hne y p Hy Hp.
      pose proof (parent_lt i Hi).
      assert (i < length h).
      { apply lookup_lt_Some in Hy. rewrite length_app in Hy. cbn in Hy. lia. }
      rewrite lookup_app_l in Hy, Hp by lia. by eapply Hok.
    + intros Hpos c y g Hc Hpc Hy Hg.
      pose proof (parent_lt c Hc).
      apply lookup_lt_Some in Hy. rewrite length_app in Hy. cbn in Hy. lia.
  - exists h'. split; [exact Hrun|]. split; [done|].
    rewrite Hperm. by rewrite Permutation_app_comm.
Qed.

Lemma decided_cons (x : E) (h : list E) :
  decided lt R (x :: h) -> decided lt R h.
Proof.
  intros (Hnd & Hdec). split.
  - by apply NoDup_cons in Hnd as [_ ?].
  - intros y z Hy Hz. apply Hdec; by apply list_elem_of_further.
Qed.

Lemma heappop_ok (h : list E) :
  decided lt R h -> heap_ok R h -> h <> [] ->
  exists x h',
    heapq.heappop lt h = Done x h' /\
    heap_ok R h' /\ h ≡ₚ x :: h' /\
    forall y, y ∈ h' -> R x y.
Proof.
  intros Hdec Hok Hne.
  unfold heapq.heappop, mbind, M_bind, gets, modify, raise, mret, M_ret.
  destruct (last h) as [lastelt|] eqn:Hlast.
  2:{ by apply last_None in Hlast. }
  destruct h as [|x0 t]; [done|].
  destruct t as [|x1 t].
  { cbn in Hlast. injection Hlast as <-. exists x0, []. cbn.
    split; [done|]. split; [|split; [done|]].
    - intros i Hi y p Hy. done.
    - intros y Hy. by apply elem_of_nil in Hy. }
  set (t' := removelast (x1 :: t)).
  assert (Ht : x1 :: t = t' ++ [lastelt]).
  { rewrite last_cons_cons in Hlast.
    rewrite (app_removelast_last lastelt (l := x1 :: t)) at 1 by done.
    f_equal. f_equal. clear -Hlast. revert x1 Hlast.
    induction t as [|x2 t IH]; intros x1 Hlast.
    - cbn in *. by injection Hlast.
    - rewrite last_cons_cons in Hlast. by apply IH. }
  change (removelast (x0 :: x1 :: t)) with (x0 :: t').
  cbn [insert list_insert].
  set (h1 := lastelt :: t').
  assert (Hperm1 : x0 :: x1 :: t ≡ₚ x0 :: h1).
  { rewrite Ht. subst h1. f_equiv. by rewrite Permutation_app_comm. }
  assert (Hdec1 : decided lt R h1).
  { eapply decided_cons, decided_perm; [symmetry; exact Hperm1|exact Hdec]. }
  assert (Hold : forall k y, 0 < k -> h1 !! k = Some y ->
            (x0 :: x1 :: t) !! k = Some y).
  { intros k y Hk Hy. rewrite Ht. destruct k as [|k]; [lia|].
    cbn in *. by apply lookup_app_l_Some. }
  unfold heapq.siftup, mbind, M_bind, gets.
  destruct (siftup_loop_ok (length h1) 0 h1)
    as (leaf & h2 & Hrun & Hdown & Hleaf & Hperm2).
  - lia.
  - cbn. lia.
  - done.
  - split; [|intros ?; lia].
    intros i Hi _ Hpi y p Hy Hp.
    eapply (Hok i Hi); apply Hold; try done. lia.
  - rewrite Hrun. unfold heapq.siftdown.
    destruct (siftdown_loop_ok leaf leaf h2)
      as (h3 & Hrun3 & Hok3 & Hperm3); try done.
    { by apply (decided_perm h1). }
    rewrite Hrun3. exists x0, h3. split; [done|]. split; [done|].
    split; [by rewrite Hperm3, Hperm2|].
    intros y Hy. rewrite Hperm3, Hperm2 in Hy.
    apply list_elem_of_lookup in Hy as [k Hk].
    destruct k as [|k].
    + cbn in Hk. injection Hk as <-.
      rewrite last_lookup in Hlast.
      eapply (heap_root_min _ x0 Hok eq_refl); [|exact Hlast]. cbn. lia.
    + eapply (heap_root_min _ x0 Hok eq_refl (S k)); [lia|].
      apply Hold; [lia|done].
Qed.
End HeapCorrect.

(** ** The order of the jobs *)

Lemma before_trans (x y z : entry) : before x y -> before y z -> before x z.
Proof. unfold before. apply SFltb_trans. Qed.

Lemma queue_decided (q : list entry) :
  NoDup q ->
  (forall x, x ∈ q -> is_nan (fst x) = false) ->
  (forall x y, x ∈ q -> y ∈ q -> x <> y -> SFeqb (fst x) (fst y) = false) ->
  decided entry_lt before q.
Proof.
  intros Hnd Hnan Hdist. split; [done|].
  intros x y Hx Hy Hne. unfold entry_lt, before, nan_constant.
  rewrite (Hdist x y Hx Hy Hne), (Hnan x Hx). cbn [andb orb].
  destruct (SFltb (fst x) (fst y)) eqn:Hlt; [by left|right].
  split; [done|]. apply SFltb_total; [|by apply Hdist|done].
  apply SFcompare_not_nan; by apply Hnan.
Qed.

Lemma queue_ok_perm (q q' : list entry) :
  q' ≡ₚ q -> heap_ok before q' -> queue_ok q -> queue_ok q'.
Proof.
  intros Hp Hheap (_ & Hnd & Hnan & Hdist).
  split; [done|]. split; [by rewrite Hp|]. split.
  - intros x Hx. rewrite Hp in Hx. by apply Hnan.
  - intros x y Hx Hy. rewrite Hp in Hx, Hy. by apply Hdist.
Qed.

(** C3, as the code has it: the queue holds [(area, item)] tuples, with no
    sequence number.  While the priorities in the queue differ from each
    other (and none is NaN), [put] and [get] do not raise, and [get]
    returns the job of strictly lowest priority, whatever the order of
    arrival.  Equal priorities are not ordered by insertion: when [put]
    compares the new entry with an entry of the same priority (its parent
    in the heap; the one job in the queue, when there is one), it raises
    [TypeError], and leaves the new entry at the end of the list. *)
Theorem task_queue_order :
  queue_ok [] /\
  (forall (w : world) (x : entry),
     queue_ok (task_queue w) ->
     is_nan (fst x) = false ->
     (forall y, y ∈ task_queue w -> SFeqb (fst x) (fst y) = false) ->
     exists w',
       task_queue_put x w = Done tt w' /\
       queue_ok (task_queue w') /\
       task_queue w' ≡ₚ x :: task_queue w) /\
  (forall (w : world),
     queue_ok (task_queue w) ->
     task_queue w <> [] ->
     exists x w',
       task_queue_get w = Done x w' /\
       queue_ok (task_queue w') /\
       task_queue w ≡ₚ x :: task_queue w' /\
       forall y, y ∈ task_queue w' -> SFltb (fst x) (fst y) = true) /\
  (forall (w : world) (x y : entry),
     task_queue w !! ((length (task_queue w) - 1) / 2) = Some x ->
     SFeqb (fst y) (fst x) = true ->
     exists w',
       task_queue_put y w = Raised TypeError w' /\
       task_queue w' = task_queue w ++ [y]) /\
  (forall (w : world) (x y : entry),
     task_queue w = [x] ->
     SFeqb (fst y) (fst x) = true ->
     exists w',
       task_queue_put y w = Raised TypeError w' /\
       task_queue w' = [x; y]).
Proof.
  split; [|split; [|split; [|split]]].
  - split; [|split; [|split]].
    + intros i Hi x p Hx. done.
    + constructor.
    + intros x Hx. by apply elem_of_nil in Hx.
    + intros x y Hx. by apply elem_of_nil in Hx.
  - intros w x (Hheap & Hnd & Hnan & Hdist) Hx Hfresh.
    assert (Hnotin : x ∉ task_queue w).
    { intros Hin. specialize (Hfresh x Hin).
      by rewrite SFeqb_refl in Hfresh. }
    assert (Hnd1 : NoDup (x :: task_queue w)) by (by constructor).
    assert (Hnan1 : forall y, y ∈ x :: task_queue w -> is_nan (fst y) = false).
    { intros y [->|Hy]%elem_of_cons; [done|by apply Hnan]. }
    assert (Hdist1 : forall y z, y ∈ x :: task_queue w -> z ∈ x :: task_queue w ->
              y <> z -> SFeqb (fst y) (fst z) = false).
    { intros y z [->|Hy]%elem_of_cons [->|Hz]%elem_of_cons Hne; try done.
      - by apply Hfresh.
      - rewrite SFeqb_sym. by apply Hfresh.
      - by apply Hdist. }
    destruct (heappush_ok entry_lt before before_trans (task_queue w) x)
      as (q' & Hrun & Hheap' & Hperm).
    { apply (decided_perm _ _ (x :: task_queue w)).
      - by rewrite Permutation_app_comm.
      - by apply queue_decided. }
    { done. }
    exists (set_task_queue q' w). unfold task_queue_put, on_task_queue.
    rewrite Hrun. split; [done|]. split; [|done]. cbn.
    split; [done|]. split; [by rewrite Hperm|]. split.
    + intros y Hy. rewrite Hperm in Hy. by apply Hnan1.
    + intros y z Hy Hz. rewrite Hperm in Hy, Hz. by apply Hdist1.
  - intros w (Hheap & Hnd & Hnan & Hdist) Hne.
    destruct (heappop_ok entry_lt before before_trans (task_queue w))
      as (x & q' & Hrun & Hheap' & Hperm & Hmin); try done.
    { by apply queue_decided. }
    exists x, (set_task_queue q' w). unfold task_queue_get, on_task_queue.
    destruct (task_queue w) as [|e q] eqn:Hq; [done|].
    rewrite Hrun. split; [done|]. cbn. split; [|split; [done|exact Hmin]].
    assert (Hsub : forall y, y ∈ q' -> y ∈ e :: q).
    { intros y Hy. rewrite Hperm. by apply list_elem_of_further. }
    split; [done|]. split.
    + rewrite Hperm in Hnd. by apply NoDup_cons in Hnd as [_ ?].
    + split.
      * intros y Hy. by apply Hnan, Hsub.
      * intros y z Hy Hz. apply Hdist; by apply Hsub.
  - intros w x y Hx Heq. exists (set_task_queue (task_queue w ++ [y]) w).
    unfold task_queue_put, on_task_queue.
    unfold heapq.heappush, heapq.siftdown, mbind, M_bind, gets, modify.
    pose proof (lookup_lt_Some _ _ _ Hx) as Hlt.
    destruct (length (task_queue w)) as [|n] eqn:Hn; [lia|].
    cbn [heapq.siftdown_loop]. rewrite decide_True by lia.
    rewrite lookup_app_r, Hn, Nat.sub_diag by lia. cbn [lookup list_lookup].
    rewrite lookup_app_l, Hx by lia.
    unfold entry_lt. rewrite Heq. done.
  - intros w x y Hq Heq. exists (set_task_queue [x; y] w).
    unfold task_queue_put, on_task_queue. rewrite Hq.
    unfold heapq.heappush, heapq.siftdown, mbind, M_bind, gets, modify. cbn.
    rewrite decide_True by lia. cbn. unfold entry_lt. rewrite Heq. done.
Qed.

(** ** Putting and getting in sequence *)

Lemma comparable_submseteq (xs ys : list entry) :
  ys ⊆+ xs -> comparable xs -> comparable ys.
Proof.
  intros Hsub (Hnd & Hnan & Hdist).
  assert (Hin : forall x, x ∈ ys -> x ∈ xs).
  { intros x Hx. by eapply elem_of_submseteq. }
  split.
  { apply submseteq_Permutation in Hsub as (k & Hk).
    rewrite Hk in Hnd. by apply NoDup_app in Hnd as (? & _). }
  split.
  - intros x Hx. by apply Hnan, Hin.
  - intros x y Hx Hy. apply Hdist; by apply Hin.
Qed.

Lemma comparable_perm (xs ys : list entry) :
  ys ≡ₚ xs -> comparable xs -> comparable ys.
Proof. intros Hp. apply comparable_submseteq. by rewrite Hp. Qed.

Lemma comparable_queue_ok (q : list entry) :
  heap_ok before q -> comparable q -> queue_ok q.
Proof. intros Hh (Hnd & Hnan & Hdist). done. Qed.

Lemma task_queue_put_ok (w : world) (x : entry) :
  heap_ok before (task_queue w) ->
  comparable (x :: task_queue w) ->
  exists w',
    task_queue_put x w = Done tt w' /\
    heap_ok before (task_queue w') /\
    task_queue w' ≡ₚ x :: task_queue w.
Proof.
  intros Hheap (Hnd & Hnan & Hdist).
  destruct (heappush_ok entry_lt before before_trans (task_queue w) x)
    as (q' & Hrun & Hheap' & Hperm).
  { apply (decided_perm _ _ (x :: task_queue w)).
    - by rewrite Permutation_app_comm.
    - by apply queue_decided. }
  { done. }
  exists (set_task_queue q' w). unfold task_queue_put, on_task_queue.
  rewrite Hrun. done.
Qed.

Lemma task_queue_get_ok (w : world) :
  heap_ok before (task_queue w) ->
  comparable (task_queue w) ->
  task_queue w <> [] ->
  exists x w',
    task_queue_get w = Done x w' /\
    heap_ok before (task_queue w') /\
    task_queue w ≡ₚ x :: task_queue w' /\
    forall y, y ∈ task_queue w' -> before x y.
Proof.
  intros Hheap (Hnd & Hnan & Hdist) Hne.
  destruct (heappop_ok entry_lt before before_trans (task_queue w))
    as (x & q' & Hrun & Hheap' & Hperm & Hmin); try done.
  { by apply queue_decided. }
  exists x, (set_task_queue q' w). unfold task_queue_get, on_task_queue.
  destruct (task_queue w) as [|e q] eqn:Hq; [done|].
  rewrite Hrun. done.
Qed.

Lemma put_all_ok (xs : list entry) :
  forall w,
    heap_ok before (task_queue w) ->
    comparable (xs ++ task_queue w) ->
    exists w',
      put_all xs w = Done tt w' /\
      heap_ok before (task_queue w') /\
      task_queue w' ≡ₚ xs ++ task_queue w.
Proof.
  induction xs as [|x xs IH]; intros w Hheap Hcmp.
  - exists w. done.
  - destruct (task_queue_put_ok w x Hheap) as (w1 & Hrun & Hheap1 & Hperm1).
    { eapply comparable_submseteq; [|exact Hcmp].
      cbn. apply submseteq_skip, submseteq_inserts_l. done. }
    destruct (IH w1 Hheap1) as (w2 & Hrun2 & Hheap2 & Hperm2).
    { eapply comparable_perm; [|exact Hcmp].
      rewrite Hperm1. cbn. by rewrite Permutation_middle. }
    exists w2. cbn [put_all]. unfold mbind, M_bind. rewrite Hrun.
    split; [exact Hrun2|]. split; [done|].
    rewrite Hperm2, Hperm1. cbn. by rewrite Permutation_middle.
Qed.

Lemma get_n_ok (n : nat) :
  forall w,
    heap_ok before (task_queue w) ->
    comparable (task_queue w) ->
    length (task_queue w) = n ->
    exists ys w',
      get_n n w = Done ys w' /\
      ys ≡ₚ task_queue w /\
      StronglySorted before ys /\
      task_queue w' = [].
Proof.
  induction n as [|n IH]; intros w Hheap Hcmp Hlen.
  - exists [], w. destruct (task_queue w); [|done].
    repeat split; try done. constructor.
  - destruct (task_queue_get_ok w Hheap Hcmp)
      as (x & w1 & Hrun & Hheap1 & Hperm & Hmin).
    { intros Hq. by rewrite Hq in Hlen. }
    assert (Hcmp1 : comparable (task_queue w1)).
    { eapply comparable_submseteq; [|exact Hcmp].
      rewrite Hperm. by apply submseteq_cons. }
    destruct (IH w1 Hheap1 Hcmp1) as (ys & w2 & Hrun2 & Hperm2 & Hsort & Hq2).
    { rewrite Hperm in Hlen. cbn in Hlen. lia. }
    exists (x :: ys), w2. cbn [get_n]. unfold mbind, M_bind.
    rewrite Hrun, Hrun2. split; [done|].
    split; [by rewrite Hperm, Hperm2|]. split; [|done].
    constructor; [done|].
    apply Forall_forall. intros y Hy. apply Hmin. by rewrite <- Hperm2.
Qed.

(** X12: jobs whose priorities are numbers that differ from each other,
    put on the empty task queue in any order, are all accepted, and as
    many calls of [task_queue.get()] return them in strictly ascending
    order of priority and leave the queue empty. *)
Theorem put_all_get_n_sorted (w : world) (xs : list entry) :
  task_queue w = [] ->
  comparable xs ->
  exists w1 ys w2,
    put_all xs w = Done tt w1 /\
    get_n (length xs) w1 = Done ys w2 /\
    ys ≡ₚ xs /\
    StronglySorted before ys /\
    task_queue w2 = [].
Proof.
  intros Hq Hcmp.
  destruct (put_all_ok xs w) as (w1 & Hrun & Hheap1 & Hperm1).
  { rewrite Hq. intros i Hi x p Hx. done. }
  { by rewrite Hq, app_nil_r. }
  rewrite Hq, app_nil_r in Hperm1.
  destruct (get_n_ok (length xs) w1 Hheap1) as (ys & w2 & Hrun2 & Hperm2 & Hs & Hq2).
  { by apply (comparable_perm xs). }
  { by rewrite Hperm1. }
  exists w1, ys, w2. repeat split; try done. by rewrite Hperm2.
Qed.

(** * Properties of matcher/place.py *)

(** ** Strings *)

Lemma str_app_cons (a : Ascii.ascii) (p s : string) :
  String a p +:+ s = String a (p +:+ s).
Proof. reflexivity. Qed.

Lemma str_startswith_app (p s : string) :
  str_startswith p (p +:+ s) = true.
Proof.
  induction p as [|a p IH]; [by destruct s|].
  rewrite str_app_cons. cbn [str_startswith].
  by rewrite Ascii.eqb_refl, IH.
Qed.

Lemma str_startswith_split (p s : string) :
  str_startswith p s = true -> s = p +:+ str_drop (String.length p) s.
Proof.
  revert s. induction p as [|a p IH]; intros s; [done|].
  cbn [str_startswith String.length str_drop]. rewrite str_app_cons.
  destruct s as [|b s]; [done|].
  intros [->%Ascii.eqb_eq Hp]%andb_true_iff. f_equal. by apply IH.
Qed.

Lemma str_drop_app (p s : string) :
  str_drop (String.length p) (p +:+ s) = s.
Proof. induction p as [|a p IH]; [done|exact IH]. Qed.

Lemma str_take_app (p s : string) :
  str_take (String.length p) (p +:+ s) = p.
Proof.
  induction p as [|a p IH]; [by destruct s|].
  rewrite str_app_cons. cbn [String.length str_take]. by rewrite IH.
Qed.

Lemma str_length_app (p s : string) :
  String.length (p +:+ s) = String.length p + String.length s.
Proof.
  induction p as [|a p IH]; [done|].
  rewrite str_app_cons. cbn [String.length]. by rewrite IH.
Qed.

Lemma str_app_assoc (p q s : string) :
  (p +:+ q) +:+ s = p +:+ q +:+ s.
Proof.
  induction p as [|a p IH]; [done|]. rewrite !str_app_cons. by rewrite IH.
Qed.

Lemma str_index_startswith (sub s : string) :
  str_index sub s = None -> str_startswith sub s = false.
Proof.
  destruct s; cbn; destruct (str_startswith sub _); done.
Qed.

(** The first [", "] of [x, rest] is the one after [x] when [x] holds
    none. *)
Lemma str_index_comma (x rest : string) :
  str_contains ", " x = false ->
  str_index ", " (x +:+ ", " +:+ rest) = Some (String.length x).
Proof.
  unfold str_contains.
  induction x as [|a x IH]; intros Hx; [done|].
  rewrite str_app_cons. cbn [String.length].
  destruct (str_index ", " (String a x)) as [i|] eqn:Hi; [done|].
  pose proof (str_index_startswith _ _ Hi) as Hs.
  cbn [str_index] in Hi |- *. rewrite Hs in Hi.
  destruct (str_index ", " x) as [j|] eqn:Hj; [done|].
  rewrite IH by done.
  assert (Hs' : str_startswith ", " (String a (x +:+ ", " +:+ rest)) = false).
  { cbn [str_startswith] in Hs |- *.
    destruct (Ascii.eqb _ a); [|done]. cbn [andb] in Hs |- *.
    destruct x as [|b x]; [done|]. rewrite str_app_cons.
    destruct (Ascii.eqb _ b); [|done]. done. }
  rewrite Hs'. done.
Qed.

Lemma str_find_comma (p x rest : string) :
  str_contains ", " x = false ->
  str_find (p +:+ x +:+ ", " +:+ rest) ", " (String.length p)
    = Z.of_nat (String.length (p +:+ x)).
Proof.
  intros Hx. unfold str_find.
  rewrite str_drop_app, (str_index_comma _ _ Hx), !str_length_app.
  by rewrite (proj2 (Nat.ltb_ge _ _)) by lia.
Qed.

(** ** [name] *)

Ltac exn_simpl :=
  repeat (unfold mbind, exn_bind, mret, exn_ret; cbn [ebind]).

(** X13: for a place that Nominatim calls just [City] (or [1st district])
    and whose display name goes on, after [City, ], with more than one
    part, [name] is the display name up to the second [, ]: [City] and the
    part that follows it.  With one part only after [City, ] the name
    stays [City].  In neither case does the slice lose a character:
    [find] is never -1 where it is used. *)
Theorem name_city_rule (self : dict) (nd : dict) (short x rest : string) :
  short ∈ ["City"; "1st district"] ->
  py_truthy (Place.attr self "override_name") = false ->
  Place.attr self "namedetails" = JObj nd ->
  dict_get nd "name:en" = Some (JStr short) \/
    (py_truthy (default JNull (dict_get nd "name:en")) = false /\
     dict_get nd "name" = Some (JStr short)) ->
  str_contains ", " x = false ->
  (Place.attr self "display_name"
     = JStr (short +:+ ", " +:+ x +:+ ", " +:+ rest) ->
   Place.name self = inr (JStr (short +:+ ", " +:+ x))) /\
  (Place.attr self "display_name" = JStr (short +:+ ", " +:+ x) ->
   Place.name self = inr (JStr short)).
Proof.
  intros Hshort Hov Hnd Hname Hx.
  assert (Hne : py_truthy (JStr short) = true).
  { apply elem_of_cons in Hshort as [->|Hshort]; [done|].
    apply list_elem_of_singleton in Hshort as ->. done. }
  assert (Hhead : forall display,
    Place.attr self "display_name" = display ->
    Place.name self
      = Place.name_loop ["City"; "1st district"] (JStr short) display).
  { intros display Hd. unfold Place.name. rewrite Hov, Hnd, Hd.
    cbn [py_get]. exn_simpl.
    destruct Hname as [Hen | (Hen & Hnm)].
    - rewrite Hen. cbn [default from_option id]. rewrite Hne.
      exn_simpl. by rewrite Hne.
    - rewrite Hen, Hnm. cbn [default from_option id]. exn_simpl.
      by rewrite Hne. }
  assert (Hfire : forall tail,
    str_startswith (short +:+ ", ") (short +:+ ", " +:+ tail) = true /\
    str_drop (String.length short + 2) (short +:+ ", " +:+ tail) = tail).
  { intros tail. rewrite <- str_app_assoc.
    split; [apply str_startswith_app|].
    replace (String.length short + 2) with (String.length (short +:+ ", "))
      by (rewrite str_length_app; done).
    apply str_drop_app. }
  split; intros Hd; rewrite (Hhead _ Hd).
  - assert (Hgo : forall shorts,
      Place.name_loop (short :: shorts) (JStr short)
        (JStr (short +:+ ", " +:+ x +:+ ", " +:+ rest))
      = inr (JStr (short +:+ ", " +:+ x))).
    { intros shorts. cbn [Place.name_loop is_str].
      rewrite String.eqb_refl.
      destruct (Hfire (x +:+ ", " +:+ rest)) as (-> & ->).
      unfold str_contains at 1. rewrite (str_index_comma _ _ Hx).
      cbn [andb]. do 2 f_equal.
      replace (String.length short + 2)
        with (String.length (short +:+ ", "))
        by (rewrite str_length_app; done).
      rewrite <- (str_app_assoc short ", " (x +:+ _)).
      rewrite (str_find_comma _ _ _ Hx).
      unfold str_upto. rewrite (proj2 (Z.leb_le _ _)) by lia.
      rewrite Nat2Z.id.
      rewrite <- (str_app_assoc _ x), str_take_app.
      by rewrite str_app_assoc. }
    apply elem_of_cons in Hshort as [->|Hshort]; [apply Hgo|].
    apply list_elem_of_singleton in Hshort as ->.
    etrans; [|apply (Hgo [])]. reflexivity.
  - assert (Hstay : forall shorts,
      Place.name_loop shorts (JStr short) (JStr (short +:+ ", " +:+ x))
      = inr (JStr short)).
    { induction shorts as [|s shorts IH]; [done|].
      cbn [Place.name_loop is_str].
      destruct (String.eqb short s) eqn:Hs; [|exact IH].
      apply String.eqb_eq in Hs as <-.
      destruct (Hfire x) as (-> & ->). rewrite Hx. exact IH. }
    apply Hstay.
Qed.

(** ** The names for changesets *)

(** X14: [name_for_changeset] needs the address of the place.  For a
    place whose [address] was never set (or is any other false value that
    is not a dict) it raises [AttributeError] at [address.get('country')],
    whatever the name is; [name_for_change_comment], which starts in the
    same way, returns the name, with [the] before it when it holds
    [ of ]. *)
Theorem name_for_changeset_needs_address (py_repr : json -> string)
    (self : dict) (n : string) :
  Place.name self = inr (JStr n) ->
  py_truthy (Place.attr self "address") = false ->
  (forall d, Place.attr self "address" <> JObj d) ->
  Place.name_for_changeset py_repr self = inl AttributeError /\
  Place.name_for_change_comment self
    = inr (JStr (if str_contains " of " n then "the " +:+ n else n)).
Proof.
  intros Hn Hfalse Hnd.
  unfold Place.name_for_changeset, Place.name_for_change_comment,
    Place.us_state_name.
  rewrite Hn, Hfalse. exn_simpl. split.
  - destruct (Place.attr self "address") as [| | | | | |d];
      try done. by destruct (Hnd d).
  - cbn [py_in]. exn_simpl. destruct (str_contains " of " n); done.
Qed.

(** X15: in the United States the state is added to the name.  When the
    address has the country code [us] and a state that is a non-empty
    string other than the name, both [name_for_changeset] and
    [name_for_change_comment] return [name, state]; the country is not
    looked at and no [the] is added. *)
Theorem us_state_is_appended (py_repr : json -> string) (self addr : dict)
    (n st : string) :
  Place.name self = inr (JStr n) ->
  Place.attr self "address" = JObj addr ->
  dict_get addr "country_code" = Some (JStr "us") ->
  dict_get addr "state" = Some (JStr st) ->
  st <> "" ->
  n <> st ->
  Place.name_for_changeset py_repr self = inr (JStr (n +:+ ", " +:+ st)) /\
  Place.name_for_change_comment self = inr (JStr (n +:+ ", " +:+ st)).
Proof.
  intros Hn Haddr Hcc Hst Hne Hdiff.
  assert (Hus : Place.us_state_name (JObj addr) (JStr n)
                = inr (Some (JStr (n +:+ ", " +:+ st)))).
  { unfold Place.us_state_name.
    assert (Ht : py_truthy (JObj addr) = true) by (by destruct addr).
    rewrite Ht. cbn [py_get]. rewrite Hcc, Hst.
    cbn [default from_option id]. exn_simpl. cbn [is_str].
    change (String.eqb "us" "us") with true. cbv iota.
    exn_simpl. cbn [py_truthy py_eq].
    assert (Hst' : string_is_empty st = false) by (by destruct st).
    rewrite Hst'. apply String.eqb_neq in Hdiff. rewrite Hdiff.
    cbn [negb andb py_add_str py_str_concat]. exn_simpl.
    by rewrite str_app_assoc. }
  unfold Place.name_for_changeset, Place.name_for_change_comment.
  rewrite Hn, Haddr. exn_simpl. rewrite Hus. exn_simpl. done.
Qed.

(** ** [name_extra_detail] *)

(** X16: [name_extra_detail] returns what the display name holds after
    the name and [, ].  Whenever it returns a string, the display name is
    the English name, or else the local name, followed by [, ] and that
    string; and a place whose display name is its English name followed by
    [, ] and [extra] has the extra detail [extra]. *)
Theorem name_extra_detail_splits_display (self : dict) :
  (forall extra,
     Place.name_extra_detail self = inr (JStr extra) ->
     exists n v,
       (n = "name:en" \/ n = "name") /\
       py_getitem (Place.attr self "namedetails") n = inr (JStr v) /\
       Place.attr self "display_name" = JStr (v +:+ ", " +:+ extra)) /\
  (forall nd v extra,
     Place.attr self "namedetails" = JObj nd ->
     dict_get nd "name:en" = Some (JStr v) ->
     Place.attr self "display_name" = JStr (v +:+ ", " +:+ extra) ->
     Place.name_extra_detail self = inr (JStr extra)).
Proof.
  split.
  - intros extra.
    assert (Hloop : forall ns,
      Place.name_extra_detail_loop ns self = inr (JStr extra) ->
      exists n v,
        n ∈ ns /\
        py_getitem (Place.attr self "namedetails") n = inr (JStr v) /\
        Place.attr self "display_name" = JStr (v +:+ ", " +:+ extra)).
    { induction ns as [|n ns IH]; [done|].
      cbn [Place.name_extra_detail_loop]. exn_simpl.
      destruct (py_in n (Place.attr self "namedetails")) as [e|present];
        [done|].
      exn_simpl.
      assert (Hrest : Place.name_extra_detail_loop ns self
                      = inr (JStr extra) ->
        exists n0 v,
          n0 ∈ n :: ns /\
          py_getitem (Place.attr self "namedetails") n0 = inr (JStr v) /\
          Place.attr self "display_name" = JStr (v +:+ ", " +:+ extra)).
      { intros H. destruct (IH H) as (n0 & v & Hin & Hrest).
        exists n0, v. split; [by apply list_elem_of_further|done]. }
      destruct present; cbn [negb]; [|exact Hrest].
      destruct (py_getitem (Place.attr self "namedetails") n) as [e|v] eqn:Hv;
        [done|].
      exn_simpl. destruct v as [| | | |v| |]; try done.
      cbn [py_add_str]. exn_simpl.
      destruct (Place.attr self "display_name") as [| | | |display| |];
        try done.
      destruct (str_startswith (v +:+ ", ") display) eqn:Hs; [|exact Hrest].
      intros [= <-]. exists n, v. split; [by left|]. split; [done|].
      f_equal. rewrite <- str_app_assoc.
      by apply str_startswith_split. }
    intros H. destruct (Hloop _ H) as (n & v & Hin & Hrest).
    exists n, v. split; [|done].
    apply elem_of_cons in Hin as [->|Hin]; [by left|].
    apply list_elem_of_singleton in Hin as ->. by right.
  - intros nd v extra Hnd Hen Hd.
    unfold Place.name_extra_detail. cbn [Place.name_extra_detail_loop].
    rewrite Hnd, Hd. cbn [py_in py_getitem]. rewrite Hen. exn_simpl.
    cbn [negb py_add_str]. exn_simpl.
    rewrite <- str_app_assoc, str_startswith_app, str_drop_app. done.
Qed.

(** ** [export_name] *)

Lemma str_contains_char_cons (a b : Ascii.ascii) (s : string) :
  str_contains (String a "") (String b s)
    = Ascii.eqb a b || str_contains (String a "") s.
Proof.
  unfold str_contains. cbn [str_index str_startswith].
  destruct (Ascii.eqb a b); cbn [andb orb]; [by destruct s|].
  by destruct (str_index (String a "") s).
Qed.

Lemma str_contains_char_app (a : Ascii.ascii) (p q : string) :
  str_contains (String a "") (p +:+ q)
    = str_contains (String a "") p || str_contains (String a "") q.
Proof.
  induction p as [|b p IH]; [done|].
  rewrite str_app_cons, !str_contains_char_cons, IH. by rewrite orb_assoc.
Qed.

Lemma str_replace_char (a b : Ascii.ascii) (new s : string) :
  str_replace (String a "") new (String b s)
    = (if Ascii.eqb a b then new else String b "")
      +:+ str_replace (String a "") new s.
Proof.
  unfold str_replace.
  cbn [str_replace_from str_startswith String.length Nat.sub].
  by destruct (Ascii.eqb a b).
Qed.

Lemma str_replace_char_absent (a : Ascii.ascii) (new s : string) :
  str_contains (String a "") new = false ->
  str_contains (String a "") (str_replace (String a "") new s) = false.
Proof.
  intros Hnew. induction s as [|b s IH]; [done|].
  rewrite str_replace_char, str_contains_char_app, IH, orb_false_r.
  destruct (Ascii.eqb a b) eqn:Hab; [done|].
  by rewrite str_contains_char_cons, Hab.
Qed.

Lemma str_replace_char_other (a c : Ascii.ascii) (new s : string) :
  str_contains (String c "") new = false ->
  str_contains (String c "") s = false ->
  str_contains (String c "") (str_replace (String a "") new s) = false.
Proof.
  intros Hnew. induction s as [|b s IH]; [done|].
  rewrite str_contains_char_cons. intros [Hcb Hs]%orb_false_iff.
  rewrite str_replace_char, str_contains_char_app, (IH Hs), orb_false_r.
  destruct (Ascii.eqb a b); [done|].
  by rewrite str_contains_char_cons, Hcb.
Qed.

Lemma str_replace_char_id (a : Ascii.ascii) (new s : string) :
  str_contains (String a "") s = false ->
  str_replace (String a "") new s = s.
Proof.
  induction s as [|b s IH]; [done|].
  rewrite str_contains_char_cons. intros [Hab Hs]%orb_false_iff.
  by rewrite str_replace_char, Hab, (IH Hs).
Qed.

Lemma str_replace_char_app (a : Ascii.ascii) (new p q : string) :
  str_replace (String a "") new (p +:+ q)
    = str_replace (String a "") new p +:+ str_replace (String a "") new q.
Proof.
  induction p as [|b p IH]; [done|].
  rewrite str_app_cons, !str_replace_char, IH. by rewrite str_app_assoc.
Qed.

(** X17: the export name of a place is its name with every colon dropped
    and every space turned into an underscore, the other characters kept
    in their order.  It holds neither a colon nor a space, and a name
    without colons and spaces is its own export name. *)
Theorem export_name_has_no_space (self : dict) (n : string) :
  Place.name self = inr (JStr n) ->
  exists e,
    Place.export_name self = inr e /\
    e = fold_right
          (fun (c : Ascii.ascii) (rest : string) =>
             if String.eqb (String c "") ":" then rest
             else if String.eqb (String c "") " " then "_" +:+ rest
             else String c rest)
          "" (String.list_ascii_of_string n) /\
    str_contains ":" e = false /\
    str_contains " " e = false /\
    (str_contains ":" n = false -> str_contains " " n = false -> e = n).
Proof.
  intros Hn. unfold Place.export_name. rewrite Hn. exn_simpl.
  eexists. split; [reflexivity|]. split_and!.
  - clear Hn. induction n as [|c n IH]; [done|].
    cbn [String.list_ascii_of_string fold_right]. rewrite <- IH.
    rewrite str_replace_char, str_replace_char_app.
    cbn [String.eqb]. rewrite !(Ascii.eqb_sym c).
    destruct (Ascii.eqb _ c) eqn:Hc; [done|].
    rewrite str_replace_char.
    match goal with |- context [if Ascii.eqb ?a c then "_" else _] =>
      by destruct (Ascii.eqb a c)
    end.
  - apply str_replace_char_other; [done|].
    by apply str_replace_char_absent.
  - by apply str_replace_char_absent.
  - intros Hc Hs. rewrite (str_replace_char_id _ _ n) by exact Hc.
    by apply str_replace_char_id.
Qed.

(** ** Nominatim hits *)

Ltac exn_simpl_in H :=
  repeat (unfold mbind, exn_bind, mret, exn_ret in H; cbn [ebind] in H).

Lemma dict_get_set_ne (d : dict) (k k' : string) (v : json) :
  k <> k' -> dict_get (dict_set d k v) k' = dict_get d k'.
Proof.
  intros Hne. induction d as [|[k0 v0] d IH]; cbn.
  - by rewrite (proj2 (String.eqb_neq _ _) Hne).
  - destruct (String.eqb k0 k) eqn:E; cbn; [|by rewrite IH].
    apply String.eqb_eq in E as ->.
    by rewrite (proj2 (String.eqb_neq _ _) Hne).
Qed.

Lemma attr_set (d : dict) (k k' : string) (v : json) :
  Place.attr (dict_set d k v) k'
    = if decide (k = k') then v else Place.attr d k'.
Proof.
  unfold Place.attr. destruct (decide (k = k')) as [<-|Hne].
  - by rewrite dict_get_set.
  - by rewrite dict_get_set_ne.
Qed.

(** The comprehension copies the keys of the list that the hit has. *)
Lemma pick_dict (keys : list string) (d : dict) :
  forall n,
    exists n',
      Place.pick keys (JObj d) n = inr n' /\
      forall k,
        Place.attr n' k =
          if decide (k ∈ keys)
          then match dict_get d k with
               | Some v => v
               | None => Place.attr n k
               end
          else Place.attr n k.
Proof.
  induction keys as [|k0 keys IH]; intros n.
  - exists n. split; [done|]. intros k.
    by rewrite decide_False by apply not_elem_of_nil.
  - cbn [Place.pick py_in py_getitem]. exn_simpl.
    destruct (dict_get d k0) as [v0|] eqn:H0; exn_simpl.
    + destruct (IH (dict_set n k0 v0)) as (n' & -> & Hn').
      exists n'. split; [done|]. intros k. rewrite Hn', attr_set.
      destruct (decide (k0 = k)) as [<-|Hne].
      * rewrite H0. rewrite (decide_True (P := k0 ∈ k0 :: keys))
          by apply list_elem_of_here.
        by destruct (decide (k0 ∈ keys)).
      * destruct (decide (k ∈ keys)) as [Hin|Hnin].
        -- by rewrite decide_True by (by apply list_elem_of_further).
        -- rewrite decide_False; [done|].
           intros [->|?]%elem_of_cons; done.
    + destruct (IH n) as (n' & -> & Hn').
      exists n'. split; [done|]. intros k. rewrite Hn'.
      destruct (decide (k ∈ keys)) as [Hin|Hnin].
      * by rewrite decide_True by (by apply list_elem_of_further).
      * destruct (decide (k ∈ k0 :: keys)) as [[->|?]%elem_of_cons|];
          [by rewrite H0|done|done].
Qed.

(** Anything but a dict fails at the first subscript with a key. *)
Lemma pick_not_dict (keys : list string) (hit : json) :
  (forall d, hit <> JObj d) ->
  forall n,
    Place.pick keys hit n = inl TypeError \/
    exists n', Place.pick keys hit n = inr n'.
Proof.
  intros Hnd. induction keys as [|k0 keys IH]; intros n; [right; by eexists|].
  cbn [Place.pick].
  destruct hit as [| | | |s|l|d]; try (by left); [| |by destruct (Hnd d)];
    cbn [py_in py_getitem]; exn_simpl.
  - destruct (str_contains k0 s); [by left|apply IH].
  - destruct (existsb _ l); [by left|apply IH].
Qed.

Lemma from_nominatim_made (hit : json) (p : dict) :
  Place.from_nominatim hit = inr p ->
  exists d bbox,
    hit = JObj d /\
    dict_get d "boundingbox" = Some bbox /\
    py_iter bbox = inr (Place.bbox p) /\
    (forall k, k ∈ Place.nominatim_keys ->
       Place.attr p k = default JNull (dict_get d k)) /\
    dict_get d "geotext" = Some (Place.attr p "geom") /\
    Place.attr p "radius" =
      (if is_str (default JNull (dict_get d "osm_type")) "node"
       then JInt 1000 else JNull) /\
    (forall k,
       k ∉ Place.nominatim_keys ++
           ["radius"; "south"; "north"; "west"; "east"; "geom"] ->
       Place.attr p k = JNull).
Proof.
  intros Hrun.
  destruct hit as [| | | |s|l|d];
    try (exfalso; revert Hrun; unfold Place.from_nominatim;
         match goal with
         | |- context [Place.pick ?ks ?h ?n] =>
             destruct (pick_not_dict ks h ltac:(done) n) as [->|(n' & ->)]
         end; exn_simpl; done).
  unfold Place.from_nominatim in Hrun.
  destruct (pick_dict Place.nominatim_keys d []) as (n & Hpick & Hn).
  rewrite Hpick in Hrun. cbn [py_getitem] in Hrun. exn_simpl_in Hrun.
  destruct (dict_get d "osm_type") as [ty|] eqn:Hty; [|done].
  exn_simpl_in Hrun.
  destruct (dict_get d "boundingbox") as [bbox|] eqn:Hbb; [|done].
  exn_simpl_in Hrun.
  destruct (py_iter bbox) as [e|parts] eqn:Hit; [done|].
  exn_simpl_in Hrun.
  destruct parts as [|south [|north [|west [|east [|]]]]]; try done.
  destruct (dict_get d "geotext") as [geom|] eqn:Hgeo; [|done].
  exn_simpl_in Hrun. injection Hrun as <-.
  exists d, bbox. split; [done|]. split; [done|].
  assert (Hempty : forall k, Place.attr [] k = JNull) by done.
  split; [|split; [|split; [|split]]].
  - unfold Place.bbox. rewrite !attr_set.
    repeat (case_decide; try done).
  - intros k Hk. rewrite !attr_set.
    assert (Hk' := Hk). unfold Place.nominatim_keys in Hk'.
    repeat (apply elem_of_cons in Hk' as [->|Hk']; [
      rewrite !decide_False by done;
      destruct (is_str ty "node"); rewrite ?attr_set, ?decide_False by done;
      rewrite Hn, decide_True by exact Hk;
      by destruct (dict_get d _)|]).
    by apply elem_of_nil in Hk'.
  - by rewrite attr_set, decide_True.
  - rewrite Hty. cbn [default from_option id].
    rewrite !attr_set, !decide_False by done.
    destruct (is_str ty "node"); [by rewrite attr_set, decide_True|].
    rewrite Hn, decide_False; [done|].
    intros H. unfold Place.nominatim_keys in H.
    repeat (apply elem_of_cons in H as [?|H]; [done|]).
    by apply elem_of_nil in H.
  - intros k Hk. rewrite !not_elem_of_app in Hk. destruct Hk as (Hk1 & Hk2).
    assert (Hne : forall k', k' ∈ ["radius"; "south"; "north"; "west";
                                    "east"; "geom"] -> k' <> k).
    { intros k' Hin ->. done. }
    rewrite !attr_set.
    rewrite !decide_False
      by (apply Hne; repeat (first [apply list_elem_of_here
                                   | apply list_elem_of_further])).
    destruct (is_str ty "node"); rewrite ?attr_set, ?decide_False
      by (apply Hne; repeat (first [apply list_elem_of_here
                                   | apply list_elem_of_further]));
      by rewrite Hn, decide_False.
Qed.

(** X18: what [from_nominatim] makes of a hit.  The instance has the
    bounding box of the hit, in its order (south, north, west, east), its
    ['geotext'] as geometry, every listed key that the hit has, and [None]
    for the listed keys that it lacks; the radius is 1000 for a node and
    unset otherwise.  Nothing else of the hit is copied. *)
Theorem from_nominatim_attributes (hit : json) (p : dict) :
  Place.from_nominatim hit = inr p ->
  exists d bbox,
    hit = JObj d /\
    dict_get d "boundingbox" = Some bbox /\
    py_iter bbox = inr (Place.bbox p) /\
    (forall k, k ∈ Place.nominatim_keys ->
       Place.attr p k = default JNull (dict_get d k)) /\
    dict_get d "geotext" = Some (Place.attr p "geom") /\
    Place.attr p "radius" =
      (if is_str (default JNull (dict_get d "osm_type")) "node"
       then JInt 1000 else JNull) /\
    (forall k,
       k ∉ Place.nominatim_keys ++
           ["radius"; "south"; "north"; "west"; "east"; "geom"] ->
       Place.attr p k = JNull).
Proof. apply from_nominatim_made. Qed.

(** X19: [from_nominatim] needs a dict with ['osm_type'], a
    ['boundingbox'] of exactly four parts and ['geotext'], and fails in
    that order: [TypeError] for a hit that is not a dict, [KeyError] for
    the missing key, [ValueError] for a bounding box that has not four
    parts. *)
Theorem from_nominatim_requires :
  (forall hit, (forall d, hit <> JObj d) ->
     Place.from_nominatim hit = inl TypeError) /\
  (forall d, dict_get d "osm_type" = None ->
     Place.from_nominatim (JObj d) = inl (KeyError "osm_type")) /\
  (forall d, is_Some (dict_get d "osm_type") ->
     dict_get d "boundingbox" = None ->
     Place.from_nominatim (JObj d) = inl (KeyError "boundingbox")) /\
  (forall d bbox parts, is_Some (dict_get d "osm_type") ->
     dict_get d "boundingbox" = Some bbox ->
     py_iter bbox = inr parts ->
     length parts <> 4 ->
     Place.from_nominatim (JObj d) = inl ValueError) /\
  (forall d bbox parts, is_Some (dict_get d "osm_type") ->
     dict_get d "boundingbox" = Some bbox ->
     py_iter bbox = inr parts ->
     length parts = 4 ->
     dict_get d "geotext" = None ->
     Place.from_nominatim (JObj d) = inl (KeyError "geotext")) /\
  (forall d bbox parts, is_Some (dict_get d "osm_type") ->
     dict_get d "boundingbox" = Some bbox ->
     py_iter bbox = inr parts ->
     length parts = 4 ->
     is_Some (dict_get d "geotext") ->
     exists p, Place.from_nominatim (JObj d) = inr p).
Proof.
  split.
  { intros hit Hnd. unfold Place.from_nominatim.
    destruct (pick_not_dict Place.nominatim_keys hit Hnd []) as [->|(n & ->)];
      [done|].
    exn_simpl. destruct hit as [| | | | | |d]; try done. by destruct (Hnd d). }
  assert (Hhead : forall d,
    exists n, Place.pick Place.nominatim_keys (JObj d) [] = inr n).
  { intros d. destruct (pick_dict Place.nominatim_keys d []) as (n & Hn & _).
    by exists n. }
  repeat split.
  - intros d Hty. unfold Place.from_nominatim.
    destruct (Hhead d) as (n & ->). cbn [py_getitem]. exn_simpl.
    by rewrite Hty.
  - intros d [ty Hty] Hbb. unfold Place.from_nominatim.
    destruct (Hhead d) as (n & ->). cbn [py_getitem]. exn_simpl.
    rewrite Hty. exn_simpl. by rewrite Hbb.
  - intros d bbox parts [ty Hty] Hbb Hit Hlen. unfold Place.from_nominatim.
    destruct (Hhead d) as (n & ->). cbn [py_getitem]. exn_simpl.
    rewrite Hty. exn_simpl. rewrite Hbb. exn_simpl. rewrite Hit. exn_simpl.
    by destruct parts as [|? [|? [|? [|? [|]]]]].
  - intros d bbox parts [ty Hty] Hbb Hit Hlen Hgeo.
    unfold Place.from_nominatim.
    destruct (Hhead d) as (n & ->). cbn [py_getitem]. exn_simpl.
    rewrite Hty. exn_simpl. rewrite Hbb. exn_simpl. rewrite Hit. exn_simpl.
    destruct parts as [|? [|? [|? [|? [|]]]]]; try done.
    by rewrite Hgeo.
  - intros d bbox parts [ty Hty] Hbb Hit Hlen [geom Hgeo].
    unfold Place.from_nominatim.
    destruct (Hhead d) as (n & ->). cbn [py_getitem]. exn_simpl.
    rewrite Hty. exn_simpl. rewrite Hbb. exn_simpl. rewrite Hit. exn_simpl.
    destruct parts as [|? [|? [|? [|? [|]]]]]; try done.
    rewrite Hgeo. exn_simpl. by eexists.
Qed.

Lemma update_loop_dict (keys : list string) (d : dict) :
  forall self,
    exists p,
      Place.update_loop keys self (JObj d) = inr p /\
      forall k,
        Place.attr p k =
          if decide (k ∈ keys) then default JNull (dict_get d k)
          else Place.attr self k.
Proof.
  induction keys as [|k0 keys IH]; intros self.
  - exists self. split; [done|]. intros k.
    by rewrite decide_False by apply not_elem_of_nil.
  - cbn [Place.update_loop py_get]. exn_simpl.
    destruct (IH (Place.setattr self k0 (default JNull (dict_get d k0))))
      as (p & -> & Hp).
    exists p. split; [done|]. intros k. rewrite Hp.
    unfold Place.setattr. rewrite attr_set.
    destruct (decide (k ∈ keys)) as [Hin|Hnin].
    + by rewrite decide_True by (by apply list_elem_of_further).
    + destruct (decide (k0 = k)) as [<-|Hne].
      * by rewrite decide_True by apply list_elem_of_here.
      * rewrite decide_False; [done|]. intros [->|?]%elem_of_cons; done.
Qed.

(** X20: [update_from_nominatim] sets eight attributes to what the hit
    has under their names, and to [None] those that the hit lacks, so that
    a value the place had is lost; the other attributes stay.  It changes
    nothing on a place that [from_nominatim] has just made from the same
    hit.  A hit that is not a dict raises [AttributeError] before any
    attribute is set. *)
Theorem update_from_nominatim_attributes (self : dict) (hit : json) :
  (forall d, hit = JObj d ->
     exists p,
       Place.update_from_nominatim self hit = inr p /\
       forall k,
         Place.attr p k =
           if decide (k ∈ ["display_name"; "category"; "type"; "place_rank";
                           "icon"; "extratags"; "address"; "namedetails"])
           then default JNull (dict_get d k)
           else Place.attr self k) /\
  ((forall d, hit <> JObj d) ->
   Place.update_from_nominatim self hit = inl AttributeError) /\
  (Place.from_nominatim hit = inr self ->
   exists p,
     Place.update_from_nominatim self hit = inr p /\
     forall k, Place.attr p k = Place.attr self k).
Proof.
  split; [|split].
  - intros d ->. apply update_loop_dict.
  - intros Hnd. destruct hit as [| | | | | |d]; try done. by destruct (Hnd d).
  - intros Hmade.
    destruct (from_nominatim_made hit self Hmade)
      as (d & bbox & -> & _ & _ & Hk & _).
    destruct (update_loop_dict
                ["display_name"; "category"; "type"; "place_rank"; "icon";
                 "extratags"; "address"; "namedetails"] d self)
      as (p & Hrun & Hp).
    exists p. split; [exact Hrun|]. intros k. rewrite Hp.
    destruct (decide _) as [Hin|]; [|done].
    symmetry. apply Hk.
    unfold Place.nominatim_keys.
    repeat (apply elem_of_cons in Hin as [->|Hin];
            [repeat (first [apply list_elem_of_here
                           | apply list_elem_of_further])|]).
    by apply elem_of_nil in Hin.
Qed.

(** The country, for a place outside the United States. *)
Lemma us_state_name_elsewhere (addr : dict) (n : json) :
  is_str (default JNull (dict_get addr "country_code")) "us" = false ->
  Place.us_state_name (JObj addr) n = inr None.
Proof.
  intros Hcc. unfold Place.us_state_name.
  destruct (py_truthy (JObj addr)); [|done].
  cbn [py_get]. exn_simpl. by rewrite Hcc.
Qed.

(** X22: outside the United States [name_for_changeset] adds the country
    in parentheses, unless the place has the name of its country; the
    state is not looked at. *)
Theorem country_in_parentheses (py_repr : json -> string) (self addr : dict)
    (n country : string) :
  Place.name self = inr (JStr n) ->
  Place.attr self "address" = JObj addr ->
  is_str (default JNull (dict_get addr "country_code")) "us" = false ->
  dict_get addr "country" = Some (JStr country) ->
  country <> "" ->
  Place.name_for_changeset py_repr self =
    inr (JStr (if String.eqb n country then n
               else n +:+ " (" +:+ country +:+ ")")).
Proof.
  intros Hn Haddr Hcc Hcountry Hne.
  unfold Place.name_for_changeset. rewrite Hn, Haddr. exn_simpl.
  rewrite (us_state_name_elsewhere _ _ Hcc). exn_simpl.
  cbn [py_get]. rewrite Hcountry. cbn [default from_option id]. exn_simpl.
  cbn [py_truthy py_eq Place.py_str].
  assert (Hc : string_is_empty country = false) by (by destruct country).
  rewrite Hc. cbn [negb andb].
  by destruct (String.eqb n country).
Qed.

(** ** [prefix] *)

Lemma str_of_int_inj (a b : Z) : str_of_int a = str_of_int b -> a = b.
Proof.
  unfold str_of_int. intros H.
  assert (Hnn : forall z, Z.to_int z <> Decimal.Pos Decimal.Nil /\
                          Z.to_int z <> Decimal.Neg Decimal.Nil).
  { intros [|p|p]; cbn; split; try done; intros [= Hp];
      by apply DecimalPos.Unsigned.to_uint_nonnil in Hp. }
  apply DecimalZ.to_int_inj.
  assert (Hs : Some (Z.to_int a) = Some (Z.to_int b)); [|by injection Hs].
  destruct (Hnn a) as (Ha1 & Ha2). destruct (Hnn b) as (Hb1 & Hb2).
  rewrite <- (DecimalString.NilZero.isi _ Ha1 Ha2).
  rewrite <- (DecimalString.NilZero.isi _ Hb1 Hb2).
  by rewrite H.
Qed.

(** X21: two places whose ids are different ints have different prefixes:
    the prefix is [osm_] followed by the decimal digits of the id. *)
Theorem prefix_injective (py_repr : json -> string) (p q : dict) (a b : Z) :
  Place.attr p "place_id" = JInt a ->
  Place.attr q "place_id" = JInt b ->
  Place.prefix py_repr p = Place.prefix py_repr q ->
  a = b.
Proof.
  unfold Place.prefix. intros -> ->. cbn [Place.py_str].
  intros H. apply String.app_inj in H. by apply str_of_int_inj.
Qed.

(** ** The statements at sample inputs *)

(** One request for a place with an uncached chunk, a chunk without query
    and a cached chunk, on an idle server. *)
Example run_three_chunks :
  let msg := place_request (place_of_area (JFloat float_2))
               [sample_chunk "q0" "f0"; sample_chunk_no_oql "f1";
                sample_chunk "q2" "f2"] in
  let w0 := sample_world {[ 0 := sample_request msg always_ack ]}
              {[ "overpass/f2" := [] ]} in
  exists w',
    process_queue status_wait_5 query_ok prompt_sched disk_writes
      (handle no_float 0 w0)
      = Done tt w' /\
    map frame_type (client_frames w' 0) =
      [Some (JStr "connected"); Some (JStr "status"); Some (JStr "run_query");
       Some (JStr "chunk"); Some (JStr "chunk"); Some (JStr "done")] /\
    omap frame_num (client_frames w' 0) = [0%Z; 0%Z; 2%Z].
Proof. eexists. split; [vm_compute; reflexivity|]. split; reflexivity. Qed.

Lemma wait_for_slot_status_ok_witness :
  exists w',
    wait_for_slot status_wait_5 prompt_sched 0 idle_world
      = Done true w' /\
    sleeps w' = [5%Z] /\
    puts w' = [(0, Some 0)].
Proof.
  destruct (wait_for_slot_status_ok status_wait_5 prompt_sched 0
              idle_world [5%Z] eq_refl)
    as (w' & Hrun & _ & _ & _ & Hwait).
  destruct (Hwait 5%Z [] eq_refl ltac:(lia)) as (_ & Hp & Hs).
  exists w'. split; [exact Hrun|]. split; [exact Hs | exact Hp].
Defined.

Ltac each_chunk tac :=
  repeat match goal with
         | |- Forall _ [] => constructor
         | |- Forall _ (_ :: _) => constructor; [tac|]
         end.

Ltac sample_chunks_ok :=
  each_chunk ltac:(
    eexists; split;
    [reflexivity
    | cbn; intros H; try discriminate H; eexists; reflexivity]).

Ltac sample_client_view :=
  eexists; split; [vm_compute; reflexivity|];
  split; [repeat split; intros; reflexivity|];
  split; [reflexivity|]; split; [reflexivity|constructor].

Lemma process_queue_chunk_frames_witness :
  let w := handle no_float 0
             (world_one_request three_chunks always_ack
                {[ "overpass/f2" := [] ]}) in
  exists w' r F,
    process_queue status_wait_5 query_ok prompt_sched disk_writes
      w = Done tt w' /\
    requests w' !! 0 = Some r /\
    handler (drain (objs w') r) = HReturned /\
    sock_closed (sock (drain (objs w') r)) = true /\
    sock_out (sock (drain (objs w') r)) =
      [connected_frame] ++ F ++ [done_frame] /\
    List.filter (has_type "chunk") F =
      chunk_frames (place_of_area (JFloat float_2)) 0 three_chunks /\
    StronglySorted Z.lt (omap frame_num (List.filter (has_type "chunk") F)) /\
    Forall (fun f => has_type "done" f = false /\
                     has_type "error" f = false) F.
Proof.
  intros w.
  eapply (process_queue_chunk_frames status_wait_5 query_ok prompt_sched
    disk_writes w 0
            [connected_frame] float_2
            (Item (place_of_area (JFloat float_2)) ("127.0.0.1", 4242)
               (JArr three_chunks) 0)
            [] three_chunks).
  - reflexivity.
  - reflexivity.
  - reflexivity.
  - unfold three_chunks. sample_chunks_ok.
  - sample_client_view.
  - split; intros; eexists; reflexivity.
  - unfold three_chunks.
    each_chunk ltac:(intros n name content _; reflexivity).
  - intros i. unfold prompt_sched. cbn. lia.
Defined.


Ltac sample_chunks_cached :=
  each_chunk ltac:(
    eexists; split;
    [reflexivity
    | cbn; intros H;
      first [discriminate H
            | eexists; split;
              [reflexivity | vm_compute; eexists; reflexivity]]]).

Lemma process_queue_all_cached_witness :
  let chunks := [sample_chunk "q2" "f2"; sample_chunk_no_oql "f1"] in
  let w := handle no_float 0
             (world_one_request chunks always_ack {[ "overpass/f2" := [] ]}) in
  (exists w',
     process_chunk status_down query_fails lazy_sched disk_writes
       (place_of_area (JFloat float_2)) 0 0 (sample_chunk "q2" "f2") w
       = Done true w' /\
     files w' = files w /\
     queries w' = queries w /\
     status_calls w' = status_calls w /\
     yields w' = yields w /\
     space_checks w' = space_checks w /\
     puts w' = puts w ++ [(0, Some (length (objs w)))] /\
     (true = true ->
      objs w' !! length (objs w) =
        Some (chunk_msg (place_of_area (JFloat float_2)) 0 (JStr "f2")
                "chunk"))) /\
  exists w' r,
    process_queue status_down query_fails lazy_sched disk_writes
      w = Done tt w' /\
    files w' = files w /\
    queries w' = queries w /\
    status_calls w' = status_calls w /\
    yields w' = yields w /\
    requests w' !! 0 = Some r /\
    sock_out (sock (drain (objs w') r)) =
      [connected_frame] ++
      chunk_frames (place_of_area (JFloat float_2)) 0 chunks ++ [done_frame] /\
    Forall (fun f => has_type "chunk" f = true /\
                     has_type "run_query" f = false)
      (chunk_frames (place_of_area (JFloat float_2)) 0 chunks).
Proof.
  intros chunks w.
  destruct (process_queue_all_cached status_down query_fails lazy_sched
    disk_writes)
    as [Hchunk Hjob].
  split.
  - apply (Hchunk (place_of_area (JFloat float_2)) 0 0
             (sample_chunk "q2" "f2") w).
    eexists. split; [reflexivity|]. intros _.
    eexists. split; [reflexivity | vm_compute; eexists; reflexivity].
  - eapply (Hjob w 0 [connected_frame] float_2
              (Item (place_of_area (JFloat float_2)) ("127.0.0.1", 4242)
                 (JArr chunks) 0)
              [] chunks).
    + reflexivity.
    + reflexivity.
    + reflexivity.
    + subst chunks. sample_chunks_cached.
    + sample_client_view.
Defined.

Lemma process_queue_loop_fetch_failure_witness :
  let w := handle no_float 1 (handle no_float 0 (world_two_requests ∅)) in
  exists w' P,
    process_queue_loop status_free query_fails prompt_sched disk_writes 5 w
      = Some (Raised (OtherError "ConnectionError") w') /\
    map fst (task_queue w') = [float_10] /\
    files w' = ∅ /\
    puts w' = P /\
    Forall (fun x => exists l, x = (0, Some l) /\
              has_type "error" (frame_of (objs w') l) = false) P.
Proof.
  intros w.
  destruct (process_queue_loop_fetch_failure status_free query_fails
              prompt_sched disk_writes 4 w
              (set_task_queue
                 [(float_10,
                   Item (place_of_area (JFloat float_10)) ("127.0.0.1", 4242)
                     (JArr [sample_chunk "q1" "f1"]) 1)] w)
              float_2
              (Item (place_of_area (JFloat float_2)) ("127.0.0.1", 4242)
                 (JArr [sample_chunk "q0" "f0"]) 0)
              [(float_10,
                Item (place_of_area (JFloat float_10)) ("127.0.0.1", 4242)
                  (JArr [sample_chunk "q1" "f1"]) 1)]
              [] [] [("oql", JStr "q0"); ("filename", JStr "f0")]
              (JStr "q0") "f0" [] (OtherError "ConnectionError")
              eq_refl eq_refl eq_refl eq_refl eq_refl eq_refl eq_refl eq_refl
              eq_refl)
    as (w' & P & Hrun & Hq & Hf & Hp & HP).
  exists w', P. split; [exact Hrun|]. split; [by rewrite Hq|].
  split; [exact Hf|]. split; [exact Hp | exact HP].
Defined.

Lemma handle_missing_key_witness :
  let msg := JObj [("place", JObj [("name", JStr "Zug")]);
                   ("chunks", JArr [])] in
  let w := sample_world {[ 0 := sample_request msg always_ack ]} ∅ in
  exists e r',
    requests (handle no_float 0 w) !! 0 = Some r' /\
    handler r' = HRaised e /\
    task_queue (handle no_float 0 w) = [] /\
    sock r' = Socket (Some msg) JSONDecodeError always_ack 0 [] None false.
Proof.
  intros msg w.
  eapply (handle_missing_key no_float w 0 (sample_request msg always_ack) msg).
  - reflexivity.
  - reflexivity.
  - intros ty H. injection H as <-. reflexivity.
  - right. left. eexists _, _. split; reflexivity.
Defined.

Lemma handle_place_request_priority_witness :
  let place := place_of_area (JStr "large") in
  let msg := place_request place [] in
  let w := sample_world {[ 0 := sample_request msg always_ack ]} ∅ in
  let job := (float_zero, Item place ("127.0.0.1", 4242) (JArr []) 0) in
  let other := (float_zero, Item (place_of_area (JInt 0)) ("127.0.0.1", 4243)
                              (JArr []) 1) in
  (exists r',
     requests (handle no_float 0 w) !! 0 = Some r' /\
     task_queue (handle no_float 0 w) = [job] /\
     send_queue r' = [] /\
     sock_out (sock r') = [connected_frame] /\
     handler r' = HRelay false) /\
  task_queue (handle no_float 0 (set_task_queue [other] w)) = [other; job] /\
  requests (handle no_float 0 (set_task_queue [other] w)) !! 0
    = Some (set_handler (HRaised TypeError) (sample_request msg always_ack)).
Proof.
  intros place msg w job other. split.
  - destruct (handle_place_request_priority no_float w 0
                (sample_request msg always_ack) msg place (JStr "large")
                (JArr []) eq_refl eq_refl
                ltac:(exists JNull; split; reflexivity)
                eq_refl eq_refl eq_refl) as (Hok & _).
    apply (Hok float_zero).
    + right. split; reflexivity.
    + reflexivity.
    + discriminate.
  - destruct (handle_place_request_priority no_float
                (set_task_queue [other] w) 0
                (sample_request msg always_ack) msg place (JStr "large")
                (JArr []) eq_refl eq_refl
                ltac:(exists JNull; split; reflexivity)
                eq_refl eq_refl eq_refl) as (_ & _ & _ & Htie).
    apply (Htie float_zero other).
    + right. split; reflexivity.
    + reflexivity.
    + reflexivity.
Defined.

Lemma ack_before_next_frame_witness :
  let w := world_one_request [sample_chunk "q2" "f2"] (ack_first 2)
             {[ "overpass/f2" := [] ]} in
  let store := [chunk_msg (place_of_area (JFloat float_2)) 0 (JStr "f2")
                  "chunk"] in
  exists r1,
    requests (handle no_float 0 w) !! 0 = Some r1 /\
    let r' := relay 8 store (set_send_queue (fun _ => [Some 0; None]) r1) in
    (forall i, S i < length (sock_out (sock r')) ->
       ack_first 2 i = Some "ack") /\
    (sock_closed (sock r') = true ->
     forall i, i < length (sock_out (sock r')) -> ack_first 2 i = Some "ack").
Proof.
  intros w store. eexists. split; [vm_compute; reflexivity|]. intros r'.
  eapply (ack_before_next_frame no_float w 0
            (sample_request
               (place_request (place_of_area (JFloat float_2))
                  [sample_chunk "q2" "f2"]) (ack_first 2))
            _ r').
  - reflexivity.
  - reflexivity.
  - intros ty H. injection H as <-. reflexivity.
  - reflexivity.
  - reflexivity.
  - reflexivity.
  - vm_compute. reflexivity.
  - apply relays_step. apply relays_refl.
Defined.

(** C1: with an upstream that is down, the job of connection 0 gets one
    error message and one mail is sent, but the sentinel is not put on its
    queue: [process_queue] returns at [if not wait_for_slot(send_queue)].
    The worker goes on with the job of connection 1 and then waits for the
    next job.  The handler of connection 0 relays the error and waits on
    its queue for ever, with the socket open. *)
Lemma status_failure_puts_no_sentinel :
  let w := handle no_float 1
             (handle no_float 0
                (world_two_requests {[ "overpass/f1" := [] ]})) in
  exists w' r,
    process_queue_loop status_down query_ok prompt_sched disk_writes 3 w
      = Some (Blocked w') /\
    puts w' = [(0, Some 1); (1, Some 2); (1, None)] /\
    map (frame_of (objs w')) [1; 2] =
      [JObj [("type", JStr "error");
             ("error", JStr "Can't access overpass API")];
       JObj (chunk_msg (place_of_area (JFloat float_10)) 0 (JStr "f1")
               "chunk")] /\
    length (mails w') = 1 /\
    files w' = {[ "overpass/f1" := [] ]} /\
    requests w' !! 0 = Some r /\
    send_queue (drain (objs w') r) = [] /\
    handler (drain (objs w') r) = HRelay true /\
    sock_closed (sock (drain (objs w') r)) = false /\
    map frame_type (client_frames w' 0) =
      [Some (JStr "connected"); Some (JStr "error")] /\
    map frame_type (client_frames w' 1) =
      [Some (JStr "connected"); Some (JStr "chunk"); Some (JStr "done")].
Proof.
  eexists _, _. split; [vm_compute; reflexivity|].
  repeat split; vm_compute; reflexivity.
Qed.

(** C2 fails on a chunk without query: the job has one chunk, and the
    client receives no [chunk] frame. *)
Lemma chunk_without_oql_not_reported :
  let chunks := [sample_chunk_no_oql "f1"] in
  let w := handle no_float 0 (world_one_request chunks always_ack ∅) in
  exists w',
    process_queue status_free query_ok prompt_sched disk_writes
      w = Done tt w' /\
    client_frames w' 0 = [connected_frame; done_frame] /\
    length (List.filter (has_type "chunk") (client_frames w' 0))
      <> length chunks.
Proof.
  eexists. split; [vm_compute; reflexivity|].
  split; [vm_compute; reflexivity|]. vm_compute. discriminate.
Qed.

(** The dict that [process_queue] sends as [run_query] is the one it sends
    again as [chunk]: a handler that has not relayed the first before the
    worker sets the type again sends two [chunk] frames for one chunk. *)
Example chunk_frame_twice_when_handler_lags :
  let w := handle no_float 0
             (world_one_request [sample_chunk "q0" "f0"] always_ack ∅) in
  exists w',
    process_queue status_free query_ok lazy_sched disk_writes w = Done tt w' /\
    puts w' = [(0, Some 0); (0, Some 0); (0, None)] /\
    map frame_type (client_frames w' 0) =
      [Some (JStr "connected"); Some (JStr "chunk"); Some (JStr "chunk");
       Some (JStr "done")].
Proof.
  eexists. split; [vm_compute; reflexivity|].
  split; vm_compute; reflexivity.
Qed.

(** A chunk whose ['filename'] is empty names the cache directory itself:
    [os.path.exists] is true of it, and the chunk is reported without any
    fetch. *)
Example cache_directory_is_not_fetched :
  let w := sample_world ∅ {[ "overpass/" := [] ]} in
  exists w',
    process_chunk status_down query_fails lazy_sched disk_writes
      (place_of_area (JFloat float_2)) 0 0 (sample_chunk "q0" "") w
      = Done true w' /\
    status_calls w' = 0 /\
    queries w' = [] /\
    puts w' = [(0, Some 0)].
Proof.
  eexists. split; [vm_compute; reflexivity|].
  repeat split; vm_compute; reflexivity.
Qed.

(** C3 fails on equal priorities: three jobs are put, two of them with the
    priority 2.0; [task_queue.get()] then raises [TypeError] while it
    compares the two, and no job is dequeued. *)
Lemma equal_priorities_raise :
  let w := handle no_float 2
             (handle no_float 1 (handle no_float 0 world_three_requests)) in
  map (client_frames w) [0; 1; 2] =
    [[connected_frame]; [connected_frame]; [connected_frame]] /\
  map fst (task_queue w) = [default float_zero (float_of_int 1);
                            float_2; float_2] /\
  exists w',
    process_queue status_free query_ok prompt_sched disk_writes
      w = Raised TypeError w' /\
    puts w' = [].
Proof.
  split; [vm_compute; reflexivity|]. split; [vm_compute; reflexivity|].
  eexists. split; vm_compute; reflexivity.
Qed.

(** C4 fails: the fetch of the first job raises, and the worker loop ends
    with that exception; the second job stays on the queue, and the queue
    of the first job holds neither an error message nor the sentinel. *)
Lemma fetch_failure_stops_worker :
  let w := handle no_float 1 (handle no_float 0 (world_two_requests ∅)) in
  exists w',
    process_queue_loop status_free query_fails prompt_sched disk_writes 5 w
      = Some (Raised (OtherError "ConnectionError") w') /\
    map fst (task_queue w') = [float_10] /\
    puts w' = [(0, Some 0)] /\
    map frame_type (client_frames w' 0) =
      [Some (JStr "connected"); Some (JStr "run_query")] /\
    client_frames w' 1 = [connected_frame].
Proof.
  eexists. split; [vm_compute; reflexivity|].
  repeat split; vm_compute; reflexivity.
Qed.

(** C5 fails for [done]: a client that acknowledges [connected] and the
    [chunk] frame but not [done] leaves the handler waiting for the
    acknowledgment of [done], and the socket is not closed. *)
Lemma done_waits_for_ack :
  let w := handle no_float 0
             (world_one_request [sample_chunk "q2" "f2"] (ack_first 2)
                {[ "overpass/f2" := [] ]}) in
  exists w' r,
    process_queue status_free query_ok prompt_sched disk_writes
      w = Done tt w' /\
    requests w' !! 0 = Some r /\
    map frame_type (sock_out (sock (drain (objs w') r))) =
      [Some (JStr "connected"); Some (JStr "chunk"); Some (JStr "done")] /\
    handler (drain (objs w') r) = HBlocked /\
    sock_closed (sock (drain (objs w') r)) = false.
Proof.
  eexists _, _. split; [vm_compute; reflexivity|].
  repeat split; vm_compute; reflexivity.
Qed.


(** C8 fails on a missing area: the handler dies of [KeyError], no job of
    priority 0 (or any other) is put on the queue and [connected] is not
    sent.  A [null] area is a [TypeError], with the same effect. *)
Lemma missing_area_is_not_priority_zero :
  let msg := place_request (JObj [("name", JStr "Zug")]) [] in
  let msg' := place_request (place_of_area JNull) [] in
  let w := handle no_float 1
             (handle no_float 0
                (sample_world {[ 0 := sample_request msg always_ack;
                                 1 := sample_request msg' always_ack ]} ∅)) in
  task_queue w = [] /\
  handler <$> requests w !! 0 = Some (HRaised (KeyError "area")) /\
  handler <$> requests w !! 1 = Some (HRaised TypeError) /\
  client_frames w 0 = [] /\
  client_frames w 1 = [].
Proof. repeat split; vm_compute; reflexivity. Qed.

Lemma task_queue_order_witness :
  let job2 := (float_2, Item (place_of_area (JFloat float_2))
                          ("127.0.0.1", 4242) (JArr []) 0) in
  let job10 := (float_10, Item (place_of_area (JFloat float_10))
                            ("127.0.0.1", 4242) (JArr []) 1) in
  exists w1 w2 x w3,
    task_queue_put job10 idle_world = Done tt w1 /\
    task_queue_put job2 w1 = Done tt w2 /\
    task_queue_get w2 = Done x w3 /\
    (forall y, y ∈ task_queue w3 -> SFltb (fst x) (fst y) = true).
Proof.
  intros job2 job10.
  destruct task_queue_order as (Hempty & Hput & Hget & _).
  destruct (Hput idle_world job10 Hempty eq_refl)
    as (w1 & Hrun1 & Hok1 & Hperm1).
  { intros y Hy. by apply elem_of_nil in Hy. }
  destruct (Hput w1 job2 Hok1 eq_refl) as (w2 & Hrun2 & Hok2 & Hperm2).
  { intros y Hy. rewrite Hperm1 in Hy.
    apply elem_of_cons in Hy as [->|Hy]; [reflexivity|].
    by apply elem_of_nil in Hy. }
  destruct (Hget w2 Hok2) as (x & w3 & Hrun3 & _ & _ & Hmin).
  { intros Hnil. rewrite Hnil in Hperm2.
    by apply Permutation_nil_cons in Hperm2. }
  exists w1, w2, x, w3. done.
Defined.

(** ** The other properties at sample inputs *)

Lemma handle_ping_witness :
  let r := sample_request (JObj [("type", JStr "ping")]) always_ack in
  let w := sample_world {[ 0 := r ]} ∅ in
  task_queue (handle no_float 0 w) = task_queue w /\
  exists r',
    requests (handle no_float 0 w) !! 0 = Some r' /\
    send_queue r' = [] /\
    handler r' = HReturned /\
    sock_out (sock r') = [JObj [("type", JStr "pong")]] /\
    sock_reads (sock r') = 0 /\
    sock_closed (sock r') = true.
Proof.
  intros r w.
  exact (handle_ping no_float w 0 r (JObj [("type", JStr "ping")])
           (JStr "ping") eq_refl eq_refl eq_refl eq_refl).
Defined.

Lemma handle_invalid_json_witness :
  let r e := MkRequest ("127.0.0.1", 4242)
               (Socket None e always_ack 0 [] None false) [] HNew in
  let w e := sample_world {[ 0 := r e ]} ∅ in
  (exists r',
     requests (handle no_float 0 (w JSONDecodeError)) !! 0 = Some r' /\
     send_queue r' = [] /\
     handler r' = HReturned /\
     sock_out (sock r') =
       [JObj [("type", JStr "error"); ("error", JStr "invalid JSON")]] /\
     sock_reads (sock r') = 0 /\
     sock_closed (sock r') = true) /\
  (exists r',
     requests (handle no_float 0 (w (OtherError "RecursionError"))) !! 0
       = Some r' /\
     send_queue r' = [] /\
     handler r' = HRaised (OtherError "RecursionError") /\
     sock r' = sock (r (OtherError "RecursionError"))).
Proof.
  intros r w. split.
  - exact (proj2 (handle_invalid_json no_float (w JSONDecodeError) 0
                    (r JSONDecodeError) eq_refl eq_refl)).
  - exact (proj2 (handle_invalid_json no_float
                    (w (OtherError "RecursionError")) 0
                    (r (OtherError "RecursionError")) eq_refl eq_refl)).
Defined.

Lemma handle_not_a_dict_witness :
  let r := sample_request (JArr [JStr "ping"]) always_ack in
  let w := sample_world {[ 0 := r ]} ∅ in
  task_queue (handle no_float 0 w) = task_queue w /\
  requests (handle no_float 0 w) !! 0
    = Some (set_handler (HRaised AttributeError) r).
Proof.
  intros r w.
  refine (handle_not_a_dict no_float w 0 r (JArr [JStr "ping"])
            eq_refl eq_refl _).
  discriminate.
Defined.

Lemma handle_connected_broken_pipe_witness :
  let place := place_of_area (JFloat float_2) in
  let msg := place_request place [] in
  let r := MkRequest ("127.0.0.1", 4242)
             (Socket (Some msg) JSONDecodeError always_ack 0 [] (Some 0)
                false) [] HNew in
  let w := sample_world {[ 0 := r ]} ∅ in
  task_queue (handle no_float 0 w)
    = [(float_2, Item place ("127.0.0.1", 4242) (JArr []) 0)] /\
  requests (handle no_float 0 w) !! 0
    = Some (set_handler (HRaised BrokenPipeError)
              (set_send_queue (fun _ => []) r)).
Proof.
  intros place msg r w.
  eapply (handle_connected_broken_pipe no_float w 0 r msg place
            (JFloat float_2) (JArr []) float_2).
  - reflexivity.
  - reflexivity.
  - exists JNull. split; reflexivity.
  - reflexivity.
  - reflexivity.
  - reflexivity.
  - left. reflexivity.
  - reflexivity.
  - reflexivity.
Defined.

Lemma relay_broken_pipe_witness :
  let store := [chunk_msg (place_of_area (JFloat float_2)) 0 (JStr "f0")
                  "chunk"] in
  relay 2 store (relaying_request [Some 0; None] always_ack (Some 0)) =
    set_handler HReturned
      (set_send_queue (fun _ => [None])
         (final_state
            (sock_close (relaying_request [Some 0; None] always_ack
                           (Some 0))))) /\
  relay 1 store (relaying_request [None] always_ack (Some 0)) =
    set_handler (HRaised BrokenPipeError)
      (set_send_queue (fun _ => [])
         (relaying_request [None] always_ack (Some 0))).
Proof.
  intros store. split.
  - destruct (relay_broken_pipe store
                (relaying_request [Some 0; None] always_ack (Some 0))
                false [None] 1 eq_refl eq_refl) as (Hmsg & _).
    apply (Hmsg 0 _ eq_refl eq_refl). discriminate.
  - destruct (relay_broken_pipe store
                (relaying_request [None] always_ack (Some 0))
                false [] 0 eq_refl eq_refl) as (_ & Hdone).
    apply Hdone; reflexivity.
Defined.

Lemma relay_refused_ack_witness :
  let d := chunk_msg (place_of_area (JFloat float_2)) 0 (JStr "f0") "chunk" in
  let r := relaying_request [Some 0; None] (fun _ => Some "nak") None in
  handler (relay 2 [d] r) = HRaised AssertionError /\
  sock_out (sock (relay 2 [d] r)) = sock_out (sock r) ++ [JObj d] /\
  sock_closed (sock (relay 2 [d] r)) = sock_closed (sock r) /\
  send_queue (relay 2 [d] r) = [None].
Proof.
  intros d r.
  refine (relay_refused_ack [d] r false 0 d [None] "nak" 1
            eq_refl eq_refl eq_refl _ _ eq_refl _); discriminate.
Defined.

Lemma wait_for_slot_upstream_failure_witness :
  exists w',
    (wait_for_slot (fun _ => inl Timeout) prompt_sched 0 idle_world
       = Done false w' /\
     mails w' = mails idle_world ++
       [("Overpass API timeout", "Timeout talking to overpass API")] /\
     objs w' = objs idle_world ++ [cant_access] /\
     puts w' = puts idle_world ++ [(0, Some (length (objs idle_world)))]) /\
    status_calls w' = S (status_calls idle_world) /\
    sleeps w' = sleeps idle_world /\
    queries w' = queries idle_world /\
    files w' = files idle_world.
Proof.
  exact (wait_for_slot_upstream_failure (fun _ => inl Timeout) prompt_sched
           0 idle_world Timeout eq_refl).
Defined.

Lemma relay_error_suppresses_done_witness :
  let store := [error_message;
                chunk_msg (place_of_area (JFloat float_2)) 0 (JStr "f0")
                  "chunk"] in
  let r := relaying_request [Some 0; Some 1; None] always_ack None in
  handler (drain store r) = HReturned /\
  sock_closed (sock (drain store r)) = true /\
  send_queue (drain store r) = [] /\
  sock_out (sock (drain store r)) =
    sock_out (sock r) ++ map (frame_of store) [0; 1] ++
    (if existsb (has_type "error") (map (frame_of store) [0; 1])
     then [] else [done_frame]).
Proof.
  intros store r.
  apply (relay_error_suppresses_done store [0; 1] r).
  - repeat split; intros; reflexivity.
  - reflexivity.
  - repeat constructor; eexists _, _; split; reflexivity.
Defined.

Lemma process_chunk_lagging_handler_witness :
  let place := place_of_area (JFloat float_2) in
  let w := sample_world {[ 0 := relaying_request [] always_ack None ]} ∅ in
  let frames := [connected_frame;
                 JObj [("type", JStr "status"); ("wait", JInt 5)];
                 JObj (chunk_msg place 0 (JStr "f0") "chunk");
                 JObj (chunk_msg place 0 (JStr "f0") "chunk")] in
  (exists w',
     process_chunk status_wait_5 query_ok lazy_sched disk_writes place 0 0
       (sample_chunk "q0" "f0") w = Done true w' /\
     client_frames w' 0 = frames) /\
  (exists w',
     process_chunk status_wait_5 query_ok sleep_sched disk_writes place 0 0
       (sample_chunk "q0" "f0") w = Done true w' /\
     client_frames w' 0 = frames).
Proof.
  intros place w frames. split.
  - eapply (process_chunk_lagging_handler status_wait_5 query_ok lazy_sched
              disk_writes place 0 0 w [connected_frame] _ (JStr "q0") "f0"
              [5%Z] []).
    + sample_client_view.
    + reflexivity.
    + reflexivity.
    + reflexivity.
    + reflexivity.
    + reflexivity.
    + reflexivity.
    + reflexivity.
    + left. reflexivity.
  - eapply (process_chunk_lagging_handler status_wait_5 query_ok sleep_sched
              disk_writes place 0 0 w [connected_frame] _ (JStr "q0") "f0"
              [5%Z] []).
    + sample_client_view.
    + reflexivity.
    + reflexivity.
    + reflexivity.
    + reflexivity.
    + reflexivity.
    + reflexivity.
    + reflexivity.
    + left. reflexivity.
Defined.

Lemma process_chunk_fetch_once_witness :
  let place := place_of_area (JFloat float_2) in
  let place' := place_of_area (JFloat float_10) in
  (exists w1 w2,
     process_chunk status_free query_ok prompt_sched disk_writes place 0 0
       (sample_chunk "q0" "f0") idle_world = Done true w1 /\
     files w1 !! "overpass/f0" = Some [] /\
     queries w1 = [JStr "q0"] /\
     process_chunk status_free query_ok prompt_sched disk_writes place' 1 3
       (sample_chunk "q0" "f0") w1 = Done true w2 /\
     queries w2 = [JStr "q0"] /\
     files w2 = files w1) /\
  (exists w1,
     process_chunk status_free query_ok prompt_sched no_subdir place 0 0
       (sample_chunk "q0" "sub/f0") idle_world
       = Raised (OtherError "FileNotFoundError") w1 /\
     files w1 = ∅ /\
     queries w1 = [JStr "q0"]).
Proof.
  intros place place'. split.
  - destruct (process_chunk_fetch_once status_free query_ok prompt_sched
                disk_writes place place' 0 1 0 3 idle_world
                [("oql", JStr "q0"); ("filename", JStr "f0")]
                (JStr "q0") "f0" [] []
                eq_refl eq_refl eq_refl eq_refl eq_refl eq_refl)
      as (w1 & w2 & H1 & H2 & _ & H4 & _ & _ & H7 & H8 & H9 & _).
    exists w1, w2. rewrite H9, H4. done.
  - destruct (process_chunk_fetch_once status_free query_ok prompt_sched
                no_subdir place place' 0 1 0 3 idle_world
                [("oql", JStr "q0"); ("filename", JStr "sub/f0")]
                (JStr "q0") "sub/f0" [] []
                eq_refl eq_refl eq_refl eq_refl eq_refl eq_refl)
      as (w1 & H1 & H2 & H3 & _).
    exists w1. done.
Defined.

Lemma process_queue_malformed_job_witness :
  let place := place_of_area (JFloat float_2) in
  let bad := JObj [("oql", JStr "q0")] in
  let job chunks := (float_2, Item place ("127.0.0.1", 4242) chunks 0) in
  process_queue_loop status_free query_ok prompt_sched disk_writes 3
    (set_task_queue [job JNull] idle_world)
    = Some (Raised TypeError idle_world) /\
  process_queue_loop status_free query_ok prompt_sched disk_writes 3
    (set_task_queue [job (JArr [bad])] idle_world)
    = Some (Raised (KeyError "filename") idle_world).
Proof.
  intros place bad job. split.
  - destruct (process_queue_malformed_job status_free query_ok prompt_sched
                disk_writes
                2 (set_task_queue [job JNull] idle_world) float_2
                (snd (job JNull)) [] eq_refl) as (Hiter & _).
    apply (Hiter TypeError eq_refl).
  - destruct (process_queue_malformed_job status_free query_ok prompt_sched
                disk_writes
                2 (set_task_queue [job (JArr [bad])] idle_world) float_2
                (snd (job (JArr [bad]))) [] eq_refl) as (_ & Hchunk).
    apply (Hchunk [] [] bad idle_world (KeyError "filename") eq_refl eq_refl).
    right. eexists _, (JStr "q0"). split; [reflexivity|].
    split; [reflexivity|]. split; [reflexivity|]. left. split; reflexivity.
Defined.

Lemma put_all_get_n_sorted_witness :
  let job (f : spec_float) (c : nat) :=
    (f, Item (place_of_area (JFloat f)) ("127.0.0.1", 4242) (JArr []) c) in
  exists w1 ys w2,
    put_all [job float_10 0; job float_2 1; job float_one 2] idle_world
      = Done tt w1 /\
    get_n 3 w1 = Done ys w2 /\
    ys ≡ₚ [job float_10 0; job float_2 1; job float_one 2] /\
    StronglySorted before ys /\
    task_queue w2 = [].
Proof.
  intros job.
  apply (put_all_get_n_sorted idle_world
           [job float_10 0; job float_2 1; job float_one 2] eq_refl).
  split; [|split].
  - repeat constructor; intros H;
      repeat (apply elem_of_cons in H as [H|H]; [discriminate H|]);
      by apply elem_of_nil in H.
  - intros x H.
    repeat (apply elem_of_cons in H as [->|H]; [reflexivity|]).
    by apply elem_of_nil in H.
  - intros x y Hx Hy.
    repeat (apply elem_of_cons in Hx as [->|Hx];
            [repeat (apply elem_of_cons in Hy as [->|Hy];
                     [first [reflexivity | by intros []]|]);
             by apply elem_of_nil in Hy|]).
    by apply elem_of_nil in Hx.
Defined.

Lemma name_city_rule_witness :
  let self display := sample_place "City" display JNull in
  Place.name (self "City, Zug, Switzerland") = inr (JStr "City, Zug") /\
  Place.name (self "City, Zug") = inr (JStr "City").
Proof.
  intros self. split.
  - refine (proj1 (name_city_rule (self "City, Zug, Switzerland")
                     [("name", JStr "City")] "City" "Zug" "Switzerland"
                     _ eq_refl eq_refl _ eq_refl) eq_refl).
    + apply list_elem_of_here.
    + right. split; reflexivity.
  - refine (proj2 (name_city_rule (self "City, Zug")
                     [("name", JStr "City")] "City" "Zug" "Switzerland"
                     _ eq_refl eq_refl _ eq_refl) eq_refl).
    + apply list_elem_of_here.
    + right. split; reflexivity.
Defined.

Lemma name_for_changeset_needs_address_witness :
  let self := sample_place "Isle of Man" "Isle of Man" JNull in
  Place.name_for_changeset no_repr self = inl AttributeError /\
  Place.name_for_change_comment self = inr (JStr "the Isle of Man").
Proof.
  intros self.
  refine (name_for_changeset_needs_address no_repr self "Isle of Man"
            eq_refl eq_refl _).
  intros d H. discriminate H.
Defined.

Lemma us_state_is_appended_witness :
  let self := sample_place "Portland" "Portland, Oregon, USA"
                (us_address "Oregon") in
  Place.name_for_changeset no_repr self = inr (JStr "Portland, Oregon") /\
  Place.name_for_change_comment self = inr (JStr "Portland, Oregon").
Proof.
  intros self.
  refine (us_state_is_appended no_repr self _ "Portland" "Oregon"
            eq_refl eq_refl eq_refl eq_refl _ _); discriminate.
Defined.

Lemma name_extra_detail_splits_display_witness :
  let self := [("display_name", JStr "Zug, Switzerland");
               ("namedetails", JObj [("name:en", JStr "Zug")])] in
  Place.name_extra_detail self = inr (JStr "Switzerland") /\
  exists n v,
    (n = "name:en" \/ n = "name") /\
    py_getitem (Place.attr self "namedetails") n = inr (JStr v) /\
    Place.attr self "display_name" = JStr (v +:+ ", " +:+ "Switzerland").
Proof.
  intros self.
  destruct (name_extra_detail_splits_display self) as (Hsplit & Hfind).
  pose proof (Hfind [("name:en", JStr "Zug")] "Zug" "Switzerland"
                eq_refl eq_refl eq_refl) as Hrun.
  split; [exact Hrun|]. exact (Hsplit "Switzerland" Hrun).
Defined.

Lemma export_name_has_no_space_witness :
  let self := sample_place "Zug: old town" "Zug" JNull in
  exists e,
    Place.export_name self = inr e /\
    e = "Zug_old_town" /\
    str_contains ":" e = false /\
    str_contains " " e = false.
Proof.
  intros self.
  destruct (export_name_has_no_space self "Zug: old town" eq_refl)
    as (e & Hrun & He & Hc & Hs & _).
  exists e. done.
Defined.

Lemma from_nominatim_attributes_witness :
  exists p,
    Place.from_nominatim sample_hit = inr p /\
    Place.bbox p = [JStr "47.08"; JStr "47.19"; JStr "8.43"; JStr "8.55"] /\
    Place.attr p "display_name" = JStr "City, Zug, Switzerland" /\
    Place.attr p "icon" = JNull /\
    Place.attr p "radius" = JNull /\
    Place.attr p "licence" = JNull.
Proof.
  eexists. split; [reflexivity|].
  match goal with
  | |- Place.bbox ?p = _ /\ _ =>
      destruct (from_nominatim_attributes sample_hit p eq_refl)
        as (d & bbox & Hd & Hbb & Hit & Hkeys & _ & Hradius & Hrest)
  end.
  injection Hd as <-.
  assert (Hb : bbox = JArr [JStr "47.08"; JStr "47.19"; JStr "8.43";
                            JStr "8.55"]).
  { vm_compute in Hbb. by injection Hbb. }
  rewrite Hb in Hit. cbn [py_iter] in Hit.
  split; [congruence|].
  split; [apply Hkeys; vm_compute; by do 2 right; left|].
  split; [apply Hkeys; vm_compute; by do 7 right; left|].
  split; [exact Hradius|].
  apply Hrest. vm_compute. intros H.
  repeat (apply elem_of_cons in H as [H|H]; [discriminate H|]).
  by apply elem_of_nil in H.
Defined.

Lemma from_nominatim_requires_witness :
  Place.from_nominatim (JArr []) = inl TypeError /\
  Place.from_nominatim (JObj [("osm_type", JStr "node")])
    = inl (KeyError "boundingbox") /\
  Place.from_nominatim
    (JObj [("osm_type", JStr "node");
           ("boundingbox", JArr [JStr "47.08"; JStr "47.19"])])
    = inl ValueError.
Proof.
  destruct from_nominatim_requires as (Hnd & _ & Hbb & Hfour & _).
  split; [|split].
  - apply Hnd. intros d H. discriminate H.
  - apply Hbb; [by eexists|reflexivity].
  - eapply Hfour; [by eexists|reflexivity|reflexivity|]. cbn. lia.
Defined.

Lemma update_from_nominatim_attributes_witness :
  let self := [("icon", JStr "poi_boundary"); ("osm_id", JInt 1682248)] in
  (exists p,
     Place.update_from_nominatim self sample_hit = inr p /\
     Place.attr p "icon" = JNull /\
     Place.attr p "osm_id" = JInt 1682248 /\
     Place.attr p "type" = JStr "administrative") /\
  Place.update_from_nominatim self JNull = inl AttributeError.
Proof.
  intros self.
  destruct (update_from_nominatim_attributes self sample_hit)
    as (Hset & _ & _).
  destruct (update_from_nominatim_attributes self JNull) as (_ & Hnd & _).
  split.
  - destruct (Hset _ eq_refl) as (p & Hrun & Hp).
    exists p. split; [exact Hrun|]. rewrite !Hp. done.
  - apply Hnd. intros d H. discriminate H.
Defined.

Lemma prefix_injective_witness :
  Place.prefix no_repr (sample_place "Zug" "Zug" JNull) = "osm_4071" /\
  (forall q b,
     Place.attr q "place_id" = JInt b ->
     Place.prefix no_repr q = "osm_4071" -> 4071%Z = b).
Proof.
  split; [reflexivity|]. intros q b Hq Hp.
  exact (prefix_injective no_repr (sample_place "Zug" "Zug" JNull) q 4071 b
           eq_refl Hq (eq_sym Hp)).
Defined.

Lemma country_in_parentheses_witness :
  let address := JObj [("country", JStr "Switzerland");
                       ("country_code", JStr "ch")] in
  Place.name_for_changeset no_repr (sample_place "Zug" "Zug" address)
    = inr (JStr "Zug (Switzerland)") /\
  Place.name_for_changeset no_repr
    (sample_place "Switzerland" "Switzerland" address)
    = inr (JStr "Switzerland").
Proof.
  intros address. split.
  - refine (country_in_parentheses no_repr (sample_place "Zug" "Zug" address)
              _ "Zug" "Switzerland" eq_refl eq_refl eq_refl eq_refl _).
    discriminate.
  - refine (country_in_parentheses no_repr
              (sample_place "Switzerland" "Switzerland" address)
              _ "Switzerland" "Switzerland" eq_refl eq_refl eq_refl eq_refl _).
    discriminate.
Defined.
